(** * strax: option model, option registration and test fixtures

    A shallow embedding of [strax/config.py] and of the bound generator of
    [strax/testutils.py], followed by the properties established for them.

    Python objects are modelled as follows.
    - Values that options and configurations carry are [pyval]s.
    - The module constant [OMITTED] is a sentinel that the code only ever
      tests with [is]/[is not]; a slot that may hold it is a [field].
    - An exception is a value of [exn]; code that may raise returns a [res].
    - Code with side effects is a function from a state to a result and a
      state; the state is returned also when the code raises, because what
      Python has mutated before a [raise] stays mutated. *)

From Stdlib Require Import ZArith String Ascii List Bool Lia.
From Stdlib Require Import DecimalString DecimalZ.
From stdpp Require Import base option list gmap strings sorting.

Set Warnings "-register-all".
Open Scope string_scope.
Open Scope Z_scope.

(** ** Python values, classes and exceptions *)

(** Where a class stands in the tower of [numbers]: registered under
    [numbers.Integral] (and so under [numbers.Number]), under
    [numbers.Number] only, or not at all. *)
Inductive number_kind : Type :=
| NotNumber
| IsNumber
| IsIntegral.

(** The values of the built-in classes that matter here, and [VObject] for
    an instance of any other class ([numpy.int64], [fractions.Fraction],
    [dict], ...): the code looks at such a value only through [isinstance]
    and [type], so it is given by the name of its class and the place of
    that class in the tower of [numbers]. *)
Inductive pyval : Type :=
| VNone
| VBool (b : bool)
| VInt (n : Z)
| VFloat (bits : Z)
| VComplex (re_bits im_bits : Z)
| VStr (s : string)
| VTuple (items : list pyval)
| VList (items : list pyval)
| VObject (class_name : string) (k : number_kind).

(** A slot whose value may be the sentinel [OMITTED = "<OMITTED>"].  The
    source compares with [is], so only the sentinel object itself counts as
    omitted; every proper value is [Given]. *)
Inductive field (A : Type) : Type :=
| OMITTED
| Given (a : A).
Arguments OMITTED {A}.
Arguments Given {A} a.

Definition is_not_OMITTED {A} (f : field A) : bool :=
  match f with OMITTED => false | Given _ => true end.

Inductive exn : Type :=
| RuntimeError (msg : string)
| ValueError (msg : string)
| AttributeError (msg : string)
| TypeError (msg : string)
| UnboundLocalError (msg : string)
| InvalidConfiguration (msg : string)
| SystemError (msg : string).   (* a reference without an object: no Python
                                   program gets there *)

Inductive res (A : Type) : Type :=
| Ok (a : A)
| Raise (e : exn).
Arguments Ok {A} a.
Arguments Raise {A} e.

(** The classes that matter for [isinstance] and [builtins.type]; [COther]
    is any other class, a direct subclass of [object] that may be
    registered in the tower of [numbers]. *)
Inductive pyclass : Type :=
| CObject | CNoneType | CBool | CInt | CFloat | CComplex | CStr | CTuple | CList
| CIntegral   (* numbers.Integral *)
| CNumber     (* numbers.Number *)
| COther (name : string) (k : number_kind).

Definition number_kind_eqb (a b : number_kind) : bool :=
  match a, b with
  | NotNumber, NotNumber | IsNumber, IsNumber | IsIntegral, IsIntegral => true
  | _, _ => false
  end.

Definition pyclass_eqb (c d : pyclass) : bool :=
  match c, d with
  | CObject, CObject | CNoneType, CNoneType | CBool, CBool | CInt, CInt
  | CFloat, CFloat | CComplex, CComplex | CStr, CStr | CTuple, CTuple
  | CList, CList | CIntegral, CIntegral | CNumber, CNumber => true
  | COther n k, COther n' k' => String.eqb n n' && number_kind_eqb k k'
  | _, _ => false
  end.

(** [builtins.type(v)] *)
Definition type_of (v : pyval) : pyclass :=
  match v with
  | VNone => CNoneType
  | VBool _ => CBool
  | VInt _ => CInt
  | VFloat _ => CFloat
  | VComplex _ _ => CComplex
  | VStr _ => CStr
  | VTuple _ => CTuple
  | VList _ => CList
  | VObject n k => COther n k
  end.

(** [issubclass(c, d)], with the registrations of the [numbers] tower:
    bool <: int <: Integral <: Number, float <: Number, complex <: Number. *)
Definition issubclass (c d : pyclass) : bool :=
  match d with
  | CObject => true
  | CNumber =>
      match c with
      | CBool | CInt | CFloat | CComplex | CIntegral | CNumber => true
      | COther _ k => negb (number_kind_eqb k NotNumber)
      | _ => false
      end
  | CIntegral =>
      match c with
      | CBool | CInt | CIntegral => true
      | COther _ k => number_kind_eqb k IsIntegral
      | _ => false
      end
  | CInt => match c with CBool | CInt => true | _ => false end
  | _ => pyclass_eqb c d
  end.

(** [isinstance(v, c)] for a class [c]. *)
Definition isinstance_class (v : pyval) (c : pyclass) : bool :=
  issubclass (type_of v) c.

(** What can stand as the second argument of [isinstance], and so as the
    [type] of an option: a class, a tuple of such things, or anything else
    (a str, a list, ...), of which only the text of its [str] matters. *)
Inductive classinfo : Type :=
| OneClass (c : pyclass)
| ClassTuple (cs : list classinfo)
| NotAClass (shown : string).

(** [isinstance(v, ci)]: the items of a tuple are tried from left to right
    up to the first that matches; an item that is neither a class nor a
    tuple raises when it is reached. *)
Fixpoint isinstance (v : pyval) (ci : classinfo) : res bool :=
  match ci with
  | OneClass c => Ok (isinstance_class v c)
  | ClassTuple cs =>
      (fix any (cs : list classinfo) : res bool :=
         match cs with
         | [] => Ok false
         | item :: rest =>
             match isinstance v item with
             | Ok true => Ok true
             | Ok false => any rest
             | Raise e => Raise e
             end
         end) cs
  | NotAClass _ =>
      Raise (TypeError
               "isinstance() arg 2 must be a type, a tuple of types, or a union")
  end.

(** Stateful, fallible code over a state [S]. *)
Definition M (S A : Type) : Type := S -> res A * S.

Definition ret {S A} (a : A) : M S A := fun s => (Ok a, s).
Definition raise {S A} (e : exn) : M S A := fun s => (Raise e, s).
Definition bind {S A B} (m : M S A) (k : A -> M S B) : M S B :=
  fun s => match m s with
           | (Ok a, s') => k a s'
           | (Raise e, s') => (Raise e, s')
           end.

Declare Scope py_scope.
Delimit Scope py_scope with py.
Notation "'let*' x ':=' m 'in' k" := (bind m (fun x => k))
  (at level 10, x pattern, m at level 100, k at level 200) : py_scope.
Notation "m ';;' k" := (bind m (fun _ => k))
  (at level 100, k at level 200, right associativity) : py_scope.

(** ** Strings: the pieces of [str] and of f-strings that the code uses *)

(** A [string] stands for a Python text whose code points are all below
    256, one character per code point. *)

(** The double quote and the backslash, for texts that contain them. *)
Definition dquote_char : ascii := ascii_of_nat 34.
Definition backslash_char : ascii := ascii_of_nat 92.
Definition dquote : string := String dquote_char EmptyString.

(** The decimal writing of an int. *)
Definition str_of_int (n : Z) : string := NilZero.string_of_int (Z.to_int n).

(** [sys.get_int_max_str_digits()], at its default: the number of digits
    above which the interpreter refuses to turn a text into an int or an
    int into a text. *)
Definition int_max_str_digits : Z := 4300.

(** The least number that has more digits than that. *)
Definition str_digits_bound : Z := 10 ^ int_max_str_digits.

(** [str(n)] for an int, which is also how an f-string renders it. *)
Definition py_str_int (n : Z) : res string :=
  if str_digits_bound <=? Z.abs n
  then Raise (ValueError
                ("Exceeds the limit (4300 digits) for integer string "
                 +:+ "conversion; use sys.set_int_max_str_digits() "
                 +:+ "to increase the limit"))
  else Ok (str_of_int n).

(** [s.startswith("_")] *)
Definition startswith_underscore (s : string) : bool :=
  match s with
  | String c _ => Ascii.eqb c "_"%char
  | EmptyString => false
  end.

(** [s.replace("_", "")] *)
Fixpoint remove_underscores (s : string) : string :=
  match s with
  | EmptyString => EmptyString
  | String c rest =>
      if Ascii.eqb c "_"%char then remove_underscores rest
      else String c (remove_underscores rest)
  end.

(** [repr(s)] for a text: single quotes, unless the text has a single
    quote and no double quote; the quote in use and the backslash are
    escaped, and so is every character that is not printable. *)
Fixpoint contains_char (c : ascii) (s : string) : bool :=
  match s with
  | EmptyString => false
  | String c' rest => Ascii.eqb c' c || contains_char c rest
  end.

Definition hex_digit (n : nat) : ascii :=
  if (n <? 10)%nat then ascii_of_nat (48 + n) else ascii_of_nat (87 + n).

Definition repr_char (quote c : ascii) : string :=
  let n := nat_of_ascii c in
  let escaped (x : ascii) := String backslash_char (String x EmptyString) in
  if Ascii.eqb c quote || Ascii.eqb c backslash_char then escaped c
  else if (n =? 9)%nat then escaped "t"%char
  else if (n =? 10)%nat then escaped "n"%char
  else if (n =? 13)%nat then escaped "r"%char
  else if (n <? 32)%nat || (127 <=? n)%nat && (n <=? 160)%nat || (n =? 173)%nat
  then String backslash_char
         (String "x" (String (hex_digit (n / 16)) (String (hex_digit (n mod 16))
                                                     EmptyString)))
  else String c EmptyString.

Fixpoint repr_chars (quote : ascii) (s : string) : string :=
  match s with
  | EmptyString => String quote EmptyString
  | String c rest => repr_char quote c +:+ repr_chars quote rest
  end.

Definition py_repr_str (s : string) : string :=
  let quote := if contains_char "'"%char s && negb (contains_char dquote_char s)
               then dquote_char else "'"%char in
  String quote (repr_chars quote s).

(** Whitespace that [int] strips from a text: the codes 9 to 13 and 32,
    and among the code points above 127 the next-line and no-break space
    characters. *)
Definition is_space (c : ascii) : bool :=
  let n := nat_of_ascii c in
  ((9 <=? n) && (n <=? 13) || (n =? 32) || (n =? 133) || (n =? 160))%nat.

Definition digit_of (c : ascii) : option Z :=
  let n := nat_of_ascii c in
  if ((48 <=? n) && (n <=? 57))%nat then Some (Z.of_nat n - 48) else None.

Fixpoint lstrip (s : string) : string :=
  match s with
  | String c rest => if is_space c then lstrip rest else s
  | EmptyString => EmptyString
  end.

(** The digits a text begins with, and what follows them. *)
Fixpoint span_digits (s : string) : list Z * string :=
  match s with
  | String c rest =>
      match digit_of c with
      | Some d => (d :: (span_digits rest).1, (span_digits rest).2)
      | None => ([], s)
      end
  | EmptyString => ([], EmptyString)
  end.

(** The number that a list of decimal digits writes. *)
Definition digits_value (ds : list Z) : Z :=
  fold_left (fun acc d => 10 * acc + d) ds 0.

(** The sign a text begins with, if any, and the text after it. *)
Definition strip_sign (s : string) : bool * string :=
  match s with
  | String c rest =>
      if Ascii.eqb c "-"%char then (true, rest)
      else if Ascii.eqb c "+"%char then (false, rest)
      else (false, s)
  | EmptyString => (false, s)
  end.

(** [int(s)] for a text in base 10: whitespace, an optional sign, at least
    one digit, whitespace.  The digits are counted, and refused when there
    are too many, before what follows them is looked at.  (Digit
    separators cannot occur: the only caller has removed every
    underscore.)  The message of an invalid text shows at most 200
    characters of its [repr]. *)
Definition py_int (s : string) : res Z :=
  let invalid :=
    Raise (ValueError ("invalid literal for int() with base 10: "
                       +:+ substring 0 200 (py_repr_str s))) in
  let signed := strip_sign (lstrip s) in
  let scanned := span_digits signed.2 in
  let ds := scanned.1 in
  if int_max_str_digits <? Z.of_nat (List.length ds)
  then Raise (ValueError
                ("Exceeds the limit (4300 digits) for integer string "
                 +:+ "conversion: value has "
                 +:+ str_of_int (Z.of_nat (List.length ds))
                 +:+ " digits; use sys.set_int_max_str_digits() "
                 +:+ "to increase the limit"))
  else match ds with
       | [] => invalid
       | _ :: _ =>
           match lstrip scanned.2 with
           | EmptyString =>
               Ok (if signed.1 then - digits_value ds else digits_value ds)
           | String _ _ => invalid
           end
       end.

(** ** config.py: [Option] *)

(** References to option objects in the store of the registration code,
    and the dicts from option names to such references. *)
Abbreviation oref := nat (only parsing).
Abbreviation registry := (list (string * oref)) (only parsing).

Section Config.

(** The state that default factories read and write. *)
Context {W : Type}.

(** [strax.deterministic_hash], applied to a per-run table; it lives in the
    processing core, outside this repository. *)
Context (deterministic_hash : list (Z * pyval) -> string).

(** The two shapes [default_by_run] can have. *)
Inductive per_run : Type :=
| PerRunCallable
| PerRunTable (table : list (Z * pyval)).

(** Run identifiers as callers pass them. *)
Inductive run_id_t : Type :=
| RunNone
| RunInt (n : Z)
| RunStr (s : string).

(** The attributes of an [Option] object.  [is_Config] tells an instance of
    the subclass [Config]; [taken_by] is only annotated in the class body,
    so it is absent until a registration step assigns it. *)
Record Option : Type := mkOption {
  name : string;
  type : field classinfo;
  default : field pyval;
  default_by_run : field per_run;
  default_factory : field (M W pyval);
  track : bool;
  help : string;
  child_option : bool;
  parent_option_name : option string;
  taken_by : option string;
  is_Config : bool
}.

(** Truth value of an [Optional[str]]: [None] and the empty text are false. *)
Definition truthy (s : option string) : bool :=
  match s with
  | None => false
  | Some t => negb (String.eqb t "")
  end.

Definition child_option_message (self_name : string) : string :=
  "You have to specify both, " +:+ dquote +:+ "child_option" +:+ dquote
  +:+ "=True and the name of the parent option which should be "
  +:+ "overwritten by the child. Options which are unique "
  +:+ "to the child should not be marked as a child option."
  +:+ "Please update " +:+ self_name +:+ " accordingly.".

(** The number of [True]s in a list of booleans: [sum([...])]. *)
Definition sum_bools (bs : list bool) : nat :=
  List.length (filter (fun b => Is_true b) bs).

(** [Option.__init__]; [as_Config] is true when it runs for a [Config]. *)
Definition Option_init (as_Config : bool)
    (name0 : string) (type0 : field classinfo) (default0 : field pyval)
    (default_factory0 : field (M W pyval)) (default_by_run0 : field per_run)
    (child_option0 : bool) (parent_option_name0 : option string)
    (track0 : bool) (infer_type : bool) (help0 : string) : res Option :=
  if (child_option0 && negb (truthy parent_option_name0))
     || (negb child_option0 && truthy parent_option_name0)
  then Raise (ValueError (child_option_message name0))
  else if (1 <? sum_bools [is_not_OMITTED default0;
                           is_not_OMITTED default_factory0;
                           is_not_OMITTED default_by_run0])%nat
  then Raise (RuntimeError
                ("Tried to specify more than one default for option "
                 +:+ name0 +:+ "."))
  else
    let type1 :=
      match infer_type, type0, default0 with
      | true, OMITTED, Given d =>
          if isinstance_class d CIntegral then Given (OneClass CIntegral)
          else if isinstance_class d CNumber then Given (OneClass CNumber)
          else Given (OneClass (type_of d))
      | _, _, _ => type0
      end in
    Ok {| name := name0; type := type1; default := default0;
          default_by_run := default_by_run0;
          default_factory := default_factory0;
          track := track0; help := help0;
          child_option := child_option0;
          parent_option_name := parent_option_name0;
          taken_by := None; is_Config := as_Config |}.

(** [Config.__init__]: the keyword [name] defaults to the empty text. *)
Definition Config_init (name0 : option string) :=
  Option_init true (match name0 with Some n => n | None => "" end).

(** *** [Option.get_default] *)

(** What the legacy code makes of the run id before it looks at the table. *)
Inductive run_kind : Type :=
| SuperRun
| Ordinary (n : Z).

Definition classify_run (run_id : run_id_t) : res run_kind :=
  let run_id := match run_id with RunNone => RunInt 0 | r => r end in
  match run_id with
  | RunStr s =>
      if startswith_underscore s then Ok SuperRun
      else match py_int (remove_underscores s) with
           | Ok n => Ok (Ordinary n)
           | Raise e => Raise e
           end
  | RunInt n => Ok (Ordinary n)
  | RunNone => Ok (Ordinary 0)
  end.

(** The [for ... in enumerate(self.default_by_run)] loop.  The values of a
    table are proper values, so [use_value] is [OMITTED] after the loop
    only if the loop has assigned nothing. *)
Fixpoint scan_table (table : list (Z * pyval)) (run_id : Z)
    (use_value : field pyval) : field pyval :=
  match table with
  | [] => use_value
  | (start_run, value) :: rest =>
      if start_run >? run_id then use_value
      else scan_table rest run_id (Given value)
  end.

(** The f-string of the error for a run id below the table: only its first
    piece is an f-string, and rendering the run id there can fail. *)
Definition too_small_message (run_id : Z) : res string :=
  match py_str_int run_id with
  | Ok shown =>
      Ok ("Run id " +:+ shown +:+ " is smaller than the "
          +:+ "lowest run id {start_run} for which the default "
          +:+ "of the option {self.name} is known.")
  | Raise e => Raise e
  end.

(** The body of [if self.default_by_run is not OMITTED:]. *)
Definition legacy_per_run (dbr : per_run) (run_id : run_id_t) : res pyval :=
  match classify_run run_id with
  | Raise e => Raise e
  | Ok kind =>
      match dbr with
      | PerRunCallable =>
          Raise (RuntimeError
            ("Using functions to specify per-run defaults is no longer"
             +:+ "supported: specify a (first_run, option) list, or "
             +:+ "a URL of a file to process in the plugin"))
      | PerRunTable table =>
          match kind with
          | SuperRun =>
              Ok (VStr ("<SUBRUN-DEPENDENT:" +:+ deterministic_hash table +:+ ">"))
          | Ordinary n =>
              match scan_table table n OMITTED with
              | OMITTED =>
                  match too_small_message n with
                  | Ok msg => Raise (ValueError msg)
                  | Raise e => Raise e
                  end
              | Given v => Ok v
              end
          end
      end
  end.

Definition missing_option (self : Option) : res pyval :=
  match taken_by self with
  | Some plugin =>
      Raise (InvalidConfiguration
               ("Missing option " +:+ name self +:+ " required by " +:+ plugin))
  | None =>
      Raise (AttributeError
               ("'" +:+ (if is_Config self then "Config" else "Option")
                +:+ "' object has no attribute 'taken_by'"))
  end.

Definition get_default (self : Option) (run_id : run_id_t)
    (run_defaults : option (gmap string pyval)) : M W pyval :=
  match run_defaults ≫= (fun d => d !! name self) with
  | Some v => ret v
  | None =>
      match default self with
      | Given v => ret v
      | OMITTED =>
          match default_factory self with
          | Given factory => factory
          | OMITTED =>
              match default_by_run self with
              | Given dbr => fun w => (legacy_per_run dbr run_id, w)
              | OMITTED => fun w => (missing_option self, w)
              end
          end
      end
  end.

(** *** [Option.validate] *)

(** [repr] of a class, as an f-string renders [self.type] and [type(value)]. *)
Definition class_repr (c : pyclass) : string :=
  match c with
  | CObject => "<class 'object'>"
  | CNoneType => "<class 'NoneType'>"
  | CBool => "<class 'bool'>"
  | CInt => "<class 'int'>"
  | CFloat => "<class 'float'>"
  | CComplex => "<class 'complex'>"
  | CStr => "<class 'str'>"
  | CTuple => "<class 'tuple'>"
  | CList => "<class 'list'>"
  | CIntegral => "<class 'numbers.Integral'>"
  | CNumber => "<class 'numbers.Number'>"
  | COther n _ => "<class '" +:+ n +:+ "'>"
  end.

Fixpoint classinfo_repr (ci : classinfo) : string :=
  match ci with
  | OneClass c => class_repr c
  | ClassTuple [] => "()"
  | ClassTuple [c] => "(" +:+ classinfo_repr c +:+ ",)"
  | ClassTuple (c :: cs) =>
      "(" +:+ fold_left (fun acc d => acc +:+ ", " +:+ classinfo_repr d) cs
                (classinfo_repr c)
      +:+ ")"
  | NotAClass shown => shown
  end.

(** A warning object: [validate] builds one and drops it. *)
Inductive warning : Type :=
| UserWarning (msg : string).

Definition invalid_type_warning (self : Option) (value : pyval)
    (ty : classinfo) : warning :=
  UserWarning ("Invalid type for option " +:+ name self +:+ ". "
               +:+ "Excepted a " +:+ classinfo_repr ty
               +:+ ", got a " +:+ class_repr (type_of value)).

(** The state is the configuration mapping that is passed in, which
    [validate] updates in place, and the state of the factories. *)
Definition validate (self : Option) (run_id : run_id_t)
    (run_defaults : option (gmap string pyval)) (set_defaults : bool)
    : M (gmap string pyval * W) unit :=
  fun '(config, w) =>
    match config !! name self with
    | Some value =>
        match type self with
        | Given ty =>
            match isinstance value ty with
            | Raise e => (Raise e, (config, w))
            | Ok matches =>
                if negb matches
                then let _ := invalid_type_warning self value ty in
                     (Ok tt, (config, w))
                else (Ok tt, (config, w))
            end
        | OMITTED => (Ok tt, (config, w))
        end
    | None =>
        if set_defaults then
          match get_default self run_id run_defaults w with
          | (Ok v, w') => (Ok tt, (<[name self := v]> config, w'))
          | (Raise e, w') => (Raise e, (config, w'))
          end
        else (Ok tt, (config, w))
    end.

(** *** [Config]: reading and writing the attribute *)

(** The object an attribute is read from: a plugin instance with the
    attributes it has, or anything else (then both are absent). *)
Record instance : Type := mkInstance {
  inst_config : option (gmap string pyval);
  inst_run_id : option run_id_t
}.

Definition fetch (self : Option) (plugin : instance) : M W pyval :=
  match inst_config plugin with
  | None => raise (AttributeError "Plugin has not been configured.")
  | Some config =>
      match config !! name self with
      | Some v => ret v
      | None =>
          match inst_run_id plugin with
          | Some run_id => get_default self run_id None
          | None => raise (AttributeError "object has no attribute 'run_id'")
          end
      end
  end.

Definition Config_get (self : Option) (obj : instance) : M W pyval :=
  fetch self obj.

Definition Config_set {S : Type} (self : Option) (obj : instance)
    (value : pyval) : M S unit :=
  raise (AttributeError
           (name self +:+ " is a plugin configuration and cannot be set directly.")).

(** ** Registration: [takes_config] and [Config.__set_name__] *)

(** Option objects are shared and mutated ([taken_by], [name]), so they
    live in a store and are passed by reference ([oref]). *)

(** An argument of [takes_config]. *)
Inductive arg : Type :=
| ArgOption (r : oref)
| ArgOther (v : pyval).

(** A [registry] is a [dict] (or [immutabledict]) from option names to
    option objects, in insertion order. *)

Fixpoint dict_get {V} (d : list (string * V)) (k : string) : option V :=
  match d with
  | [] => None
  | (k', v) :: rest => if String.eqb k' k then Some v else dict_get rest k
  end.

Definition dict_contains {V} (d : list (string * V)) (k : string) : bool :=
  match dict_get d k with Some _ => true | None => false end.

(** [d[k] = v]: a key that is present keeps its place. *)
Fixpoint dict_set {V} (d : list (string * V)) (k : string) (v : V)
    : list (string * V) :=
  match d with
  | [] => [(k, v)]
  | (k', v') :: rest =>
      if String.eqb k' k then (k', v) :: rest
      else (k', v') :: dict_set rest k v
  end.

(** [{**d, **e}] *)
Definition dict_merge {V} (d e : list (string * V)) : list (string * V) :=
  fold_left (fun acc kv => dict_set acc kv.1 kv.2) e d.

Definition dict_values {V} (d : list (string * V)) : list V := map snd d.

(** What a name in a class namespace can be bound to here. *)
Inductive attrval : Type :=
| ARegistry (reg : registry)
| AOption (r : oref).

(** A plugin class: its [__name__], its own namespace, and the attributes
    that lookup finds in its bases. *)
Record klass : Type := mkKlass {
  cls_name : string;
  cls_own : gmap string attrval;
  cls_bases : gmap string attrval
}.

Definition class_lookup (c : klass) (a : string) : option attrval :=
  match cls_own c !! a with
  | Some v => Some v
  | None => cls_bases c !! a
  end.

Definition class_setattr (c : klass) (a : string) (v : attrval) : klass :=
  {| cls_name := cls_name c; cls_own := <[a := v]> (cls_own c);
     cls_bases := cls_bases c |}.

(** [class name(parent): pass] *)
Definition subclass (parent : klass) (name0 : string) : klass :=
  {| cls_name := name0; cls_own := ∅;
     cls_bases := cls_own parent ∪ cls_bases parent |}.

Record reg_state : Type := mkRegState {
  objects : gmap oref Option;
  plugin_class : klass
}.

Definition with_taken_by (o : Option) (p : string) : Option :=
  {| name := name o; type := type o; default := default o;
     default_by_run := default_by_run o; default_factory := default_factory o;
     track := track o; help := help o; child_option := child_option o;
     parent_option_name := parent_option_name o;
     taken_by := Some p; is_Config := is_Config o |}.

Definition with_name (o : Option) (n : string) : Option :=
  {| name := n; type := type o; default := default o;
     default_by_run := default_by_run o; default_factory := default_factory o;
     track := track o; help := help o; child_option := child_option o;
     parent_option_name := parent_option_name o;
     taken_by := taken_by o; is_Config := is_Config o |}.

Definition deref (r : oref) : M reg_state Option :=
  fun s => match objects s !! r with
           | Some o => (Ok o, s)
           | None => (Raise (SystemError "no object at this reference"), s)
           end.

Definition update_object (r : oref) (f : Option -> Option) : M reg_state unit :=
  fun s => (Ok tt, {| objects := alter f r (objects s);
                      plugin_class := plugin_class s |}).

Definition the_class : M reg_state klass :=
  fun s => (Ok (plugin_class s), s).

Definition setattr_class (a : string) (v : attrval) : M reg_state unit :=
  fun s => (Ok tt, {| objects := objects s;
                      plugin_class := class_setattr (plugin_class s) a v |}).

(** [hasattr(cls, "takes_config") and len(cls.takes_config)]: the registry
    when both hold, [None] otherwise.  Reading a class attribute that is a
    [Config] runs its [__get__] on no instance, which raises the
    [AttributeError] that makes [hasattr] false; a plain [Option] there has
    no [len]. *)
Definition nonempty_takes_config : M reg_state (option registry) :=
  (let* c := the_class in
   match class_lookup c "takes_config" with
   | None => ret None
   | Some (ARegistry reg) =>
       if (List.length reg =? 0)%nat then ret None else ret (Some reg)
   | Some (AOption r) =>
       let* o := deref r in
       if is_Config o then ret None
       else raise (TypeError "object of type 'Option' has no len()")
   end)%py.

(** [for opt in options: ...]; [result] is the dict being filled and the
    loop returns it with the reference the variable [opt] ends up bound to
    ([opt0] if the loop body never ran). *)
Fixpoint declare_options (options : list arg) (result : registry)
    (opt0 : option oref) : M reg_state (registry * option oref) :=
  match options with
  | [] => ret (result, opt0)
  | ArgOther _ :: _ =>
      raise (RuntimeError "Specify config options by Option objects")
  | ArgOption r :: rest =>
      (let* _ := deref r in
       let* c := the_class in
       update_object r (fun o => with_taken_by o (cls_name c)) ;;
       let* o := deref r in
       declare_options rest (dict_set result (name o) r) (Some r))%py
  end.

(** [for opt in result.values(): if opt.name in cls.takes_config: raise]. *)
Fixpoint check_collisions (values : list oref) (old : registry)
    (opt0 : option oref) : M reg_state (option oref) :=
  match values with
  | [] => ret opt0
  | r :: rest =>
      (let* o := deref r in
       if dict_contains old (name o)
       then raise (RuntimeError
                     ("Attempt to specify option " +:+ name o +:+ " twice"))
       else check_collisions rest old (Some r))%py
  end.

(** The function [wrapped] that [takes_config( *options )] returns, applied
    to the class in the state; it returns that same class. *)
Definition wrapped (options : list arg) : M reg_state klass :=
  (let* declared := declare_options options [] None in
   let result := declared.1 in
   let opt := declared.2 in
   let* old := nonempty_takes_config in
   let* opt :=
     match old with
     | Some old =>
         let* opt := check_collisions (dict_values result) old opt in
         setattr_class "takes_config" (ARegistry (dict_merge old result)) ;;
         ret opt
     | None =>
         setattr_class "takes_config" (ARegistry result) ;;
         ret opt
     end in
   match opt with
   | None =>
       raise (UnboundLocalError
         "cannot access local variable 'opt' where it is not associated with a value")
   | Some r =>
       let* o := deref r in
       (if is_Config o then setattr_class (name o) (AOption r) else ret tt) ;;
       the_class
   end)%py.

Definition takes_config (options : list arg) : M reg_state klass :=
  wrapped options.

(** [Config.__set_name__(self, owner, name)], the owner being the class in
    the state. *)
Definition Config_set_name (self : oref) (name0 : string) : M reg_state unit :=
  (let* _ := deref self in
   update_object self (fun o => with_name o name0) ;;
   let* owner := the_class in
   update_object self (fun o => with_taken_by o (cls_name owner)) ;;
   let new_takes_config := [(name0, self)] in
   let* old := nonempty_takes_config in
   match old with
   | Some old =>
       if dict_contains old name0
       then raise (RuntimeError
                     ("Attempt to specify option " +:+ name0 +:+ " twice"))
       else setattr_class "takes_config"
              (ARegistry (dict_merge old new_takes_config))
   | None => setattr_class "takes_config" (ARegistry new_takes_config)
   end)%py.

End Config.

(** ** config.py: [combine_configs] *)

(** Configuration mappings are [dict] objects; the function copies one,
    updates the copy in place and may hand back one of its arguments, so
    they live in a store in which a new object takes the next free place. *)
Abbreviation loc := nat (only parsing).
Abbreviation dict_store := (list (gmap string pyval)) (only parsing).

Definition dict_new (d : gmap string pyval) : M dict_store loc :=
  fun h => (Ok (List.length h), (h ++ [d])%list).

Definition dict_read (l : loc) : M dict_store (gmap string pyval) :=
  fun h => match h !! l with
           | Some d => (Ok d, h)
           | None => (Raise (SystemError "no object at this reference"), h)
           end.

(** [l.copy()] *)
Definition dict_copy (l : loc) : M dict_store loc :=
  (let* d := dict_read l in dict_new d)%py.

(** [c.update(other)]: every key of [other] is assigned in [c]. *)
Definition dict_update (c other : loc) : M dict_store unit :=
  (let* o := dict_read other in
   let* d := dict_read c in
   fun h => (Ok tt, <[c := o ∪ d]> h))%py.

(** The branch [mode == "update"]. *)
Definition combine_update (old_config new_config : loc) : M dict_store loc :=
  (let* c := dict_copy old_config in
   dict_update c new_config ;;
   ret c)%py.

(** In the branch [mode == "setdefault"] the function calls itself with the
    two mappings exchanged and the mode ["update"]; that call takes the
    update branch, which is written out here. *)
Definition combine_configs (old_config : loc) (new_config : option loc)
    (mode : string) : M dict_store loc :=
  (let* new_config :=
     match new_config with
     | None => dict_new ∅
     | Some l => ret l
     end in
   if String.eqb mode "update" then combine_update old_config new_config
   else if String.eqb mode "setdefault" then combine_update new_config old_config
   else if String.eqb mode "replace" then ret new_config
   else raise (RuntimeError
                 "Expected update, setdefault or replace as config setting mode"))%py.

(** ** testutils.py: [sorted_bounds] *)

(** The order of Python on 2-tuples of ints. *)
Definition pair_le (a b : Z * Z) : Prop :=
  a.1 < b.1 \/ (a.1 = b.1 /\ a.2 <= b.2).

#[global] Instance pair_le_dec : RelDecision pair_le.
Proof. intros a b. unfold pair_le. apply _. Defined.

(** [sorted] on a list of ints and on a list of 2-tuples.  Both orders are
    total and antisymmetric, so the result does not depend on the sorting
    algorithm. *)
Definition sorted_ints (l : list Z) : list Z := merge_sort Z.le l.
Definition sorted_pairs (l : list (Z * Z)) : list (Z * Z) := merge_sort pair_le l.

(** [itertools.accumulate]: running sums. *)
Fixpoint accumulate_from (total : Z) (l : list Z) : list Z :=
  match l with
  | [] => []
  | x :: rest => (total + x) :: accumulate_from (total + x) rest
  end.

Definition accumulate (l : list Z) : list Z :=
  match l with
  | [] => []
  | x :: rest => x :: accumulate_from x rest
  end.

(** [[tuple(q) for q in iterutils.chunked(l, size=2)]] on a list of even
    length (the filter before it lets no other through; on an odd length
    [chunked] would end with a 1-tuple). *)
Fixpoint chunked2 (l : list Z) : list (Z * Z) :=
  match l with
  | a :: b :: rest => (a, b) :: chunked2 rest
  | _ => []
  end.

Section Testutils.

(** [list(set(x))]: the elements of [x] without repetition, in the order in
    which the interpreter iterates over the set. *)
Context (list_of_set : list (Z * Z) -> list (Z * Z)).

(** The chain of [map]s and [filter]s that [sorted_bounds] puts on the
    drawn list: [Some] sample, or [None] when a filter rejects the draw.
    The draw is a list of at most 20 integers between 0 and [max_value]
    ([max_value / max_len] when [disjoint] is set); nothing below depends
    on these bounds, so they are not parameters here. *)
Definition sorted_bounds (disjoint remove_duplicates : bool)
    (drawn : list Z) : option (list (Z * Z)) :=
  let s := if disjoint then accumulate drawn else drawn in
  if negb (Nat.even (List.length s)) then None else
  let x := chunked2 (sorted_ints s) in
  if negb (forallb (fun a => negb (a.1 =? a.2)) x) then None else
  if remove_duplicates && negb (bool_decide (x = list_of_set x)) then None else
  Some (sorted_pairs x).

End Testutils.

(** ** testutils.py: [bounds_to_intervals] and [bounds_to_records] *)

(** Modelled from the spec: the layouts [strax.interval_dtype],
    [strax.hit_dtype] and [strax.record_dtype(n)] belong to the processing
    core.  A row is modelled by the fields that the code of this file
    writes, each holding an integer ([data] holding [n] of them); the widths
    of the fields in memory are not modelled. *)
Record interval : Type := mkInterval {
  i_time : Z;
  i_length : Z;
  i_dt : Z
}.

Record record : Type := mkRecord {
  r_time : Z;
  r_length : Z;
  r_dt : Z;
  r_channel : Z;
  r_data : list Z
}.

(** Modelled from the spec: [strax.endtime], the exclusive end of a row. *)
Definition endtime (x : interval) : Z := i_time x + i_length x * i_dt x.

Definition bounds_to_intervals (bs : list (Z * Z)) : list interval :=
  let time := map (fun x => x.1) bs in
  let length := map (fun x => x.2 - x.1) bs in
  map (fun tl => {| i_time := tl.1; i_length := tl.2; i_dt := 1 |})
      (zip time length).

(** What [bounds_to_records] can end with other than an array. *)
Inductive np_failure : Type :=
| AssertionError
| NegativeDimension.   (* the error of a data field of negative size *)

(** Where a slice bound [i] falls in an array of [n] elements: a negative
    bound counts from the end, and both ends are clipped. *)
Definition slice_bound (n i : Z) : Z :=
  if i <? 0 then Z.max (i + n) 0 else Z.min i n.

(** [data[start:stop] = v] *)
Definition set_slice (data : list Z) (start stop v : Z) : list Z :=
  let n := Z.of_nat (List.length data) in
  imap (fun i x => if (slice_bound n start <=? Z.of_nat i)
                      && (Z.of_nat i <? slice_bound n stop)
                   then v else x) data.

(** [data.sum()] *)
Definition data_sum (data : list Z) : Z := fold_right Z.add 0 data.

(** [np.zeros(n)] for the data field of one record. *)
Definition zeros (n : Z) : list Z := replicate (Z.to_nat n) 0.

(** [max([a for b in bs for a in b])] on a list that is not empty. *)
Definition max_endpoint (bs : list (Z * Z)) : Z :=
  match concat (map (fun b => [b.1; b.2]) bs) with
  | [] => 0
  | a :: rest => fold_left Z.max rest a
  end.

Definition n_samples_of (bs : list (Z * Z)) : Z :=
  match bs with
  | [] => 0
  | _ => let n_samples := max_endpoint bs in
         if negb (n_samples mod 2 =? 0) then n_samples + 1 else n_samples
  end.

(** One turn of the loop of the default mode, on the zero record at place
    [i]; the [assert] on the sum of the data ends the function when it
    fails. *)
Definition fill_record (n_samples : Z) (single_channel : bool) (i : nat)
    (b : Z * Z) : np_failure + record :=
  let '(l, r) := b in
  let length := r - l in
  let pad := (n_samples - (r - l)) / 2 in
  let data := set_slice (zeros n_samples) pad (pad + length) 1 in
  if negb (data_sum data =? length) then inl AssertionError
  else inr {| r_time := l; r_length := pad + length; r_dt := 0;
              r_channel := if single_channel then 0 else Z.of_nat i;
              r_data := data |}.

(** The loop, from place [i] on. *)
Fixpoint fill_records (n_samples : Z) (single_channel : bool) (i : nat)
    (bs : list (Z * Z)) : np_failure + list record :=
  match bs with
  | [] => inr []
  | b :: rest =>
      match fill_record n_samples single_channel i b with
      | inl e => inl e
      | inr rec =>
          match fill_records n_samples single_channel (S i) rest with
          | inl e => inl e
          | inr recs => inr (rec :: recs)
          end
      end
  end.

(** [recs['dt'] = 1] *)
Definition set_dt (recs : list record) : list record :=
  map (fun x => {| r_time := r_time x; r_length := r_length x; r_dt := 1;
                   r_channel := r_channel x; r_data := r_data x |}) recs.

Definition bounds_to_records (bs : list (Z * Z)) (single single_channel : bool)
    : np_failure + list record :=
  let n_samples := n_samples_of bs in
  if n_samples <? 0 then inl NegativeDimension else
  if negb single then
    match fill_records n_samples single_channel 0 bs with
    | inl e => inl e
    | inr recs =>
        if negb single_channel
           && negb (List.length (remove_dups (map r_channel recs))
                    =? List.length bs)%nat
        then inl AssertionError
        else inr (set_dt recs)
    end
  else
    let data := fold_left (fun d b => set_slice d b.1 b.2 1) bs
                  (zeros n_samples) in
    inr (set_dt [{| r_time := 0; r_length := n_samples; r_dt := 0;
                    r_channel := 0; r_data := data |}]).

(** ** Concrete objects, used to run the definitions above *)

Module Examples.

(** A factory that counts its calls: the state is the number of calls so
    far, which is also what it returns. *)
Definition counter : M nat pyval :=
  fun calls => (Ok (VInt (Z.of_nat calls)), S calls).

(** A stand-in for the hash of the processing core. *)
Definition table_hash (table : list (Z * pyval)) : string :=
  str_of_int (Z.of_nat (List.length table)).

(** [Option(name)], [Option(name, default=v)], ... as [__init__] leaves
    them, and after a plugin has taken them. *)
Definition bare (n : string) : Option (W := nat) :=
  mkOption n OMITTED OMITTED OMITTED OMITTED true "" false None None false.

Definition with_default (n : string) (v : pyval) : Option (W := nat) :=
  mkOption n OMITTED (Given v) OMITTED OMITTED true "" false None None false.

Definition with_factory (n : string) (f : M nat pyval) : Option (W := nat) :=
  mkOption n OMITTED OMITTED OMITTED (Given f) true "" false None None false.

Definition with_table (n : string) (t : list (Z * pyval)) : Option (W := nat) :=
  mkOption n OMITTED OMITTED (Given (PerRunTable t)) OMITTED true "" false
           None None false.

Definition typed (n : string) (ty : classinfo) : Option (W := nat) :=
  mkOption n (Given ty) OMITTED OMITTED OMITTED true "" false None None false.

(** [Config(name=n)] *)
Definition bare_Config (n : string) : Option (W := nat) :=
  mkOption n OMITTED OMITTED OMITTED OMITTED true "" false None None true.

Definition abc_table : list (Z * pyval) :=
  [(0, VStr "a"); (5, VStr "b"); (10, VStr "c")].

Definition x_table : list (Z * pyval) := [(5, VStr "x")].

(** A store with four option objects: [Option("a")], [Config(name="b")],
    [Option("a", default=2)] and [Option("z")]. *)
Definition store : gmap oref (Option (W := nat)) :=
  {[ 0%nat := bare "a"; 1%nat := bare_Config "b";
     2%nat := with_default "a" (VInt 2); 3%nat := bare "z" ]}.

(** A class without a registry; a class that has taken the option [z];
    and a class derived from it. *)
Definition Plugin : klass := mkKlass "Plugin" ∅ ∅.

Definition Parent : klass :=
  mkKlass "Parent" {[ "takes_config" := ARegistry [("z", 3%nat)] ]} ∅.

Definition Child : klass := subclass Parent "Child".


Definition mixed_table : list (Z * pyval) :=
  [(5, VStr "b"); (0, VStr "a"); (10, VStr "c")].

End Examples.

(** ** Vocabulary of the statements *)

(** The mapping of run defaults does not decide: there is none, or the
    option's name is not in it. *)
Definition not_in_run_defaults {W} (self : Option (W := W))
    (run_defaults : option (gmap string pyval)) : Prop :=
  forall d, run_defaults = Some d -> d !! name self = None.

(** *** Texts that write a number *)

(** The characters that may stand around a number: tab, line feed,
    vertical tab, form feed, carriage return, space, next line and no-break
    space. *)
Definition whitespace (c : ascii) : Prop :=
  c ∈ map ascii_of_nat [9; 10; 11; 12; 13; 32; 133; 160]%nat.

(** The character of a decimal digit, and the text of a list of digits. *)
Definition digit_char (d : Z) : ascii := ascii_of_nat (48 + Z.to_nat d).

Definition digits_text (ds : list Z) : string :=
  string_of_list_ascii (map digit_char ds).

(** Decimal digits that the interpreter turns into an int: at least one,
    and no more than its limit. *)
Definition decimal_digits (ds : list Z) : Prop :=
  ds <> [] /\ Forall (fun d => 0 <= d <= 9) ds /\
  Z.of_nat (List.length ds) <= int_max_str_digits.

(** The text [t] writes the number [n]: whitespace, an optional sign,
    decimal digits (leading zeros allowed), whitespace. *)
Definition spells (t : string) (n : Z) : Prop :=
  exists (ws1 ws2 : list ascii) (negative : bool) (sign : string)
         (ds : list Z),
    Forall whitespace ws1 /\ Forall whitespace ws2 /\ decimal_digits ds /\
    (negative, sign) ∈ [(false, ""); (false, "+"); (true, "-")] /\
    t = string_of_list_ascii ws1 +:+ sign +:+ digits_text ds
        +:+ string_of_list_ascii ws2 /\
    n = if negative then - digits_value ds else digits_value ds.

(** [underscored t s]: the text [s] is the text [t], which has no
    underscore, with underscores put in anywhere. *)
Inductive underscored : string -> string -> Prop :=
| underscored_end : underscored "" ""
| underscored_keep (c : ascii) (t s : string) :
    c <> "_"%char -> underscored t s -> underscored (String c t) (String c s)
| underscored_skip (t s : string) :
    underscored t s -> underscored t (String "_" s).

(** The run [n] that an ordinary run id denotes: the int itself, [0] for
    [None], and for a text that does not begin with an underscore the
    number that it writes, underscores apart. *)
Definition denotes_run (run_id : run_id_t) (n : Z) : Prop :=
  run_id = RunInt n \/
  (run_id = RunNone /\ n = 0) \/
  (exists s t, run_id = RunStr s /\ (forall rest, s <> String "_" rest) /\
               underscored t s /\ spells t n).

(** The text of the error for a run below every first run id of a table. *)
Definition too_small_text (n : Z) : string :=
  "Run id " +:+ str_of_int n +:+ " is smaller than the lowest run id "
  +:+ "{start_run} for which the default of the option {self.name} is known.".


(** *** Declared types *)

(** Only classes, and tuples of them at any depth. *)
Fixpoint classes_only (ci : classinfo) : Prop :=
  match ci with
  | OneClass _ => True
  | ClassTuple cs =>
      (fix all (cs : list classinfo) : Prop :=
         match cs with
         | [] => True
         | item :: rest => classes_only item /\ all rest
         end) cs
  | NotAClass _ => False
  end.

(** The declared type of an option can be used in [isinstance]. *)
Definition usable_type {W} (self : Option (W := W)) : Prop :=
  match type self with
  | OMITTED => True
  | Given ty => classes_only ty
  end.


(** The name of the class of an option object. *)
Definition class_name_of {W} (self : Option (W := W)) : string :=
  if is_Config self then "Config" else "Option".

(** A per-run table in ascending order of its first run ids. *)
Definition ascending (table : list (Z * pyval)) : Prop :=
  Sorted Z.le (table.*1).

(** The last pair of the table whose first run id is at most [n]. *)
Definition last_at_or_below (n : Z) (table : list (Z * pyval))
    : option (Z * pyval) :=
  last (filter (fun p => p.1 <= n) table).

(** Two or more of the three defaults are supplied. *)
Definition several_defaults {A B C} (d : field A) (f : field B) (r : field C)
    : Prop :=
  (is_not_OMITTED d = true /\ is_not_OMITTED f = true) \/
  (is_not_OMITTED d = true /\ is_not_OMITTED r = true) \/
  (is_not_OMITTED f = true /\ is_not_OMITTED r = true).

(** The child flag is set without a parent name that counts as true, or
    such a parent name is given without the child flag. *)
Definition unpaired (child : bool) (parent : option string) : Prop :=
  (child = true /\ truthy parent = false) \/
  (child = false /\ truthy parent = true).

(** The errors of declaring options wrongly. *)
Definition authoring_error (e : exn) : Prop :=
  match e with
  | ValueError _ | RuntimeError _ => True
  | _ => False
  end.

(** Two half-open ranges [[left, right)] have a point in common. *)
Definition overlap (a b : Z * Z) : Prop := a.1 < b.2 /\ b.1 < a.2.

(** The range [a] ends where [b] begins, or earlier. *)
Definition before (a b : Z * Z) : Prop := a.2 <= b.1.

(** *** Registration *)

(** The name of the option object at a reference. *)
Definition name_at {W} (objs : gmap oref (Option (W := W))) (r : oref)
    : option string :=
  name <$> objs !! r.

(** Every reference denotes an option object. *)
Definition allocated {W} (objs : gmap oref (Option (W := W)))
    (refs : list oref) : Prop :=
  Forall (fun r => is_Some (objs !! r)) refs.

(** The names that a call declares. *)
Definition declared_names {W} (objs : gmap oref (Option (W := W)))
    (refs : list oref) : list string :=
  omap (name_at objs) refs.

(** The dict of the newly declared options: each name bound to the last
    option declared under it, the names in the order of first use. *)
Definition declare_into (names : oref -> option string) (refs : list oref)
    (result : registry) : registry :=
  fold_left (fun acc r => match names r with
                          | Some n => dict_set acc n r
                          | None => acc
                          end) refs result.

Definition declared {W} (objs : gmap oref (Option (W := W)))
    (refs : list oref) : registry :=
  declare_into (name_at objs) refs [].

(** The store once the options at [refs] carry the plugin name [p]. *)
Definition stamped {W} (p : string) (objs : gmap oref (Option (W := W)))
    (refs : list oref) : gmap oref (Option (W := W)) :=
  fold_left (fun h r => alter (fun o => with_taken_by o p) r h) refs objs.

(** The class carries a registry with at least one option, its own or one
    found in a base. *)
Definition carries_registry (c : klass) (old : registry) : Prop :=
  class_lookup c "takes_config" = Some (ARegistry old) /\ old <> [].

(** The class carries no registry, or an empty one. *)
Definition carries_no_registry (c : klass) : Prop :=
  class_lookup c "takes_config" = None \/
  class_lookup c "takes_config" = Some (ARegistry []).

(** The class once the option at [opt] has been looked at by the last
    statement of [wrapped]: a [Config] is bound under its name. *)
Definition install {W} (objs : gmap oref (Option (W := W))) (opt : oref)
    (c : klass) : klass :=
  match objs !! opt with
  | Some o => if is_Config o then class_setattr c (name o) (AOption opt) else c
  | None => c
  end.

(** The record that one turn of the loop of [bounds_to_records] leaves at
    place [i] when its assertion holds. *)
Definition filled (n : Z) (single_channel : bool) (i : nat) (b : Z * Z)
    : record :=
  let pad := (n - (b.2 - b.1)) / 2 in
  {| r_time := b.1; r_length := pad + (b.2 - b.1); r_dt := 0;
     r_channel := if single_channel then 0 else Z.of_nat i;
     r_data := set_slice (zeros n) pad (pad + (b.2 - b.1)) 1 |}.

(** The pairs of a table up to the first one above the run id [n]. *)
Fixpoint prefix_at_or_below (n : Z) (table : list (Z * pyval))
    : list (Z * pyval) :=
  match table with
  | [] => []
  | p :: rest => if p.1 <=? n then p :: prefix_at_or_below n rest else []
  end.

(** Every name of the registry is bound once, to an option object that
    carries this name. *)
Definition names_agree {W} (objs : gmap oref (Option (W := W)))
    (reg : registry) : Prop :=
  NoDup reg.*1 /\ forall k r, (k, r) ∈ reg -> name_at objs r = Some k.

(** A piece of registration code that leaves every option object as it
    is, whatever its outcome. *)
Definition keeps_objects {W A} (m : M (reg_state (W := W)) A) : Prop :=
  forall s out s', m s = (out, s') -> objects s' = objects s.

(** * Properties *)

(** ** Texts and numbers *)

Section Texts.

Lemma append_String (c : ascii) (a x : string) :
  String c a +:+ x = String c (a +:+ x).
Proof. reflexivity. Qed.

Lemma append_empty (x : string) : "" +:+ x = x.
Proof. reflexivity. Qed.

Lemma whitespace_facts (c : ascii) :
  whitespace c -> is_space c = true /\ digit_of c = None.
Proof.
  unfold whitespace. cbn [map]. intros H.
  repeat (apply elem_of_cons in H as [->|H]; [by vm_compute|]).
  by apply elem_of_nil in H.
Qed.

Lemma digit_char_facts (d : Z) :
  0 <= d <= 9 ->
  digit_of (digit_char d) = Some d /\ is_space (digit_char d) = false /\
  strip_sign (String (digit_char d) "") = (false, String (digit_char d) "") /\
  digit_char d <> "_"%char.
Proof.
  intros Hd.
  assert (H : d = 0 \/ d = 1 \/ d = 2 \/ d = 3 \/ d = 4 \/ d = 5 \/ d = 6 \/
              d = 7 \/ d = 8 \/ d = 9) by lia.
  repeat (destruct H as [->|H]; [by vm_compute|]). subst d. by vm_compute.
Qed.

Lemma lstrip_whitespace (ws : list ascii) (x : string) :
  Forall whitespace ws -> lstrip (string_of_list_ascii ws +:+ x) = lstrip x.
Proof.
  induction 1 as [|c ws Hc _ IH]; [reflexivity|].
  cbn [string_of_list_ascii]. rewrite append_String. cbn [lstrip].
  by rewrite (proj1 (whitespace_facts c Hc)).
Qed.

Lemma lstrip_only_whitespace (ws : list ascii) :
  Forall whitespace ws -> lstrip (string_of_list_ascii ws) = "".
Proof.
  induction 1 as [|c ws Hc _ IH]; [reflexivity|].
  cbn [string_of_list_ascii lstrip].
  by rewrite (proj1 (whitespace_facts c Hc)).
Qed.

Lemma span_digits_whitespace (ws : list ascii) :
  Forall whitespace ws ->
  span_digits (string_of_list_ascii ws) = ([], string_of_list_ascii ws).
Proof.
  intros [|c ws' Hc _]; [reflexivity|].
  cbn [string_of_list_ascii span_digits].
  by rewrite (proj2 (whitespace_facts c Hc)).
Qed.

Lemma span_digits_text (ds : list Z) (rest : string) :
  Forall (fun d => 0 <= d <= 9) ds ->
  span_digits rest = ([], rest) ->
  span_digits (digits_text ds +:+ rest) = (ds, rest).
Proof.
  intros Hds Hrest. induction Hds as [|d ds Hd _ IH]; [exact Hrest|].
  unfold digits_text in *.
  cbn [map string_of_list_ascii]. rewrite append_String. cbn [span_digits].
  rewrite (proj1 (digit_char_facts d Hd)), IH. reflexivity.
Qed.

Lemma strip_sign_digit (d : Z) (x : string) :
  0 <= d <= 9 ->
  strip_sign (String (digit_char d) x) = (false, String (digit_char d) x).
Proof.
  intros Hd. destruct (digit_char_facts d Hd) as (_ & _ & Hs & _).
  unfold strip_sign in *.
  destruct (Ascii.eqb (digit_char d) "-"); [discriminate|].
  destruct (Ascii.eqb (digit_char d) "+"); [discriminate|]. reflexivity.
Qed.

(** What [int] makes of a text that writes a number. *)
Lemma py_int_spells (t : string) (n : Z) : spells t n -> py_int t = Ok n.
Proof.
  intros (ws1 & ws2 & negative & sign & ds & H1 & H2 & (Hne & Hds & Hlen)
          & Hsign & -> & ->).
  destruct ds as [|d ds]; [done|].
  apply Forall_cons in Hds as Hds'. destruct Hds' as [Hd _].
  assert (Hspan : span_digits (digits_text (d :: ds)
                               +:+ string_of_list_ascii ws2)
                  = (d :: ds, string_of_list_ascii ws2)).
  { apply span_digits_text; [exact Hds|]. by apply span_digits_whitespace. }
  assert (Hfirst : forall x,
            lstrip (digits_text (d :: ds) +:+ x) = digits_text (d :: ds) +:+ x).
  { intros x. unfold digits_text.
    cbn [map string_of_list_ascii]. rewrite append_String. cbn [lstrip].
    destruct (digit_char_facts d Hd) as (_ & -> & _). reflexivity. }
  assert (Hstripped :
            strip_sign (lstrip (string_of_list_ascii ws1 +:+ sign
                                +:+ digits_text (d :: ds)
                                +:+ string_of_list_ascii ws2))
            = (negative, digits_text (d :: ds) +:+ string_of_list_ascii ws2)).
  { rewrite lstrip_whitespace by assumption.
    apply elem_of_cons in Hsign as [[= -> ->]|Hsign];
      [|apply elem_of_cons in Hsign as [[= -> ->]|Hsign];
        [|apply list_elem_of_singleton in Hsign as [= -> ->]]].
    - rewrite append_empty, Hfirst. unfold digits_text.
      cbn [map string_of_list_ascii]. rewrite append_String.
      by apply strip_sign_digit.
    - reflexivity.
    - reflexivity. }
  unfold py_int. rewrite Hstripped. cbn [fst snd]. rewrite Hspan.
  cbn [fst snd].
  destruct (Z.ltb_spec int_max_str_digits (Z.of_nat (List.length (d :: ds))));
    [lia|].
  by rewrite lstrip_only_whitespace.
Qed.


Lemma underscored_remove (t s : string) :
  underscored t s -> remove_underscores s = t.
Proof.
  induction 1 as [|c t s Hc _ IH|t s _ IH]; cbn [remove_underscores].
  - reflexivity.
  - apply Ascii.eqb_neq in Hc. by rewrite Hc, IH.
  - exact IH.
Qed.

Lemma no_leading_underscore (s : string) :
  (forall rest, s <> String "_" rest) -> startswith_underscore s = false.
Proof.
  intros H. destruct s as [|c rest]; [reflexivity|]. cbn.
  destruct (Ascii.eqb_spec c "_"); [subst; by destruct (H rest)|reflexivity].
Qed.

End Texts.

(** ** [Option.get_default] *)

Section GetDefault.

Context {W : Type} (deterministic_hash : list (Z * pyval) -> string).


Implicit Types (self : Option (W := W)) (w : W).


Lemma not_in_run_defaults_bind self run_defaults :
  not_in_run_defaults self run_defaults ->
  run_defaults ≫= (fun d => d !! name self) = None.
Proof.
  intros H. destruct run_defaults as [d|]; simpl; [apply H|]; reflexivity.
Qed.



Lemma get_default_by_run self run_id run_defaults dbr w :
  not_in_run_defaults self run_defaults ->
  default self = OMITTED ->
  default_factory self = OMITTED ->
  default_by_run self = Given dbr ->
  get_default deterministic_hash self run_id run_defaults w = (legacy_per_run deterministic_hash dbr run_id, w).
Proof.
  intros Hrd Hv Hf Hr. unfold get_default.
  rewrite (not_in_run_defaults_bind _ _ Hrd), Hv, Hf, Hr. reflexivity.
Qed.

Lemma get_default_missing self run_id run_defaults w :
  not_in_run_defaults self run_defaults ->
  default self = OMITTED ->
  default_factory self = OMITTED ->
  default_by_run self = OMITTED ->
  get_default deterministic_hash self run_id run_defaults w = (missing_option self, w).
Proof.
  intros Hrd Hv Hf Hr. unfold get_default.
  rewrite (not_in_run_defaults_bind _ _ Hrd), Hv, Hf, Hr. reflexivity.
Qed.

(** An option that no registration step has stamped has no [taken_by]:
    the message of the last case cannot be built. *)
Lemma get_default_never_taken self run_id run_defaults w :
  not_in_run_defaults self run_defaults ->
  default self = OMITTED ->
  default_factory self = OMITTED ->
  default_by_run self = OMITTED ->
  taken_by self = None ->
  exists msg,
    get_default deterministic_hash self run_id run_defaults w
    = (Raise (AttributeError msg), w).
Proof.
  intros Hrd Hv Hf Hr Hp. rewrite get_default_missing by assumption.
  unfold missing_option. rewrite Hp. by eexists.
Qed.


Lemma classify_run_denotes run_id n :
  denotes_run run_id n -> classify_run run_id = Ok (Ordinary n).
Proof.
  intros [-> | [[-> ->] | (s & t & -> & Hs & Hu & Hn)]]; try reflexivity.
  unfold classify_run.
  by rewrite (no_leading_underscore _ Hs), (underscored_remove _ _ Hu),
    (py_int_spells _ _ Hn).
Qed.

(** The [raise] for a run below the table: a [ValueError] in any case, with
    the text about the run id unless the run id is too long to be shown. *)
Lemma too_small_raises (n : Z) :
  exists msg,
    match too_small_message n with
    | Ok msg => Raise (ValueError msg)
    | Raise e => Raise e
    end = Raise (A := pyval) (ValueError msg) /\
    (Z.abs n < str_digits_bound -> msg = too_small_text n).
Proof.
  unfold too_small_message, py_str_int.
  destruct (Z.leb_spec str_digits_bound (Z.abs n)).
  - eexists. split; [reflexivity|]. lia.
  - eexists. split; [reflexivity|]. intros _. reflexivity.
Qed.

Lemma classify_run_super s :
  startswith_underscore s = true -> classify_run (RunStr s) = Ok SuperRun.
Proof. intros Hs. unfold classify_run. rewrite Hs. reflexivity. Qed.

Lemma filter_all_above (n : Z) (table : list (Z * pyval)) :
  Forall (fun p => n < p.1) table ->
  filter (fun p => p.1 <= n) table = [].
Proof.
  induction 1 as [|p l Hp _ IH]; [reflexivity|].
  rewrite filter_cons_False by lia. exact IH.
Qed.

(** On an ascending table the loop ends on the value of the last pair at
    or below the run id, and keeps what it started with if there is none. *)
Lemma scan_table_last table n acc :
  ascending table ->
  scan_table table n acc =
    match last_at_or_below n table with
    | Some p => Given p.2
    | None => acc
    end.
Proof.
  unfold ascending, last_at_or_below. intros Hs.
  apply Sorted_StronglySorted in Hs; [|apply _].
  revert acc. induction table as [|[start value] rest IH]; intros acc.
  { reflexivity. }
  simpl in Hs. apply StronglySorted_inv in Hs as [Hrest Hall].
  simpl. destruct (Z.gtb_spec start n) as [Hgt|Hle].
  - rewrite filter_all_above; [reflexivity|].
    constructor; [simpl; lia|].
    rewrite Forall_fmap in Hall.
    eapply Forall_impl; [exact Hall|]. simpl. intros p Hp. lia.
  - rewrite filter_cons_True by (simpl; lia).
    rewrite IH by assumption. rewrite last_cons.
    destruct (last (filter (fun p => p.1 <= n) rest)); reflexivity.
Qed.

Lemma scan_table_all_above table n :
  Forall (fun p => n < p.1) table -> scan_table table n OMITTED = OMITTED.
Proof.
  intros H. destruct H as [|[start value] rest Hp _]; [reflexivity|].
  simpl in *. destruct (Z.gtb_spec start n); [reflexivity|lia].
Qed.

(** C2.  An option whose only default is a per-run table: on a text run id
    that begins with an underscore [get_default] returns the placeholder
    made of the hash of the table; on an ordinary run id (an int, [None],
    or a text that writes a number) and an ascending table it returns the
    value of the last pair whose first run id is at most the run id; when
    the run id is below every first run id it raises a [ValueError], whose
    text names the run id. *)
Theorem default_by_run_resolution self table run_defaults w :
  default self = OMITTED ->
  default_factory self = OMITTED ->
  default_by_run self = Given (PerRunTable table) ->
  not_in_run_defaults self run_defaults ->
  (forall rest,
     get_default deterministic_hash self (RunStr (String "_" rest))
       run_defaults w
     = (Ok (VStr ("<SUBRUN-DEPENDENT:" +:+ deterministic_hash table +:+ ">")),
        w)) /\
  (forall run_id n start value,
     denotes_run run_id n -> ascending table ->
     last_at_or_below n table = Some (start, value) ->
     get_default deterministic_hash self run_id run_defaults w = (Ok value, w)) /\
  (forall run_id n,
     denotes_run run_id n -> Forall (fun p => n < p.1) table ->
     exists msg,
       get_default deterministic_hash self run_id run_defaults w
       = (Raise (ValueError msg), w) /\
       (Z.abs n < str_digits_bound -> msg = too_small_text n)).
Proof.
  intros Hv Hf Hr Hrd. repeat split.
  - intros rest. rewrite (get_default_by_run _ _ _ _ _ Hrd Hv Hf Hr).
    reflexivity.
  - intros run_id n start value Hn Hasc Hlast.
    rewrite (get_default_by_run _ _ _ _ _ Hrd Hv Hf Hr).
    unfold legacy_per_run. rewrite (classify_run_denotes _ _ Hn).
    rewrite (scan_table_last _ _ _ Hasc), Hlast. reflexivity.
  - intros run_id n Hn Habove.
    rewrite (get_default_by_run _ _ _ _ _ Hrd Hv Hf Hr).
    unfold legacy_per_run. rewrite (classify_run_denotes _ _ Hn).
    rewrite (scan_table_all_above _ _ Habove).
    destruct (too_small_raises n) as (msg & -> & Hmsg). by exists msg.
Qed.

End GetDefault.

(** C1 as it was stated ends in [InvalidConfiguration] for every option.
    An option that has been constructed and taken by no plugin has no
    [taken_by], so the message cannot be built: [Option("x").get_default(0)]
    raises [AttributeError]. *)
Lemma get_default_unregistered_option :
  Option_init (W := nat) false "x" OMITTED OMITTED OMITTED OMITTED false None
    true false "" = Ok (Examples.bare "x") /\
  get_default Examples.table_hash (Examples.bare "x") (RunInt 0) None 0%nat
  = (Raise (AttributeError "'Option' object has no attribute 'taken_by'"),
     0%nat) /\
  (forall msg,
     get_default Examples.table_hash (Examples.bare "x") (RunInt 0) None 0%nat
     <> (Raise (InvalidConfiguration msg), 0%nat)).
Proof.
  split; [reflexivity|]. split; [reflexivity|].
  intros msg H. vm_compute in H. discriminate H.
Qed.


(** The table [[(0, "a"), (5, "b"), (10, "c")]] at runs 3, 7 and 10, at a
    super-run, and the table [[(5, "x")]] at run 2.  The run 7 is given as
    the text ["0_07 "]. *)
Lemma default_by_run_resolution_witness :
  get_default Examples.table_hash (Examples.with_table "x" Examples.abc_table)
    (RunInt 3) None 0%nat = (Ok (VStr "a"), 0%nat) /\
  get_default Examples.table_hash (Examples.with_table "x" Examples.abc_table)
    (RunStr "0_07 ") None 0%nat = (Ok (VStr "b"), 0%nat) /\
  get_default Examples.table_hash (Examples.with_table "x" Examples.abc_table)
    (RunInt 10) None 0%nat = (Ok (VStr "c"), 0%nat) /\
  get_default Examples.table_hash (Examples.with_table "x" Examples.abc_table)
    (RunStr "_7") None 0%nat = (Ok (VStr "<SUBRUN-DEPENDENT:3>"), 0%nat) /\
  get_default Examples.table_hash (Examples.with_table "x" Examples.x_table)
    (RunInt 2) None 0%nat
  = (Raise (ValueError (too_small_text 2)), 0%nat).
Proof.
  assert (Hnone : forall o : Option (W := nat), not_in_run_defaults o None)
    by (intros o d Hd; discriminate Hd).
  assert (Hasc : ascending Examples.abc_table)
    by (repeat constructor; simpl; lia).
  assert (Hseven : denotes_run (RunStr "0_07 ") 7).
  { right; right. exists "0_07 ", "007 ". split; [reflexivity|].
    split; [discriminate|]. split.
    - apply underscored_keep; [discriminate|]. apply underscored_skip.
      apply underscored_keep; [discriminate|].
      apply underscored_keep; [discriminate|].
      apply underscored_keep; [discriminate|]. apply underscored_end.
    - exists [], [" "%char], false, "", [0; 0; 7].
      split; [constructor|]. split.
      { repeat constructor. }
      split.
      { split; [discriminate|]. split; [repeat constructor; lia|].
        vm_compute. discriminate. }
      split; [left|]. by split. }
  pose proof (default_by_run_resolution Examples.table_hash
                (Examples.with_table "x" Examples.abc_table)
                Examples.abc_table None 0%nat eq_refl eq_refl eq_refl (Hnone _))
    as (Hsuper & Hlast & _).
  pose proof (default_by_run_resolution Examples.table_hash
                (Examples.with_table "x" Examples.x_table)
                Examples.x_table None 0%nat eq_refl eq_refl eq_refl (Hnone _))
    as (_ & _ & Hlow).
  split; [|split; [|split; [|split]]].
  - apply (Hlast (RunInt 3) 3 0 (VStr "a")); [by left | exact Hasc | reflexivity].
  - apply (Hlast (RunStr "0_07 ") 7 5 (VStr "b"));
      [exact Hseven | exact Hasc | reflexivity].
  - apply (Hlast (RunInt 10) 10 10 (VStr "c")); [by left | exact Hasc | reflexivity].
  - apply (Hsuper "7").
  - destruct (Hlow (RunInt 2) 2) as (msg & Hrun & Hmsg); [by left| |].
    { repeat constructor; simpl; lia. }
    rewrite Hrun, Hmsg; [reflexivity|]. vm_compute. reflexivity.
Defined.

(** ** [Option.validate] *)

Section Validate.

Context {W : Type} (deterministic_hash : list (Z * pyval) -> string).


Implicit Types (self : Option (W := W)) (w : W) (config : gmap string pyval).


(** What is not made of classes only raises, unless an item before it in a
    tuple has matched. *)
Lemma isinstance_raises (v : pyval) :
  forall ci e, isinstance v ci = Raise e ->
    ~ classes_only ci /\
    e = TypeError
          "isinstance() arg 2 must be a type, a tuple of types, or a union".
Proof.
  fix IH 1. intros [c|cs|shown] e H.
  - discriminate.
  - cbn [isinstance classes_only] in *.
    induction cs as [|item rest IHrest]; [discriminate|].
    destruct (isinstance v item) as [[]|e0] eqn:Hitem.
    + discriminate.
    + destruct (IHrest H) as [Hn He]. split; [|exact He].
      intros [_ Hrest]. by apply Hn.
    + injection H as ->. destruct (IH item e Hitem) as [Hn He].
      split; [|exact He]. intros [Hi _]. by apply Hn.
  - injection H as <-. split; [|reflexivity]. intros [].
Qed.



(** A default that cannot be resolved leaves the mapping as it is and
    hands the error on. *)
Lemma validate_raises self run_id run_defaults config w e w' :
  config !! name self = None ->
  get_default deterministic_hash self run_id run_defaults w = (Raise e, w') ->
  validate deterministic_hash self run_id run_defaults true (config, w) = (Raise e, (config, w')).
Proof.
  intros Hc Hd. unfold validate. rewrite Hc, Hd. reflexivity.
Qed.

(** ** [Config]: reading and writing the attribute *)

(** C7.  Reading an attribute-bound option from an object without a
    configuration mapping raises an error; with a mapping, the value under
    the option's name is returned if there is one, and otherwise what
    [get_default] gives for the run id of the plugin.  Writing raises an
    error that says the name is a plugin configuration, for every value
    and in every state, and leaves the state as it is. *)
Theorem Config_attribute_access self (obj : instance) w :
  (inst_config obj = None ->
   Config_get deterministic_hash self obj w
   = (Raise (AttributeError "Plugin has not been configured."), w)) /\
  (forall config v,
     inst_config obj = Some config -> config !! name self = Some v ->
     Config_get deterministic_hash self obj w = (Ok v, w)) /\
  (forall config run_id,
     inst_config obj = Some config -> config !! name self = None ->
     inst_run_id obj = Some run_id ->
     Config_get deterministic_hash self obj w = get_default deterministic_hash self run_id None w) /\
  (forall (S : Type) (s : S) value,
     Config_set self obj value s
     = (Raise (AttributeError
                 (name self
                  +:+ " is a plugin configuration and cannot be set directly.")),
        s)).
Proof.
  unfold Config_get, fetch. split; [|split; [|split]].
  - intros ->. reflexivity.
  - intros config v -> ->. reflexivity.
  - intros config run_id -> -> ->. reflexivity.
  - reflexivity.
Qed.

End Validate.

(** C4 as it was stated holds for every option.  [Option("x", type=[int])]
    can be constructed, and validating a mapping that has [x] raises, for
    [isinstance] takes no list. *)
Lemma validate_type_not_a_class :
  validate Examples.table_hash (Examples.typed "x" (NotAClass "[<class 'int'>]"))
    (RunInt 0) None true ({["x" := VInt 1]}, 0%nat)
  = (Raise (TypeError
              "isinstance() arg 2 must be a type, a tuple of types, or a union"),
     ({["x" := VInt 1]}, 0%nat)) /\
  Option_init (W := nat) false "x" (Given (NotAClass "[<class 'int'>]")) OMITTED
    OMITTED OMITTED false None true false ""
  = Ok (Examples.typed "x" (NotAClass "[<class 'int'>]")).
Proof. split; reflexivity. Qed.


Lemma Config_attribute_access_witness :
  Config_get Examples.table_hash (Examples.bare_Config "x")
    (mkInstance None (Some (RunInt 0))) 0%nat
  = (Raise (AttributeError "Plugin has not been configured."), 0%nat) /\
  Config_get Examples.table_hash (Examples.bare_Config "x")
    (mkInstance (Some {["x" := VInt 5]}) (Some (RunInt 0))) 0%nat
  = (Ok (VInt 5), 0%nat) /\
  Config_get Examples.table_hash (Examples.with_factory "x" Examples.counter)
    (mkInstance (Some {["y" := VInt 5]}) (Some (RunInt 0))) 3%nat
  = (Ok (VInt 3), 4%nat).
Proof.
  split; [|split].
  - apply (proj1 (Config_attribute_access Examples.table_hash
                    (Examples.bare_Config "x")
                    (mkInstance None (Some (RunInt 0))) 0%nat)).
    reflexivity.
  - destruct (Config_attribute_access Examples.table_hash
                (Examples.bare_Config "x")
                (mkInstance (Some {["x" := VInt 5]}) (Some (RunInt 0))) 0%nat)
      as (_ & H & _).
    apply (H {["x" := VInt 5]} (VInt 5)); reflexivity.
  - destruct (Config_attribute_access Examples.table_hash
                (Examples.with_factory "x" Examples.counter)
                (mkInstance (Some {["y" := VInt 5]}) (Some (RunInt 0))) 3%nat)
      as (_ & _ & H & _).
    apply (H {["y" := VInt 5]} (RunInt 0)); reflexivity.
Defined.

(** ** [Option.__init__] *)

Section Construction.

Context {W : Type}.

(** C6, amended.  Construction raises an authoring error when two or
    more of [default], [default_factory] and [default_by_run] are supplied,
    and when [child_option] and a parent name that counts as true (neither
    [None] nor the empty text) come one without the other; in every other
    case it succeeds, and the object carries what was passed. *)
Theorem Option_init_errors (as_Config : bool) (name0 : string)
    (type0 : field classinfo) (default0 : field pyval)
    (default_factory0 : field (M W pyval)) (default_by_run0 : field per_run)
    (child_option0 : bool) (parent_option_name0 : option string)
    (track0 infer_type : bool) (help0 : string) :
  let made := Option_init as_Config name0 type0 default0 default_factory0
                default_by_run0 child_option0 parent_option_name0 track0
                infer_type help0 in
  (several_defaults default0 default_factory0 default_by_run0 \/
   unpaired child_option0 parent_option_name0 ->
   exists e, made = Raise e /\ authoring_error e) /\
  (~ several_defaults default0 default_factory0 default_by_run0 ->
   ~ unpaired child_option0 parent_option_name0 ->
   exists o, made = Ok o /\
     name o = name0 /\ default o = default0 /\
     default_factory o = default_factory0 /\
     default_by_run o = default_by_run0 /\
     child_option o = child_option0 /\
     parent_option_name o = parent_option_name0 /\ taken_by o = None).
Proof.
  unfold several_defaults, unpaired, Option_init. simpl. split.
  - intros H.
    destruct child_option0, (truthy parent_option_name0); simpl;
      try (eexists; split; [reflexivity|exact I]);
      destruct default0, default_factory0, default_by_run0; simpl in *;
      try (eexists; split; [reflexivity|exact I]);
      exfalso; intuition congruence.
  - intros Hs Hu.
    destruct child_option0, (truthy parent_option_name0); simpl;
      try (exfalso; apply Hu; intuition congruence);
      destruct default0, default_factory0, default_by_run0; simpl in *;
      try (exfalso; apply Hs; intuition congruence);
      eexists; (split; [reflexivity|]); simpl; intuition reflexivity.
Qed.

End Construction.

(** C6 as it was stated counts a parent name as supplied when it is not
    [None].  With the empty text as parent name, construction raises
    although both are then supplied and at most one default is, and it
    succeeds although the parent name comes without the child flag. *)
Lemma Option_init_empty_parent_name :
  (exists msg,
     Option_init (W := nat) false "x" OMITTED (Given (VInt 1)) OMITTED OMITTED
       true (Some "") true false "" = Raise (ValueError msg)) /\
  (exists o,
     Option_init (W := nat) false "x" OMITTED (Given (VInt 1)) OMITTED OMITTED
       false (Some "") true false "" = Ok o).
Proof. split; eexists; reflexivity. Qed.

Lemma Option_init_errors_witness :
  (exists e,
     Option_init (W := nat) false "x" OMITTED (Given (VInt 1))
       (Given Examples.counter) OMITTED false None true false "" = Raise e /\
     authoring_error e) /\
  (exists e,
     Option_init (W := nat) false "x" OMITTED (Given (VInt 1)) OMITTED OMITTED
       true None true false "" = Raise e /\
     authoring_error e) /\
  (exists o,
     Option_init (W := nat) false "x_child" OMITTED (Given (VInt 1)) OMITTED
       OMITTED true (Some "x") true false "" = Ok o /\
     name o = "x_child" /\ default o = Given (VInt 1) /\
     default_factory o = OMITTED /\ default_by_run o = OMITTED /\
     child_option o = true /\ parent_option_name o = Some "x" /\
     taken_by o = None).
Proof.
  split; [|split].
  - apply (proj1 (Option_init_errors (W := nat) false "x" OMITTED
                    (Given (VInt 1)) (Given Examples.counter) OMITTED
                    false None true false "")).
    left. left. split; reflexivity.
  - apply (proj1 (Option_init_errors (W := nat) false "x" OMITTED
                    (Given (VInt 1)) OMITTED OMITTED
                    true None true false "")).
    right. left. split; reflexivity.
  - apply (proj2 (Option_init_errors (W := nat) false "x_child" OMITTED
                    (Given (VInt 1)) OMITTED OMITTED
                    true (Some "x") true false "")).
    + intros [[_ H] | [[_ H] | [H _]]]; discriminate H.
    + intros [[_ H] | [H _]]; discriminate H.
Defined.

(** ** [combine_configs] *)

Section Combine.

Implicit Types (h : dict_store) (old new : loc) (d : gmap string pyval).

Lemma dict_read_ok h l d : h !! l = Some d -> dict_read l h = (Ok d, h).
Proof. intros H. unfold dict_read. rewrite H. reflexivity. Qed.

(** The update branch leaves every object of the store as it is and adds
    one object, the overlay of [new] on [old]. *)
Lemma combine_update_ok h old new d_old d_new :
  h !! old = Some d_old -> h !! new = Some d_new ->
  combine_update old new h = (Ok (List.length h), (h ++ [d_new ∪ d_old])%list).
Proof.
  intros Hold Hnew. unfold combine_update, dict_copy, dict_update, dict_new, bind, ret.
  rewrite (dict_read_ok _ _ _ Hold).
  assert (Hnew' : (h ++ [d_old])%list !! new = Some d_new).
  { rewrite lookup_app_l; [exact Hnew|]. by eapply lookup_lt_Some. }
  rewrite (dict_read_ok _ _ _ Hnew').
  assert (Hc : (h ++ [d_old])%list !! List.length h = Some d_old).
  { rewrite lookup_app_r by lia. by rewrite Nat.sub_diag. }
  rewrite (dict_read_ok _ _ _ Hc).
  f_equal. replace (List.length h) with (List.length h + 0)%nat at 1 by lia.
  apply (insert_app_r h [d_old] 0%nat).
Qed.

Lemma overlay_lookup (top bottom : gmap string pyval) k :
  (top ∪ bottom) !! k =
    match top !! k with Some v => Some v | None => bottom !! k end.
Proof.
  destruct (top !! k) as [v|] eqn:Ht.
  - by apply lookup_union_Some_l.
  - by rewrite lookup_union_r.
Qed.

(** C5.  With the mode ["update"] the result is a new mapping, equal to
    [old] with every key of [new] laid over it; with ["setdefault"] a new
    mapping equal to [new] with [old] laid over it; with ["replace"] it is
    the object [new] itself; any other mode raises.  In every mode the
    mappings that were passed hold afterwards what they held before. *)
Theorem combine_configs_spec h old new d_old d_new mode :
  h !! old = Some d_old -> h !! new = Some d_new ->
  (mode = "update" ->
   exists m,
     combine_configs old (Some new) mode h
     = (Ok (List.length h), (h ++ [m])%list) /\
     forall k, m !! k =
       match d_new !! k with Some v => Some v | None => d_old !! k end) /\
  (mode = "setdefault" ->
   exists m,
     combine_configs old (Some new) mode h
     = (Ok (List.length h), (h ++ [m])%list) /\
     forall k, m !! k =
       match d_old !! k with Some v => Some v | None => d_new !! k end) /\
  (mode = "replace" -> combine_configs old (Some new) mode h = (Ok new, h)) /\
  (mode <> "update" -> mode <> "setdefault" -> mode <> "replace" ->
   exists msg,
     combine_configs old (Some new) mode h = (Raise (RuntimeError msg), h)) /\
  (forall r h', combine_configs old (Some new) mode h = (r, h') ->
     h' !! old = Some d_old /\ h' !! new = Some d_new /\
     forall l d, h !! l = Some d -> h' !! l = Some d).
Proof.
  intros Hold Hnew.
  assert (Hkeep : forall m l d, h !! l = Some d -> (h ++ [m])%list !! l = Some d).
  { intros m l d Hl. rewrite lookup_app_l; [exact Hl|]. by eapply lookup_lt_Some. }
  split; [|split; [|split; [|split]]].
  - intros ->. exists (d_new ∪ d_old). split.
    + unfold combine_configs, bind, ret. simpl.
      by apply combine_update_ok.
    + intros k. apply overlay_lookup.
  - intros ->. exists (d_old ∪ d_new). split.
    + unfold combine_configs, bind, ret. simpl.
      by apply combine_update_ok.
    + intros k. apply overlay_lookup.
  - intros ->. reflexivity.
  - intros H1 H2 H3. eexists.
    unfold combine_configs, bind, ret, raise.
    apply String.eqb_neq in H1, H2, H3. rewrite H1, H2, H3. reflexivity.
  - intros r h'. unfold combine_configs, bind, ret, raise.
    destruct (String.eqb mode "update").
    { rewrite (combine_update_ok _ _ _ _ _ Hold Hnew).
      intros [= <- <-]. split; [|split]; eauto. }
    destruct (String.eqb mode "setdefault").
    { rewrite (combine_update_ok _ _ _ _ _ Hnew Hold).
      intros [= <- <-]. split; [|split]; eauto. }
    destruct (String.eqb mode "replace"); intros [= <- <-];
      (split; [|split]; eauto).
Qed.

(** Without a second mapping a new, empty one takes its place. *)
Lemma combine_configs_default_new h old d_old :
  h !! old = Some d_old ->
  combine_configs old None "update" h
  = (Ok (S (List.length h)), (h ++ [∅; ∅ ∪ d_old])%list).
Proof.
  intros Hold. unfold combine_configs, bind, ret, dict_new. simpl.
  assert (Hold' : (h ++ [∅])%list !! old = Some d_old).
  { rewrite lookup_app_l; [exact Hold|]. by eapply lookup_lt_Some. }
  assert (Hnew : (h ++ [∅])%list !! List.length h = Some (∅ : gmap string pyval)).
  { rewrite lookup_app_r by lia. by rewrite Nat.sub_diag. }
  rewrite (combine_update_ok _ _ _ _ _ Hold' Hnew).
  rewrite length_app. simpl. rewrite <- app_assoc. simpl.
  f_equal. f_equal. lia.
Qed.

End Combine.

(** [combine_configs({"a":1,"b":2}, {"b":3,"c":4}, mode)] for the three
    modes and for a mode that does not exist. *)
Lemma combine_configs_spec_witness :
  let old := {["a" := VInt 1; "b" := VInt 2]} : gmap string pyval in
  let new := {["b" := VInt 3; "c" := VInt 4]} : gmap string pyval in
  (exists m,
     combine_configs 0%nat (Some 1%nat) "update" [old; new]
     = (Ok 2%nat, [old; new; m]) /\
     m !! "a" = Some (VInt 1) /\ m !! "b" = Some (VInt 3) /\
     m !! "c" = Some (VInt 4) /\ m !! "d" = None) /\
  (exists m,
     combine_configs 0%nat (Some 1%nat) "setdefault" [old; new]
     = (Ok 2%nat, [old; new; m]) /\
     m !! "a" = Some (VInt 1) /\ m !! "b" = Some (VInt 2) /\
     m !! "c" = Some (VInt 4) /\ m !! "d" = None) /\
  combine_configs 0%nat (Some 1%nat) "replace" [old; new]
  = (Ok 1%nat, [old; new]) /\
  (exists msg,
     combine_configs 0%nat (Some 1%nat) "merge" [old; new]
     = (Raise (RuntimeError msg), [old; new])).
Proof.
  intros old new.
  destruct (combine_configs_spec [old; new] 0%nat 1%nat old new "update"
              eq_refl eq_refl) as (Hupdate & _).
  destruct (combine_configs_spec [old; new] 0%nat 1%nat old new "setdefault"
              eq_refl eq_refl) as (_ & Hsetdefault & _).
  destruct (combine_configs_spec [old; new] 0%nat 1%nat old new "replace"
              eq_refl eq_refl) as (_ & _ & Hreplace & _).
  destruct (combine_configs_spec [old; new] 0%nat 1%nat old new "merge"
              eq_refl eq_refl) as (_ & _ & _ & Hother & _).
  split; [|split; [|split]].
  - destruct (Hupdate eq_refl) as (m & Hm & Hk). exists m.
    split; [exact Hm|]. rewrite !Hk. repeat split; reflexivity.
  - destruct (Hsetdefault eq_refl) as (m & Hm & Hk). exists m.
    split; [exact Hm|]. rewrite !Hk. repeat split; reflexivity.
  - exact (Hreplace eq_refl).
  - apply Hother; discriminate.
Defined.

(** ** [sorted_bounds] *)

Section SortedBounds.

#[local] Instance pair_le_trans : Transitive pair_le.
Proof. intros a b c. unfold pair_le. lia. Qed.

#[local] Instance pair_le_total : Total pair_le.
Proof. intros a b. unfold pair_le. lia. Qed.

#[local] Instance pair_le_antisymm : AntiSymm (=) pair_le.
Proof.
  intros [a1 a2] [b1 b2]. unfold pair_le. simpl. intros H1 H2.
  f_equal; lia.
Qed.

(** Induction over a list two elements at a time, as [chunked2] goes. *)
Lemma list_ind_by_two {A} (P : list A -> Prop) :
  P [] -> (forall a, P [a]) -> (forall a b l, P l -> P (a :: b :: l)) ->
  forall l, P l.
Proof.
  intros Hnil Hone Hstep l.
  assert (H : P l /\ forall a, P (a :: l)).
  { induction l as [|b l [IH1 IH2]]; [by split|].
    split; [apply IH2|]. intros a. by apply Hstep. }
  apply H.
Qed.

Lemma chunked2_Forall (P : Z -> Prop) (l : list Z) :
  Forall P l -> Forall (fun p => P p.1 /\ P p.2) (chunked2 l).
Proof.
  induction l as [|a|a b l IH] using list_ind_by_two; intros H; simpl.
  - constructor.
  - constructor.
  - apply Forall_cons in H as [Ha H]. apply Forall_cons in H as [Hb H].
    constructor; [by split|by apply IH].
Qed.

(** The pairs cut from a sorted list are in order, each ending before the
    next begins. *)
Lemma chunked2_sorted (l : list Z) :
  StronglySorted Z.le l ->
  StronglySorted before (chunked2 l) /\ Forall (fun p => p.1 <= p.2) (chunked2 l).
Proof.
  induction l as [|a|a b l IH] using list_ind_by_two; intros H; simpl.
  - split; constructor.
  - split; constructor.
  - apply StronglySorted_inv in H as [H Ha].
    apply StronglySorted_inv in H as [H Hb].
    apply Forall_cons in Ha as [Hab _].
    destruct (IH H) as [IH1 IH2]. split.
    + constructor; [exact IH1|].
      eapply Forall_impl; [exact (chunked2_Forall _ _ Hb)|].
      intros p [Hp _]. exact Hp.
    + constructor; [exact Hab|exact IH2].
Qed.

Lemma before_pair_le (l : list (Z * Z)) :
  Forall (fun p => p.1 < p.2) l ->
  StronglySorted before l -> StronglySorted pair_le l.
Proof.
  intros Hlt Hs. induction Hs as [|a l Hs IH Ha]; [constructor|].
  apply Forall_cons in Hlt as [Ha' Hlt].
  constructor; [by apply IH|].
  eapply Forall_impl; [exact Ha|].
  unfold before, pair_le. intros b Hb. left. lia.
Qed.

Lemma StronglySorted_lookup_lt {A} (R : relation A) (l : list A) i j a b :
  StronglySorted R l -> (i < j)%nat ->
  l !! i = Some a -> l !! j = Some b -> R a b.
Proof.
  intros Hs. revert i j. induction Hs as [|x l Hs IH Hx]; intros i j Hij Hi Hj.
  { discriminate Hi. }
  destruct j as [|j]; [lia|]. simpl in Hj.
  destruct i as [|i]; simpl in Hi.
  - injection Hi as <-. rewrite Forall_forall in Hx.
    apply Hx. by eapply list_elem_of_lookup_2.
  - apply (IH i j); [lia|assumption..].
Qed.

Lemma forallb_nonempty_ranges (l : list (Z * Z)) :
  forallb (fun a => negb (a.1 =? a.2)) l = true ->
  Forall (fun p => p.1 <= p.2) l -> Forall (fun p => p.1 < p.2) l.
Proof.
  intros Hb Hle. induction Hle as [|p l Hp _ IH]; [constructor|].
  simpl in Hb. apply andb_prop in Hb as [Hne Hb].
  apply negb_true_iff, Z.eqb_neq in Hne.
  constructor; [lia|by apply IH].
Qed.

(** What [sorted_bounds] yields is the list of pairs cut from the sorted
    draw, which is in order already. *)
Lemma sorted_bounds_sample list_of_set disjoint remove_duplicates drawn bounds :
  sorted_bounds list_of_set disjoint remove_duplicates drawn = Some bounds ->
  StronglySorted before bounds /\ Forall (fun p => p.1 < p.2) bounds /\
  StronglySorted pair_le bounds.
Proof.
  unfold sorted_bounds.
  set (s := if disjoint then accumulate drawn else drawn).
  destruct (negb (Nat.even (List.length s))); [discriminate|].
  set (x := chunked2 (sorted_ints s)).
  destruct (forallb (fun a => negb (a.1 =? a.2)) x) eqn:Hnz; simpl;
    [|discriminate].
  assert (Hx : StronglySorted before x /\ Forall (fun p => p.1 <= p.2) x).
  { apply chunked2_sorted. apply StronglySorted_merge_sort; apply _. }
  destruct Hx as [Hbefore Hle].
  pose proof (forallb_nonempty_ranges _ Hnz Hle) as Hlt.
  pose proof (before_pair_le _ Hlt Hbefore) as Hsorted.
  assert (Hsame : sorted_pairs x = x).
  { apply (StronglySorted_unique pair_le); [|exact Hsorted|].
    - apply StronglySorted_merge_sort; apply _.
    - apply merge_sort_Permutation. }
  rewrite Hsame.
  destruct (remove_duplicates && negb (bool_decide (x = list_of_set x)));
    [discriminate|].
  intros [= <-]. auto.
Qed.

(** C9.  Every sample of [sorted_bounds] with [disjoint=True] is a sorted
    list of pairs [(left, right)] with [left < right], no two of which
    overlap as half-open ranges.  (Nothing is asked of the drawn integers:
    the property comes from sorting before pairing.) *)
Theorem sorted_bounds_disjoint list_of_set remove_duplicates drawn bounds :
  sorted_bounds list_of_set true remove_duplicates drawn = Some bounds ->
  Sorted pair_le bounds /\
  Forall (fun p => p.1 < p.2) bounds /\
  (forall i j a b, i <> j -> bounds !! i = Some a -> bounds !! j = Some b ->
     ~ overlap a b).
Proof.
  intros H. apply sorted_bounds_sample in H as (Hbefore & Hlt & Hsorted).
  split; [by apply StronglySorted_Sorted|]. split; [exact Hlt|].
  intros i j a b Hij Hi Hj [H1 H2].
  destruct (Nat.lt_total i j) as [Hlt'|[->|Hgt]]; [|done|].
  - pose proof (StronglySorted_lookup_lt _ _ _ _ _ _ Hbefore Hlt' Hi Hj) as Hb.
    unfold before in Hb. lia.
  - pose proof (StronglySorted_lookup_lt _ _ _ _ _ _ Hbefore Hgt Hj Hi) as Hb.
    unfold before in Hb. lia.
Qed.

End SortedBounds.

(** The draw [[1; 2; 3; 4]] accumulates to [[1; 3; 6; 10]] and gives the
    bounds [[(1, 3); (6, 10)]]. *)
Lemma sorted_bounds_disjoint_witness :
  sorted_bounds (fun x => x) true false [1; 2; 3; 4] = Some [(1, 3); (6, 10)] /\
  Sorted pair_le [(1, 3); (6, 10)] /\
  Forall (fun p : Z * Z => p.1 < p.2) [(1, 3); (6, 10)] /\
  (forall i j a b, i <> j ->
     [(1, 3); (6, 10)] !! i = Some a -> [(1, 3); (6, 10)] !! j = Some b ->
     ~ overlap a b).
Proof.
  split; [vm_compute; reflexivity|].
  apply (sorted_bounds_disjoint (fun x => x) false [1; 2; 3; 4]).
  vm_compute. reflexivity.
Defined.

(** ** Dicts in insertion order *)

Section Dict.

Context {V : Type}.
Implicit Types (d e : list (string * V)) (k : string) (v : V).

Lemma dict_get_set_eq d k v : dict_get (dict_set d k v) k = Some v.
Proof.
  induction d as [|[k' v'] d IH]; simpl.
  - by rewrite String.eqb_refl.
  - destruct (String.eqb k' k) eqn:E; simpl; rewrite E; [reflexivity|exact IH].
Qed.

Lemma dict_get_set_ne d k k' v :
  k <> k' -> dict_get (dict_set d k v) k' = dict_get d k'.
Proof.
  intros Hne. induction d as [|[k0 v0] d IH]; simpl.
  - apply String.eqb_neq in Hne. by rewrite Hne.
  - destruct (String.eqb k0 k) eqn:E; simpl.
    + apply String.eqb_eq in E as ->.
      apply String.eqb_neq in Hne. by rewrite Hne.
    + destruct (String.eqb k0 k'); [reflexivity|exact IH].
Qed.

Lemma dict_get_None d k : dict_get d k = None <-> k ∉ d.*1.
Proof.
  induction d as [|[k0 v0] d IH]; simpl.
  - split; [intros _; apply not_elem_of_nil|done].
  - rewrite not_elem_of_cons. destruct (String.eqb k0 k) eqn:E.
    + apply String.eqb_eq in E as ->. split; [done|]. intros [H _]. done.
    + apply String.eqb_neq in E. rewrite IH. split; [by split|by intros [_ H]].
Qed.

Lemma dict_get_elem_of d k v : dict_get d k = Some v -> (k, v) ∈ d.
Proof.
  induction d as [|[k0 v0] d IH]; simpl; [done|].
  destruct (String.eqb k0 k) eqn:E.
  - apply String.eqb_eq in E as ->. intros [= ->]. left.
  - intros H. right. by apply IH.
Qed.

(** An entry of the dict after an assignment is the one assigned or was
    there before. *)
Lemma elem_of_dict_set d k v (x : string * V) :
  x ∈ dict_set d k v -> x = (k, v) \/ x ∈ d.
Proof.
  induction d as [|[k0 v0] d IH]; simpl.
  - intros H. apply list_elem_of_singleton in H. by left.
  - destruct (String.eqb k0 k) eqn:E.
    + apply String.eqb_eq in E as ->. intros H.
      apply elem_of_cons in H as [->|H]; [by left|]. right. by right.
    + intros H. apply elem_of_cons in H as [->|H]; [right; left|].
      destruct (IH H) as [->|H']; [by left|]. right. by right.
Qed.

Lemma dict_set_new d k v : k ∉ d.*1 -> dict_set d k v = (d ++ [(k, v)])%list.
Proof.
  induction d as [|[k0 v0] d IH]; simpl; [done|].
  rewrite not_elem_of_cons. intros [Hne Hd].
  assert (E : String.eqb k0 k = false) by (apply String.eqb_neq; congruence).
  rewrite E. by rewrite IH.
Qed.

Lemma dict_set_keys d k v :
  (dict_set d k v).*1 = if dict_contains d k then d.*1 else (d.*1 ++ [k])%list.
Proof.
  unfold dict_contains. induction d as [|[k0 v0] d IH]; csimpl; [done|].
  destruct (String.eqb k0 k) eqn:E; csimpl.
  - reflexivity.
  - rewrite IH. by destruct (dict_get d k).
Qed.

Lemma dict_contains_true d k : dict_contains d k = true <-> k ∈ d.*1.
Proof.
  unfold dict_contains. destruct (dict_get d k) eqn:E.
  - split; [intros _|done]. apply dict_get_elem_of in E.
    apply list_elem_of_fmap. by exists (k, v).
  - split; [done|]. intros H. by apply dict_get_None in E.
Qed.

Lemma dict_set_NoDup d k v : NoDup d.*1 -> NoDup (dict_set d k v).*1.
Proof.
  intros Hd. rewrite dict_set_keys.
  destruct (dict_contains d k) eqn:E; [exact Hd|].
  apply NoDup_app. split; [exact Hd|]. split; [|apply NoDup_singleton].
  intros x Hx Hk. apply list_elem_of_singleton in Hk as ->.
  apply dict_contains_true in Hx. congruence.
Qed.

(** [{**d, **e}] is [e] laid over [d]. *)
Lemma dict_get_merge d e k :
  NoDup e.*1 ->
  dict_get (dict_merge d e) k =
    match dict_get e k with Some v => Some v | None => dict_get d k end.
Proof.
  unfold dict_merge. revert d.
  induction e as [|[k0 v0] e IH]; intros d Hnd; simpl; [reflexivity|].
  csimpl in Hnd. apply NoDup_cons in Hnd as [Hk0 Hnd].
  rewrite IH by assumption.
  destruct (String.eqb k0 k) eqn:E.
  - apply String.eqb_eq in E as ->.
    apply dict_get_None in Hk0. rewrite Hk0. apply dict_get_set_eq.
  - apply String.eqb_neq in E.
    destruct (dict_get e k); [reflexivity|]. by apply dict_get_set_ne.
Qed.

Lemma dict_merge_nil d : dict_merge d [] = d.
Proof. reflexivity. Qed.

End Dict.

(** ** Running a sequence of statements *)

Lemma bind_ok_eq {S A B} (m : M S A) (k : A -> M S B) s a s' out :
  m s = (Ok a, s') -> k a s' = out -> bind m k s = out.
Proof. intros Hm <-. unfold bind. by rewrite Hm. Qed.

Lemma bind_raise_eq {S A B} (m : M S A) (k : A -> M S B) s e s' :
  m s = (Raise e, s') -> bind m k s = (Raise e, s').
Proof. intros Hm. unfold bind. by rewrite Hm. Qed.

(** ** Registration *)

Section Registration.

Context {W : Type}.
Implicit Types (objs : gmap oref (Option (W := W))) (c : klass)
  (refs values : list oref) (old result : registry) (r : oref).

(** *** The store under stamping *)

Lemma alter_taken_by_lookup objs p r r' o :
  objs !! r' = Some o ->
  exists o', alter (fun o => with_taken_by o p) r objs !! r' = Some o' /\
             name o' = name o /\ is_Config o' = is_Config o.
Proof.
  intros Ho. rewrite lookup_alter. case_decide as E.
  - subst r'. rewrite Ho. simpl. eexists. split; [reflexivity|]. by split.
  - exists o. by split.
Qed.

Lemma stamped_lookup p refs : forall objs r o,
  objs !! r = Some o ->
  exists o', stamped p objs refs !! r = Some o' /\
             name o' = name o /\ is_Config o' = is_Config o.
Proof.
  induction refs as [|r0 refs IH]; intros objs r o Ho; simpl.
  - exists o. by split.
  - destruct (alter_taken_by_lookup objs p r0 r o Ho) as (o1 & H1 & Hn & Hc).
    destruct (IH _ _ _ H1) as (o2 & H2 & Hn2 & Hc2).
    exists o2. split; [exact H2|]. split; congruence.
Qed.

Lemma name_at_alter objs p r r' :
  name_at (alter (fun o => with_taken_by o p) r objs) r' = name_at objs r'.
Proof.
  unfold name_at. rewrite lookup_alter. case_decide as E; [|reflexivity].
  subst r'. by destruct (objs !! r).
Qed.

Lemma allocated_alter objs p r refs :
  allocated objs refs ->
  allocated (alter (fun o => with_taken_by o p) r objs) refs.
Proof.
  unfold allocated. intros Hall. eapply Forall_impl; [exact Hall|].
  intros r' H. by apply lookup_alter_is_Some.
Qed.

Lemma declare_into_ext (f g : oref -> option string) refs :
  (forall r, f r = g r) ->
  forall result, declare_into f refs result = declare_into g refs result.
Proof.
  intros Hfg. unfold declare_into.
  induction refs as [|r refs IH]; intros result; simpl; [reflexivity|].
  rewrite Hfg. apply IH.
Qed.

Lemma declare_into_cons (names : oref -> option string) r refs result n :
  names r = Some n ->
  declare_into names (r :: refs) result
  = declare_into names refs (dict_set result n r).
Proof. intros H. unfold declare_into. simpl. by rewrite H. Qed.

(** *** The first loop *)

Lemma declare_options_ok refs : forall objs c result opt0,
  allocated objs refs ->
  declare_options (ArgOption <$> refs) result opt0 (mkRegState objs c)
  = (Ok (declare_into (name_at objs) refs result,
         match last refs with Some r => Some r | None => opt0 end),
     mkRegState (stamped (cls_name c) objs refs) c).
Proof.
  induction refs as [|r refs IH]; intros objs c result opt0 Hall.
  { reflexivity. }
  apply Forall_cons in Hall as [[o Ho] Hall].
  cbn [fmap list_fmap declare_options].
  unfold bind at 1. unfold deref at 1. cbn [objects]. rewrite Ho.
  unfold bind at 1. unfold the_class at 1. cbn [plugin_class].
  unfold bind at 1. unfold update_object at 1. cbn [objects plugin_class].
  unfold bind at 1. unfold deref at 1. cbn [objects].
  rewrite lookup_alter_eq, Ho. cbn [fmap option_fmap option_map].
  rewrite IH by (by apply allocated_alter).
  rewrite (declare_into_ext _ (name_at objs)) by (intros; apply name_at_alter).
  rewrite (declare_into_cons (name_at objs) r refs result (name o))
    by (unfold name_at; by rewrite Ho).
  rewrite last_cons. cbn [name with_taken_by].
  by destruct (last refs).
Qed.

(** *** The entries of the new dict *)

Lemma declare_into_entries (names : oref -> option string) refs :
  forall result k r,
  (k, r) ∈ declare_into names refs result ->
  (k, r) ∈ result \/ (r ∈ refs /\ names r = Some k).
Proof.
  unfold declare_into.
  induction refs as [|r0 refs IH]; intros result k r H; simpl in H.
  { by left. }
  destruct (IH _ _ _ H) as [Hin|[Hin Hn]].
  - destruct (names r0) as [n|] eqn:E; [|by left].
    apply elem_of_dict_set in Hin as [[= -> ->]|Hin]; [|by left].
    right. split; [left|exact E].
  - right. split; [by right|exact Hn].
Qed.

Lemma declare_into_keys (names : oref -> option string) refs :
  forall result k,
  k ∈ (declare_into names refs result).*1 <->
  k ∈ result.*1 \/ k ∈ omap names refs.
Proof.
  unfold declare_into.
  induction refs as [|r0 refs IH]; intros result k; simpl.
  { split; [by left|]. intros [H|H]; [exact H|]. by apply elem_of_nil in H. }
  rewrite IH. destruct (names r0) as [n|] eqn:E; [|reflexivity].
  rewrite dict_set_keys, elem_of_cons.
  destruct (dict_contains result n) eqn:Hc.
  - apply dict_contains_true in Hc. split; [tauto|].
    intros [H|[->|H]]; tauto.
  - rewrite elem_of_app, list_elem_of_singleton. tauto.
Qed.

Lemma declare_into_NoDup (names : oref -> option string) refs :
  forall result, NoDup result.*1 -> NoDup (declare_into names refs result).*1.
Proof.
  unfold declare_into.
  induction refs as [|r0 refs IH]; intros result H; simpl; [exact H|].
  apply IH. destruct (names r0); [by apply dict_set_NoDup|exact H].
Qed.

(** With names that differ from one another the new dict lists the
    options in the order of the call. *)
Lemma declare_into_values (names : oref -> option string) refs :
  forall result,
  Forall (fun r => is_Some (names r)) refs ->
  NoDup (result.*1 ++ omap names refs) ->
  dict_values (declare_into names refs result)
  = (dict_values result ++ refs)%list.
Proof.
  unfold declare_into, dict_values.
  induction refs as [|r0 refs IH]; intros result Hall Hnd; simpl.
  { by rewrite app_nil_r. }
  apply Forall_cons in Hall as [[n Hn] Hall].
  simpl in Hnd. rewrite Hn in *.
  assert (Hnew : n ∉ result.*1).
  { apply NoDup_app in Hnd as (_ & Hdisj & _).
    intros Hin. apply (Hdisj _ Hin). left. }
  rewrite (dict_set_new _ _ _ Hnew).
  rewrite IH; [| exact Hall |].
  - rewrite map_app. simpl. by rewrite <- app_assoc.
  - rewrite fmap_app. simpl. by rewrite <- app_assoc.
Qed.

(** *** The registry that the class carries *)

Lemma nonempty_takes_config_some objs c old :
  carries_registry c old ->
  nonempty_takes_config (mkRegState objs c)
  = (Ok (Some old), mkRegState objs c).
Proof.
  intros [Hl Hne]. unfold nonempty_takes_config, bind, the_class, ret.
  cbn [plugin_class]. rewrite Hl. by destruct old.
Qed.

Lemma nonempty_takes_config_none objs c :
  carries_no_registry c ->
  nonempty_takes_config (mkRegState objs c) = (Ok None, mkRegState objs c).
Proof.
  intros [Hl|Hl]; unfold nonempty_takes_config, bind, the_class, ret;
    cbn [plugin_class]; by rewrite Hl.
Qed.

(** *** The second loop *)

Lemma check_collisions_ok values old : forall opt0 objs c,
  Forall (fun r => exists o, objs !! r = Some o /\
                             dict_contains old (name o) = false) values ->
  check_collisions values old opt0 (mkRegState objs c)
  = (Ok (match last values with Some r => Some r | None => opt0 end),
     mkRegState objs c).
Proof.
  induction values as [|r values IH]; intros opt0 objs c Hall.
  { reflexivity. }
  apply Forall_cons in Hall as [(o & Ho & Hc) Hall].
  cbn [check_collisions]. unfold bind at 1. unfold deref at 1.
  cbn [objects]. rewrite Ho, Hc. rewrite IH by assumption.
  rewrite last_cons. by destruct (last values).
Qed.

Lemma check_collisions_raise values old : forall opt0 objs c,
  allocated objs values ->
  Exists (fun r => exists o, objs !! r = Some o /\
                             dict_contains old (name o) = true) values ->
  exists r o, r ∈ values /\ objs !! r = Some o /\
    dict_contains old (name o) = true /\
    check_collisions values old opt0 (mkRegState objs c)
    = (Raise (RuntimeError
                ("Attempt to specify option " +:+ name o +:+ " twice")),
       mkRegState objs c).
Proof.
  induction values as [|r values IH]; intros opt0 objs c Hall Hex.
  { by apply Exists_nil in Hex. }
  apply Forall_cons in Hall as [[o Ho] Hall].
  destruct (dict_contains old (name o)) eqn:Hc.
  - exists r, o. split; [left|]. split; [exact Ho|]. split; [exact Hc|].
    cbn [check_collisions]. unfold bind at 1. unfold deref at 1.
    cbn [objects]. by rewrite Ho, Hc.
  - apply Exists_cons in Hex as [(o' & Ho' & Hc')|Hex]; [congruence|].
    destruct (IH (Some r) objs c Hall Hex) as (r' & o' & Hin & Ho' & Hc' & Hrun).
    exists r', o'. split; [by right|]. split; [exact Ho'|]. split; [exact Hc'|].
    cbn [check_collisions]. unfold bind at 1. unfold deref at 1.
    cbn [objects]. by rewrite Ho, Hc.
Qed.

(** *** The last statement *)

Lemma install_stamped objs p refs r c :
  install (stamped p objs refs) r c = install objs r c.
Proof.
  unfold install. destruct (objs !! r) as [o|] eqn:Ho.
  - destruct (stamped_lookup p refs _ _ _ Ho) as (o' & -> & -> & ->).
    reflexivity.
  - assert (H : stamped p objs refs !! r = None); [|by rewrite H].
    clear c. revert objs Ho. induction refs as [|r0 refs IH]; intros objs Ho;
      simpl; [exact Ho|].
    apply IH. by apply lookup_alter_None.
Qed.

(** What follows the assignment of the registry, the variable [opt] being
    bound to the option at [r]. *)
Lemma wrapped_finish objs c r :
  is_Some (objs !! r) ->
  (let* o := deref r in
   (if is_Config o then setattr_class (name o) (AOption r) else ret tt) ;;
   the_class)%py (mkRegState objs c)
  = (Ok (install objs r c), mkRegState objs (install objs r c)).
Proof.
  intros [o Ho]. unfold bind, deref, install. cbn [objects]. rewrite Ho.
  by destruct (is_Config o).
Qed.

Lemma stamped_is_Some p refs objs r :
  is_Some (objs !! r) -> is_Some (stamped p objs refs !! r).
Proof.
  intros [o Ho]. destruct (stamped_lookup p refs _ _ _ Ho) as (o' & H & _).
  by exists o'.
Qed.

(** *** The function [wrapped] as a whole *)

(** A class in which no registry with options is found: the new dict
    becomes the registry. *)
Lemma wrapped_no_registry' objs c refs r :
  allocated objs refs ->
  nonempty_takes_config (mkRegState (stamped (cls_name c) objs refs) c)
  = (Ok None, mkRegState (stamped (cls_name c) objs refs) c) ->
  last refs = Some r ->
  let c' := install objs r
              (class_setattr c "takes_config" (ARegistry (declared objs refs))) in
  wrapped (ArgOption <$> refs) (mkRegState objs c)
  = (Ok c', mkRegState (stamped (cls_name c) objs refs) c').
Proof.
  intros Hall Hno Hlast c'. unfold wrapped.
  eapply bind_ok_eq; [by apply declare_options_ok|].
  cbv beta zeta. cbn [fst snd]. rewrite Hlast.
  eapply bind_ok_eq; [exact Hno|].
  cbv beta iota.
  eapply bind_ok_eq; [reflexivity|].
  cbv beta iota. cbn [objects plugin_class].
  etrans; [apply wrapped_finish|].
  - apply stamped_is_Some. unfold allocated in Hall.
    rewrite Forall_forall in Hall. apply Hall.
    apply last_Some in Hlast as [l' ->]. apply elem_of_app. right. left.
  - rewrite install_stamped. reflexivity.
Qed.

Lemma wrapped_no_registry objs c refs r :
  allocated objs refs -> carries_no_registry c -> last refs = Some r ->
  let c' := install objs r
              (class_setattr c "takes_config" (ARegistry (declared objs refs))) in
  wrapped (ArgOption <$> refs) (mkRegState objs c)
  = (Ok c', mkRegState (stamped (cls_name c) objs refs) c').
Proof.
  intros Hall Hno Hlast. apply wrapped_no_registry'; try assumption.
  by apply nonempty_takes_config_none.
Qed.

(** Looking for the registry leaves the state as it is, and finds a
    registry with options only if the class carries one. *)
Lemma nonempty_takes_config_cases objs c :
  (exists old, carries_registry c old /\
     nonempty_takes_config (mkRegState objs c)
     = (Ok (Some old), mkRegState objs c)) \/
  nonempty_takes_config (mkRegState objs c) = (Ok None, mkRegState objs c) \/
  (exists e, nonempty_takes_config (mkRegState objs c)
             = (Raise e, mkRegState objs c)).
Proof.
  unfold nonempty_takes_config, carries_registry, bind, the_class, deref, ret, raise.
  cbn [plugin_class objects].
  destruct (class_lookup c "takes_config") as [[old|r]|] eqn:Hl.
  - destruct old as [|e old]; [right; by left|].
    left. exists (e :: old). by split.
  - cbn [objects]. destruct (objs !! r) as [o|];
      [|right; right; eexists; reflexivity].
    destruct (is_Config o); right; [left|right; eexists]; reflexivity.
  - right. by left.
Qed.

Lemma wrapped_lookup_raises objs c refs e :
  allocated objs refs ->
  nonempty_takes_config (mkRegState (stamped (cls_name c) objs refs) c)
  = (Raise e, mkRegState (stamped (cls_name c) objs refs) c) ->
  wrapped (ArgOption <$> refs) (mkRegState objs c)
  = (Raise e, mkRegState (stamped (cls_name c) objs refs) c).
Proof.
  intros Hall Hr. unfold wrapped.
  eapply bind_ok_eq; [by apply declare_options_ok|].
  cbv beta zeta. by apply bind_raise_eq.
Qed.

(** The options whose names are checked against the registry are those of
    the new dict; each is one of the call and is stored under its name. *)
Lemma declared_values objs refs r :
  r ∈ dict_values (declared objs refs) ->
  r ∈ refs /\ exists k, name_at objs r = Some k /\ k ∈ declared_names objs refs.
Proof.
  unfold dict_values, declared. intros H.
  apply list_elem_of_In, in_map_iff in H as ([k r'] & Hr & Hin). simpl in Hr. subst r'.
  apply list_elem_of_In in Hin.
  apply declare_into_entries in Hin as [Hin|[Hin Hn]].
  { by apply elem_of_nil in Hin. }
  split; [exact Hin|]. exists k. split; [exact Hn|].
  unfold declared_names. apply list_elem_of_omap. by exists r.
Qed.

Lemma declared_names_values objs refs n :
  n ∈ declared_names objs refs ->
  exists r, r ∈ dict_values (declared objs refs) /\ name_at objs r = Some n.
Proof.
  intros Hn.
  assert (Hk : n ∈ (declared objs refs).*1).
  { unfold declared. apply declare_into_keys. by right. }
  apply list_elem_of_fmap in Hk as ([k r] & -> & Hin). simpl.
  exists r. split.
  - unfold dict_values. apply list_elem_of_In, in_map_iff.
    exists (k, r). split; [reflexivity|]. by apply list_elem_of_In.
  - unfold declared in Hin. apply declare_into_entries in Hin as [Hin|[_ H]].
    + by apply elem_of_nil in Hin.
    + exact H.
Qed.

(** A class with a registry, and no declared name in it: the registry is
    replaced by the old one with the new dict laid over it. *)
Lemma wrapped_registry_ok objs c refs old r :
  allocated objs refs -> carries_registry c old ->
  (forall n, n ∈ declared_names objs refs -> dict_contains old n = false) ->
  last (dict_values (declared objs refs)) = Some r ->
  let c' := install objs r
              (class_setattr c "takes_config"
                 (ARegistry (dict_merge old (declared objs refs)))) in
  wrapped (ArgOption <$> refs) (mkRegState objs c)
  = (Ok c', mkRegState (stamped (cls_name c) objs refs) c').
Proof.
  intros Hall Hreg Hfree Hlast c'. unfold wrapped.
  eapply bind_ok_eq; [by apply declare_options_ok|].
  cbv beta zeta. cbn [fst snd].
  eapply bind_ok_eq; [by apply nonempty_takes_config_some|].
  cbv beta iota. fold (declared objs refs).
  eapply bind_ok_eq.
  { eapply bind_ok_eq; [|reflexivity].
    apply check_collisions_ok.
    apply Forall_forall. intros r' Hr'.
    apply declared_values in Hr' as (Hin & k & Hk & Hdecl).
    unfold name_at in Hk. destruct (objs !! r') as [o|] eqn:Ho; [|discriminate].
    injection Hk as <-.
    destruct (stamped_lookup (cls_name c) refs _ _ _ Ho) as (o' & Ho' & Hn & _).
    exists o'. split; [exact Ho'|]. rewrite Hn. by apply Hfree. }
  rewrite Hlast. cbv beta iota. cbn [objects plugin_class].
  etrans; [apply wrapped_finish|].
  - apply stamped_is_Some. unfold allocated in Hall.
    rewrite Forall_forall in Hall. apply Hall.
    apply (declared_values objs refs r).
    apply last_Some in Hlast as [l' ->]. apply elem_of_app. right. left.
  - rewrite install_stamped. reflexivity.
Qed.

(** A class with a registry, and a declared name in it: the call raises,
    and the class keeps the registry it had. *)
Lemma wrapped_registry_collision objs c refs old :
  allocated objs refs -> carries_registry c old ->
  (exists n, n ∈ declared_names objs refs /\ dict_contains old n = true) ->
  exists n, n ∈ declared_names objs refs /\ dict_contains old n = true /\
    wrapped (ArgOption <$> refs) (mkRegState objs c)
    = (Raise (RuntimeError ("Attempt to specify option " +:+ n +:+ " twice")),
       mkRegState (stamped (cls_name c) objs refs) c).
Proof.
  intros Hall Hreg (n & Hn & Hc).
  set (objs' := stamped (cls_name c) objs refs).
  assert (Hvalues : allocated objs' (dict_values (declared objs refs))).
  { apply Forall_forall. intros r Hr. apply declared_values in Hr as [Hin _].
    apply stamped_is_Some. unfold allocated in Hall.
    rewrite Forall_forall in Hall. by apply Hall. }
  assert (Hex : Exists (fun r => exists o, objs' !! r = Some o /\
                                  dict_contains old (name o) = true)
                       (dict_values (declared objs refs))).
  { apply Exists_exists.
    destruct (declared_names_values _ _ _ Hn) as (r & Hr & Hname).
    exists r. split; [exact Hr|].
    unfold name_at in Hname. destruct (objs !! r) as [o|] eqn:Ho; [|discriminate].
    injection Hname as <-.
    destruct (stamped_lookup (cls_name c) refs _ _ _ Ho) as (o' & Ho' & Hn' & _).
    exists o'. split; [exact Ho'|]. by rewrite Hn'. }
  destruct (check_collisions_raise _ old
              (match last refs with Some r => Some r | None => None end)
              objs' c Hvalues Hex)
    as (r & o' & Hin & Ho' & Hc' & Hrun).
  exists (name o'). split; [|split; [exact Hc'|]].
  - apply declared_values in Hin as (Hin & k & Hk & Hdecl).
    unfold name_at in Hk. destruct (objs !! r) as [o|] eqn:Ho; [|discriminate].
    injection Hk as <-.
    destruct (stamped_lookup (cls_name c) refs _ _ _ Ho) as (o2 & Ho2 & Hn2 & _).
    fold objs' in Ho2. rewrite Ho' in Ho2. injection Ho2 as <-.
    by rewrite Hn2.
  - unfold wrapped.
    eapply bind_ok_eq; [by apply declare_options_ok|].
    cbv beta zeta. cbn [fst snd].
    eapply bind_ok_eq; [by apply nonempty_takes_config_some|].
    cbv beta iota. fold (declared objs refs). fold objs'.
    apply bind_raise_eq. apply bind_raise_eq. exact Hrun.
Qed.

(** No options at all: the registry is assigned all the same, and then the
    variable [opt] is read without ever having been bound. *)
Lemma wrapped_nil objs c :
  (forall r, class_lookup c "takes_config" <> Some (AOption r)) ->
  wrapped [] (mkRegState objs c)
  = (Raise (UnboundLocalError
       "cannot access local variable 'opt' where it is not associated with a value"),
     mkRegState objs
       (class_setattr c "takes_config"
          (ARegistry match class_lookup c "takes_config" with
                     | Some (ARegistry old) => old
                     | _ => []
                     end))).
Proof.
  intros Hreg. unfold wrapped.
  eapply bind_ok_eq; [reflexivity|]. cbv beta zeta. cbn [fst snd].
  destruct (class_lookup c "takes_config") as [[old|r]|] eqn:Hl.
  - destruct old as [|e old].
    + eapply bind_ok_eq; [by apply nonempty_takes_config_none; right|].
      reflexivity.
    + eapply bind_ok_eq;
        [by apply (nonempty_takes_config_some _ _ (e :: old))|].
      reflexivity.
  - by destruct (Hreg r).
  - eapply bind_ok_eq; [by apply nonempty_takes_config_none; left|].
    reflexivity.
Qed.

(** At least one option, each at a reference that is allocated: the new
    dict is not empty, so the variable [opt] ends up bound. *)
Lemma declared_last objs refs :
  allocated objs refs -> refs <> [] ->
  exists r, last (dict_values (declared objs refs)) = Some r /\ r ∈ refs.
Proof.
  intros Hall Hne. destruct refs as [|r0 refs]; [done|].
  apply Forall_cons in Hall as Hall'. destruct Hall' as [[o Ho] _].
  assert (Hn : name o ∈ declared_names objs (r0 :: refs)).
  { unfold declared_names. apply list_elem_of_omap. exists r0.
    split; [left|]. unfold name_at. by rewrite Ho. }
  destruct (declared_names_values _ _ _ Hn) as (r1 & Hr1 & _).
  assert (Hsome : is_Some (last (dict_values (declared objs (r0 :: refs))))).
  { apply last_is_Some. intros E. rewrite E in Hr1. by apply elem_of_nil in Hr1. }
  destruct Hsome as [r Hr]. exists r. split; [exact Hr|].
  apply (declared_values objs (r0 :: refs) r).
  apply last_Some in Hr as [l' ->]. apply elem_of_app. right. left.
Qed.

Lemma declared_contains objs refs k :
  dict_contains (declared objs refs) k = true <-> k ∈ declared_names objs refs.
Proof.
  rewrite dict_contains_true. unfold declared, declared_names.
  rewrite declare_into_keys. split; [|by right].
  intros [H|H]; [by apply elem_of_nil in H|exact H].
Qed.

Lemma declared_NoDup objs refs : NoDup (declared objs refs).*1.
Proof. apply declare_into_NoDup. constructor. Qed.

(** [Config.__set_name__] applies the same check to the one name it
    registers. *)
Lemma Config_set_name_collision objs c self o name0 old :
  objs !! self = Some o -> carries_registry c old ->
  dict_contains old name0 = true ->
  exists objs',
    Config_set_name self name0 (mkRegState objs c)
    = (Raise (RuntimeError
                ("Attempt to specify option " +:+ name0 +:+ " twice")),
       mkRegState objs' c) /\
    (name <$> objs' !! self) = Some name0 /\
    (taken_by <$> objs' !! self) = Some (Some (cls_name c)).
Proof.
  intros Ho Hreg Hc. eexists. split.
  - unfold Config_set_name.
    eapply bind_ok_eq.
    { unfold deref. cbn [objects]. by rewrite Ho. }
    eapply bind_ok_eq; [reflexivity|].
    eapply bind_ok_eq; [reflexivity|].
    eapply bind_ok_eq; [reflexivity|]. cbv beta zeta.
    eapply bind_ok_eq; [by apply nonempty_takes_config_some|].
    cbv beta iota. rewrite Hc. reflexivity.
  - cbn [objects plugin_class]. rewrite !lookup_alter_eq, Ho. by split.
Qed.

(** C3, amended.  A call of [takes_config] on a class that carries a
    registry with options raises "Attempt to specify option <name> twice"
    whenever one of the names it declares is in that registry, whether the
    registry is the class's own or comes from an ancestor; the class then
    keeps the registry it had.  When no declared name is in it, the call
    returns, having stored as the registry of the class the old registry
    with the newly declared options laid over it (after which at most the
    installation of one attribute-bound option follows).  On a class that
    carries no registry the newly declared options become the registry. *)
Theorem takes_config_collision objs c refs :
  allocated objs refs ->
  (forall old, carries_registry c old ->
     (exists n, n ∈ declared_names objs refs /\ dict_contains old n = true) ->
     exists n, n ∈ declared_names objs refs /\ dict_contains old n = true /\
       takes_config (ArgOption <$> refs) (mkRegState objs c)
       = (Raise (RuntimeError
                   ("Attempt to specify option " +:+ n +:+ " twice")),
          mkRegState (stamped (cls_name c) objs refs) c)) /\
  (forall old, carries_registry c old ->
     (forall n, n ∈ declared_names objs refs -> dict_contains old n = false) ->
     refs <> [] ->
     let merged := dict_merge old (declared objs refs) in
     (exists r, r ∈ refs /\
        let c' := install objs r
                    (class_setattr c "takes_config" (ARegistry merged)) in
        takes_config (ArgOption <$> refs) (mkRegState objs c)
        = (Ok c', mkRegState (stamped (cls_name c) objs refs) c')) /\
     (forall k, dict_get merged k =
                  match dict_get (declared objs refs) k with
                  | Some r => Some r
                  | None => dict_get old k
                  end) /\
     (forall k, dict_contains (declared objs refs) k = true <->
                k ∈ declared_names objs refs)) /\
  (carries_no_registry c -> refs <> [] ->
     exists r, r ∈ refs /\
       let c' := install objs r
                   (class_setattr c "takes_config"
                      (ARegistry (declared objs refs))) in
       takes_config (ArgOption <$> refs) (mkRegState objs c)
       = (Ok c', mkRegState (stamped (cls_name c) objs refs) c')).
Proof.
  intros Hall. split; [|split].
  - intros old Hreg Hcol. by apply wrapped_registry_collision.
  - intros old Hreg Hfree Hne merged. split; [|split].
    + destruct (declared_last objs refs Hall Hne) as (r & Hlast & Hin).
      exists r. split; [exact Hin|].
      by apply wrapped_registry_ok.
    + intros k. apply dict_get_merge. apply declared_NoDup.
    + intros k. apply declared_contains.
  - intros Hno Hne. apply last_is_Some in Hne as [r Hr].
    exists r. split.
    + apply last_Some in Hr as [l' ->]. apply elem_of_app. right. left.
    + by apply wrapped_no_registry.
Qed.

(** C8, amended.  When the names of the options differ from one another,
    or the class carries no registry, and the call returns, the namespace
    of the class is the one it had with [takes_config] assigned and, if and
    only if the last option of the call is a [Config], that option bound
    under its name: nothing else is installed, so no [Config] at an earlier
    place in the call is. *)
Theorem takes_config_installs_last objs c refs c' s' :
  allocated objs refs ->
  NoDup (declared_names objs refs) \/ carries_no_registry c ->
  takes_config (ArgOption <$> refs) (mkRegState objs c) = (Ok c', s') ->
  exists r o reg,
    last refs = Some r /\ objs !! r = Some o /\
    cls_own c' =
      if is_Config o
      then <[name o := AOption r]> (<["takes_config" := ARegistry reg]> (cls_own c))
      else <["takes_config" := ARegistry reg]> (cls_own c).
Proof.
  intros Hall Hcase Hrun. unfold takes_config in Hrun.
  destruct refs as [|r0 refs0] eqn:Erefs.
  { (* no option: the call cannot return *)
    exfalso. revert Hrun. unfold wrapped.
    destruct (nonempty_takes_config_cases objs c)
      as [(old & _ & H)|[H|[e H]]].
    - erewrite bind_ok_eq; [|reflexivity|]; [|cbv beta zeta;
        eapply bind_ok_eq; [exact H|reflexivity]]. discriminate.
    - erewrite bind_ok_eq; [|reflexivity|]; [|cbv beta zeta;
        eapply bind_ok_eq; [exact H|reflexivity]]. discriminate.
    - erewrite bind_ok_eq; [|reflexivity|]; [|cbv beta zeta;
        eapply bind_raise_eq; exact H]. discriminate. }
  rewrite <- Erefs in *.
  assert (Hne : refs <> []) by (rewrite Erefs; discriminate).
  destruct (proj2 (last_is_Some refs) Hne) as [r Hlast].
  assert (Hin : r ∈ refs).
  { apply last_Some in Hlast as [l' ->]. apply elem_of_app. right. left. }
  assert (Hr : is_Some (objs !! r)).
  { unfold allocated in Hall. rewrite Forall_forall in Hall. by apply Hall. }
  destruct Hr as [o Ho].
  assert (Hinstall : forall reg,
    cls_own (install objs r (class_setattr c "takes_config" (ARegistry reg)))
    = if is_Config o
      then <[name o := AOption r]> (<["takes_config" := ARegistry reg]> (cls_own c))
      else <["takes_config" := ARegistry reg]> (cls_own c)).
  { intros reg. unfold install. rewrite Ho. by destruct (is_Config o). }
  destruct (nonempty_takes_config_cases (stamped (cls_name c) objs refs) c)
    as [(old & Hreg & _)|[H|[e H]]].
  - (* a registry with options *)
    destruct Hcase as [Hnd|Hno].
    2:{ destruct Hreg as [Hl Hold]. destruct Hno as [Hl'|Hl'];
          rewrite Hl in Hl'; [discriminate|]. by injection Hl' as ->. }
    destruct (decide (Exists (fun n => dict_contains old n = true)
                             (declared_names objs refs))) as [Hex|Hnex].
    + apply Exists_exists in Hex.
      destruct (wrapped_registry_collision objs c refs old Hall Hreg Hex)
        as (n & _ & _ & Hraise).
      rewrite Hraise in Hrun. discriminate.
    + assert (Hvalues : dict_values (declared objs refs) = refs).
      { unfold declared. rewrite declare_into_values; [reflexivity| |exact Hnd].
        unfold allocated in Hall. eapply Forall_impl; [exact Hall|].
        intros r' [o' Ho']. unfold name_at. rewrite Ho'. by eexists. }
      rewrite wrapped_registry_ok with (old := old) (r := r) in Hrun;
        [| assumption | assumption | | by rewrite Hvalues].
      * injection Hrun as <- _. exists r, o, (dict_merge old (declared objs refs)).
        split; [exact Hlast|]. split; [exact Ho|]. apply Hinstall.
      * intros n Hn. destruct (dict_contains old n) eqn:E; [|reflexivity].
        exfalso. apply Hnex. apply Exists_exists. by exists n.
  - (* no registry with options *)
    rewrite wrapped_no_registry' with (r := r) in Hrun by assumption.
    injection Hrun as <- _. exists r, o, (declared objs refs).
    split; [exact Hlast|]. split; [exact Ho|]. apply Hinstall.
  - rewrite (wrapped_lookup_raises _ _ _ _ Hall H) in Hrun. discriminate.
Qed.

(** C10, amended.  Applied with no option at all, to a class whose
    [takes_config], if it is bound at all, is bound to a registry, the
    decorator always fails with the error of an unbound local variable and
    never returns the class.  The assignment of [takes_config] precedes the
    failure: the class is left with a registry of its own, empty if it
    carried none or an empty one, and else equal to the one it carried. *)
Theorem takes_config_no_options objs c :
  (forall r, class_lookup c "takes_config" <> Some (AOption r)) ->
  exists msg,
    takes_config [] (mkRegState objs c)
    = (Raise (UnboundLocalError msg),
       mkRegState objs
         (class_setattr c "takes_config"
            (ARegistry match class_lookup c "takes_config" with
                       | Some (ARegistry old) => old
                       | _ => []
                       end))).
Proof.
  intros Hreg. eexists. unfold takes_config. by apply wrapped_nil.
Qed.

End Registration.

(** C3 as it was stated also asks for the error when one call declares a
    name twice.  The call below declares [a] twice, on a class without a
    registry and on a class that has inherited one: both times it returns,
    and the registry holds the second of the two options. *)
Lemma takes_config_same_step_duplicate :
  name_at Examples.store 0%nat = Some "a" /\
  name_at Examples.store 2%nat = Some "a" /\
  (exists c' s',
     takes_config [ArgOption 0%nat; ArgOption 2%nat]
       (mkRegState Examples.store Examples.Plugin) = (Ok c', s') /\
     class_lookup c' "takes_config" = Some (ARegistry [("a", 2%nat)])) /\
  (exists c' s',
     takes_config [ArgOption 0%nat; ArgOption 2%nat]
       (mkRegState Examples.store Examples.Child) = (Ok c', s') /\
     class_lookup c' "takes_config"
     = Some (ARegistry [("z", 3%nat); ("a", 2%nat)])).
Proof.
  split; [reflexivity|]. split; [reflexivity|]. split.
  - eexists _, _. split; vm_compute; reflexivity.
  - eexists _, _. split; vm_compute; reflexivity.
Qed.

Lemma takes_config_collision_witness :
  (exists n, n ∈ declared_names Examples.store [3%nat] /\
     dict_contains [("z", 3%nat)] n = true /\
     takes_config [ArgOption 3%nat] (mkRegState Examples.store Examples.Child)
     = (Raise (RuntimeError ("Attempt to specify option " +:+ n +:+ " twice")),
        mkRegState (stamped "Child" Examples.store [3%nat]) Examples.Child)) /\
  (exists r, r ∈ [0%nat; 1%nat] /\
     let c' := install Examples.store r
                 (class_setattr Examples.Child "takes_config"
                    (ARegistry (dict_merge [("z", 3%nat)]
                                  (declared Examples.store [0%nat; 1%nat])))) in
     takes_config [ArgOption 0%nat; ArgOption 1%nat]
       (mkRegState Examples.store Examples.Child)
     = (Ok c', mkRegState (stamped "Child" Examples.store [0%nat; 1%nat]) c')) /\
  (exists r, r ∈ [0%nat] /\
     let c' := install Examples.store r
                 (class_setattr Examples.Plugin "takes_config"
                    (ARegistry (declared Examples.store [0%nat]))) in
     takes_config [ArgOption 0%nat] (mkRegState Examples.store Examples.Plugin)
     = (Ok c', mkRegState (stamped "Plugin" Examples.store [0%nat]) c')).
Proof.
  assert (Hreg : carries_registry Examples.Child [("z", 3%nat)]).
  { split; [vm_compute; reflexivity|discriminate]. }
  split; [|split].
  - destruct (takes_config_collision Examples.store Examples.Child [3%nat])
      as (Hraise & _ & _).
    { repeat constructor. by eexists. }
    apply (Hraise [("z", 3%nat)] Hreg).
    exists "z". split; [vm_compute; left|reflexivity].
  - destruct (takes_config_collision Examples.store Examples.Child
                [0%nat; 1%nat]) as (_ & Hmerge & _).
    { repeat constructor; by eexists. }
    destruct (Hmerge [("z", 3%nat)] Hreg) as (Hrun & _ & _);
      [|discriminate|exact Hrun].
    intros n Hn. vm_compute in Hn.
    apply elem_of_cons in Hn as [->|Hn]; [reflexivity|].
    apply elem_of_cons in Hn as [->|Hn]; [reflexivity|].
    by apply elem_of_nil in Hn.
  - destruct (takes_config_collision Examples.store Examples.Plugin [0%nat])
      as (_ & _ & Hnew).
    { repeat constructor. by eexists. }
    apply Hnew; [|discriminate]. left. reflexivity.
Defined.

(** C8 as it was stated looks at the last option of the call only.  On a
    class that has inherited a registry, the call below passes an
    [Option], a [Config] and again an [Option] with the name of the first:
    the last option is no [Config], and yet the class gains the [Config] of
    the second place under its name [b]. *)
Lemma takes_config_installs_earlier_Config :
  is_Config <$> Examples.store !! 2%nat = Some false /\
  is_Config <$> Examples.store !! 1%nat = Some true /\
  class_lookup Examples.Child "b" = None /\
  (exists c' s',
     takes_config [ArgOption 0%nat; ArgOption 1%nat; ArgOption 2%nat]
       (mkRegState Examples.store Examples.Child) = (Ok c', s') /\
     class_lookup c' "b" = Some (AOption 1%nat)).
Proof.
  split; [reflexivity|]. split; [reflexivity|]. split; [reflexivity|].
  eexists _, _. split; vm_compute; reflexivity.
Qed.

Lemma takes_config_installs_last_witness :
  exists c' s',
    takes_config [ArgOption 0%nat; ArgOption 1%nat]
      (mkRegState Examples.store Examples.Child) = (Ok c', s') /\
    exists r o reg,
      last [0%nat; 1%nat] = Some r /\ Examples.store !! r = Some o /\
      cls_own c' =
        if is_Config o
        then <[name o := AOption r]>
               (<["takes_config" := ARegistry reg]> (cls_own Examples.Child))
        else <["takes_config" := ARegistry reg]> (cls_own Examples.Child).
Proof.
  eexists _, _. split; [vm_compute; reflexivity|].
  eapply (takes_config_installs_last Examples.store Examples.Child
            [0%nat; 1%nat]).
  - repeat constructor; by eexists.
  - left. vm_compute. apply NoDup_cons_2; [|apply NoDup_singleton].
    intros H. apply list_elem_of_singleton in H. discriminate H.
  - vm_compute. reflexivity.
Defined.

(** C10 as it was stated says that no empty registry is installed.  The
    class below carries no registry; the call without options fails, and
    the class is left with an empty registry. *)
Lemma takes_config_no_options_installs_registry :
  class_lookup Examples.Plugin "takes_config" = None /\
  exists msg s',
    takes_config [] (mkRegState Examples.store Examples.Plugin)
    = (Raise (UnboundLocalError msg), s') /\
    class_lookup (plugin_class s') "takes_config" = Some (ARegistry []).
Proof.
  split; [reflexivity|]. eexists _, _. split; vm_compute; reflexivity.
Qed.

Lemma takes_config_no_options_witness :
  exists msg,
    takes_config [] (mkRegState Examples.store Examples.Child)
    = (Raise (UnboundLocalError msg),
       mkRegState Examples.store
         (class_setattr Examples.Child "takes_config"
            (ARegistry [("z", 3%nat)]))).
Proof.
  apply (takes_config_no_options Examples.store Examples.Child).
  intros r. vm_compute. discriminate.
Defined.

(** * Further properties *)

(** ** [sorted_bounds], whatever its flags *)

Section Bounds.

#[local] Instance pair_le_transitive : Transitive pair_le.
Proof. intros a b c. unfold pair_le. lia. Qed.

#[local] Instance pair_le_is_total : Total pair_le.
Proof. intros a b. unfold pair_le. lia. Qed.

#[local] Instance pair_le_antisymmetric : AntiSymm (=) pair_le.
Proof.
  intros [a1 a2] [b1 b2]. unfold pair_le. simpl. intros H1 H2. f_equal; lia.
Qed.

Lemma chunked2_flatten (l : list Z) :
  Nat.even (List.length l) = true ->
  concat (map (fun b => [b.1; b.2]) (chunked2 l)) = l /\
  (List.length (chunked2 l) * 2 = List.length l)%nat.
Proof.
  induction l as [|a|a b l IH] using list_ind_by_two; intros H.
  - by split.
  - discriminate H.
  - simpl in H. destruct (IH H) as [IH1 IH2]. simpl. split.
    + by rewrite IH1.
    + lia.
Qed.

Lemma accumulate_from_length total l :
  List.length (accumulate_from total l) = List.length l.
Proof. revert total. induction l as [|x l IH]; intros total; simpl; auto. Qed.

Lemma accumulate_length l : List.length (accumulate l) = List.length l.
Proof. destruct l; simpl; [reflexivity|]. by rewrite accumulate_from_length. Qed.

(** A sample is the list of pairs cut from the sorted draw, as it stands. *)
Lemma sorted_bounds_chunks list_of_set disjoint remove_duplicates drawn bounds :
  sorted_bounds list_of_set disjoint remove_duplicates drawn = Some bounds ->
  let s := if disjoint then accumulate drawn else drawn in
  Nat.even (List.length s) = true /\
  bounds = chunked2 (sorted_ints s) /\
  Forall (fun p => p.1 < p.2) bounds /\
  StronglySorted before bounds.
Proof.
  intros H. cbv zeta. unfold sorted_bounds in H. cbv zeta in H.
  set (s := if disjoint then accumulate drawn else drawn) in *.
  destruct (Nat.even (List.length s)) eqn:Heven; simpl in H; [|discriminate].
  set (x := chunked2 (sorted_ints s)) in *.
  destruct (forallb (fun a => negb (a.1 =? a.2)) x) eqn:Hnz; simpl in H;
    [|discriminate].
  assert (Hx : StronglySorted before x /\ Forall (fun p => p.1 <= p.2) x).
  { apply chunked2_sorted. apply StronglySorted_merge_sort; apply _. }
  destruct Hx as [Hbefore Hle].
  pose proof (forallb_nonempty_ranges _ Hnz Hle) as Hlt.
  assert (Hsame : sorted_pairs x = x).
  { apply (StronglySorted_unique pair_le).
    - apply StronglySorted_merge_sort; apply _.
    - by apply before_pair_le.
    - apply merge_sort_Permutation. }
  rewrite Hsame in H.
  destruct (remove_duplicates && negb (bool_decide (x = list_of_set x)));
    [discriminate|].
  injection H as <-. auto.
Qed.

(** X1.  Also without [disjoint], every sample of [sorted_bounds] is
    sorted, has no empty range, and each of its ranges ends before the next
    one begins. *)
Theorem sorted_bounds_never_overlap list_of_set disjoint remove_duplicates
    drawn bounds :
  sorted_bounds list_of_set disjoint remove_duplicates drawn = Some bounds ->
  Sorted pair_le bounds /\
  Forall (fun p => p.1 < p.2) bounds /\
  (forall i j a b, (i < j)%nat ->
     bounds !! i = Some a -> bounds !! j = Some b -> a.2 <= b.1).
Proof.
  intros H. apply sorted_bounds_sample in H as (Hbefore & Hlt & Hsorted).
  split; [by apply StronglySorted_Sorted|]. split; [exact Hlt|].
  intros i j a b Hij Hi Hj.
  exact (StronglySorted_lookup_lt _ _ _ _ _ _ Hbefore Hij Hi Hj).
Qed.

Lemma sorted_bounds_flatten list_of_set disjoint remove_duplicates
    drawn bounds :
  sorted_bounds list_of_set disjoint remove_duplicates drawn = Some bounds ->
  concat (map (fun b => [b.1; b.2]) bounds)
  = sorted_ints (if disjoint then accumulate drawn else drawn) /\
  (List.length bounds * 2 = List.length drawn)%nat.
Proof.
  intros H. apply sorted_bounds_chunks in H as (Heven & -> & _ & _).
  set (s := if disjoint then accumulate drawn else drawn) in *.
  assert (Hlen : List.length (sorted_ints s) = List.length s).
  { apply Permutation_length, merge_sort_Permutation. }
  assert (Hs : List.length s = List.length drawn).
  { unfold s. destruct disjoint; [apply accumulate_length|reflexivity]. }
  destruct (chunked2_flatten (sorted_ints s)) as [H1 H2].
  { by rewrite Hlen. }
  split; [exact H1|]. by rewrite H2, Hlen.
Qed.

(** X2.  The end points of a sample, read in order, are the sorted draw
    (of running sums, with [disjoint]): a sample has half as many bounds as
    the draw has numbers, and no end point that was not drawn. *)
Theorem sorted_bounds_endpoints list_of_set disjoint remove_duplicates
    drawn bounds :
  sorted_bounds list_of_set disjoint remove_duplicates drawn = Some bounds ->
  concat (map (fun b => [b.1; b.2]) bounds)
  = sorted_ints (if disjoint then accumulate drawn else drawn) /\
  (List.length bounds * 2 = List.length drawn)%nat.
Proof. apply sorted_bounds_flatten. Qed.

Lemma accumulate_from_range (m total : Z) (l : list Z) :
  Forall (fun x => 0 <= x <= m) l ->
  Forall (fun y => total <= y <= total + m * Z.of_nat (List.length l))
         (accumulate_from total l).
Proof.
  revert total. induction l as [|x l IH]; intros total H; simpl.
  { constructor. }
  apply Forall_cons in H as [Hx H].
  constructor; [nia|].
  eapply Forall_impl; [exact (IH (total + x) H)|].
  simpl. intros y Hy. nia.
Qed.

Lemma accumulate_range (m : Z) (l : list Z) :
  Forall (fun x => 0 <= x <= m) l ->
  Forall (fun y => 0 <= y <= m * Z.of_nat (List.length l)) (accumulate l).
Proof.
  intros H. destruct l as [|x l]; simpl; [constructor|].
  apply Forall_cons in H as [Hx H]. constructor; [nia|].
  eapply Forall_impl; [exact (accumulate_from_range m x l H)|].
  simpl. intros y Hy. nia.
Qed.

(** X3.  When every drawn number lies between 0 and [m], the bounds of a
    sample lie between 0 and [m], and with [disjoint] between 0 and [m]
    times the length of the draw (the running sums go that far). *)
Theorem sorted_bounds_range list_of_set disjoint remove_duplicates
    drawn bounds (m : Z) :
  Forall (fun x => 0 <= x <= m) drawn ->
  sorted_bounds list_of_set disjoint remove_duplicates drawn = Some bounds ->
  Forall (fun b => 0 <= b.1 /\
                   b.2 <= if disjoint then m * Z.of_nat (List.length drawn)
                          else m) bounds.
Proof.
  intros Hm H. pose proof H as Hchunks.
  apply sorted_bounds_chunks in Hchunks as (_ & _ & Hlt & _).
  apply sorted_bounds_flatten in H as [Hflat _].
  set (top := if disjoint then m * Z.of_nat (List.length drawn) else m).
  assert (Hs : Forall (fun y => 0 <= y <= top)
                  (sorted_ints (if disjoint then accumulate drawn else drawn))).
  { unfold sorted_ints. rewrite merge_sort_Permutation. unfold top.
    destruct disjoint; [by apply accumulate_range|exact Hm]. }
  rewrite <- Hflat in Hs. clear Hflat.
  induction bounds as [|b bounds IH]; [constructor|].
  simpl in Hs. apply Forall_cons in Hs as [H1 Hs].
  apply Forall_cons in Hs as [H2 Hs].
  apply Forall_cons in Hlt as [Hb Hlt].
  constructor; [lia|by apply IH].
Qed.

(** X4.  The flag [remove_duplicates] never changes a sample: it can only
    reject a draw, and the samples without it are free of duplicates as
    they are. *)
Theorem sorted_bounds_remove_duplicates list_of_set disjoint drawn bounds :
  (sorted_bounds list_of_set disjoint true drawn = Some bounds ->
   sorted_bounds list_of_set disjoint false drawn = Some bounds) /\
  (forall remove_duplicates,
     sorted_bounds list_of_set disjoint remove_duplicates drawn = Some bounds ->
     NoDup bounds).
Proof.
  split.
  - unfold sorted_bounds.
    destruct (negb (Nat.even _)); [done|].
    destruct (negb (forallb _ _)); [done|].
    simpl. by destruct (negb (bool_decide _)).
  - intros rd H. apply sorted_bounds_sample in H as (Hbefore & Hlt & _).
    apply NoDup_alt. intros i j a Hi Hj.
    rewrite Forall_forall in Hlt.
    assert (Ha : a.1 < a.2) by (apply Hlt; by eapply list_elem_of_lookup_2).
    destruct (Nat.lt_total i j) as [Hij|[->|Hij]]; [|done|].
    + pose proof (StronglySorted_lookup_lt _ _ _ _ _ _ Hbefore Hij Hi Hj) as Hb.
      unfold before in Hb. lia.
    + pose proof (StronglySorted_lookup_lt _ _ _ _ _ _ Hbefore Hij Hj Hi) as Hb.
      unfold before in Hb. lia.
Qed.

End Bounds.

(** ** [bounds_to_intervals] *)

Section Intervals.

Lemma bounds_to_intervals_lookup (bs : list (Z * Z)) (i : nat) :
  bounds_to_intervals bs !! i
  = (fun b => {| i_time := b.1; i_length := b.2 - b.1; i_dt := 1 |})
      <$> bs !! i.
Proof.
  unfold bounds_to_intervals. revert i.
  induction bs as [|b bs IH]; intros i; [reflexivity|].
  destruct i as [|i]; [reflexivity|]. apply IH.
Qed.

(** X5.  The bounds can be read back from the rows that
    [bounds_to_intervals] makes of them: a row begins at the left edge and
    its exclusive end is the right edge; there is one row for each bound,
    with the sampling step 1. *)
Theorem bounds_to_intervals_round_trip (bs : list (Z * Z)) :
  map (fun x => (i_time x, endtime x)) (bounds_to_intervals bs) = bs /\
  Forall (fun x => i_dt x = 1) (bounds_to_intervals bs).
Proof.
  unfold bounds_to_intervals. induction bs as [|[l r] bs [IH1 IH2]].
  { by split. }
  split.
  - simpl. unfold endtime at 1. simpl. f_equal; [f_equal; lia|exact IH1].
  - constructor; [reflexivity|exact IH2].
Qed.

(** X6.  The rows made of a sample of [sorted_bounds] (the strategies
    [sorted_intervals], [disjoint_sorted_intervals] and [fake_hits]) have
    a positive length each and come in order of time, each row ending
    before the next one begins. *)
Theorem sorted_intervals_ordered list_of_set disjoint remove_duplicates
    drawn bounds :
  sorted_bounds list_of_set disjoint remove_duplicates drawn = Some bounds ->
  Forall (fun x => 0 < i_length x) (bounds_to_intervals bounds) /\
  (forall i j x y, (i < j)%nat ->
     bounds_to_intervals bounds !! i = Some x ->
     bounds_to_intervals bounds !! j = Some y ->
     endtime x <= i_time y).
Proof.
  intros H. apply sorted_bounds_sample in H as (Hbefore & Hlt & _). split.
  - apply Forall_forall. intros x Hx.
    apply list_elem_of_lookup in Hx as [i Hi].
    rewrite bounds_to_intervals_lookup in Hi.
    destruct (bounds !! i) as [b|] eqn:Hb; [|discriminate].
    injection Hi as <-. simpl.
    rewrite Forall_forall in Hlt.
    assert (b.1 < b.2) by (apply Hlt; by eapply list_elem_of_lookup_2). lia.
  - intros i j x y Hij Hi Hj.
    rewrite bounds_to_intervals_lookup in Hi, Hj.
    destruct (bounds !! i) as [a|] eqn:Ha; [|discriminate].
    destruct (bounds !! j) as [b|] eqn:Hb; [|discriminate].
    injection Hi as <-. injection Hj as <-.
    pose proof (StronglySorted_lookup_lt _ _ _ _ _ _ Hbefore Hij Ha Hb) as Hab.
    unfold before in Hab. unfold endtime. simpl. lia.
Qed.

End Intervals.

(** ** [bounds_to_records] *)

Section Records.

(** *** Slices of an array of zeros *)

Lemma slice_bound_range (n i : Z) : 0 <= n -> 0 <= slice_bound n i <= n.
Proof. intros Hn. unfold slice_bound. destruct (Z.ltb_spec i 0); lia. Qed.

Lemma slice_bound_inside (n i : Z) : 0 <= i <= n -> slice_bound n i = i.
Proof. intros Hi. unfold slice_bound. destruct (Z.ltb_spec i 0); lia. Qed.

Lemma set_slice_length data start stop v :
  List.length (set_slice data start stop v) = List.length data.
Proof. unfold set_slice. apply length_imap. Qed.

Lemma zeros_length (n : Z) : List.length (zeros n) = Z.to_nat n.
Proof. unfold zeros. apply length_replicate. Qed.

(** The number of ones that a slice assignment leaves in zeros. *)
Lemma data_sum_indicator (s e : Z) (l : list Z) :
  Forall (fun x => x = 0) l ->
  data_sum (imap (fun i x => if (s <=? Z.of_nat i) && (Z.of_nat i <? e)
                             then 1 else x) l)
  = Z.max 0 (Z.min e (Z.of_nat (List.length l)) - Z.max s 0).
Proof.
  revert s e. induction l as [|x l IH]; intros s e Hl.
  { simpl. lia. }
  apply Forall_cons in Hl as [-> Hl].
  rewrite imap_cons. cbn [data_sum fold_right].
  fold (data_sum (imap ((fun i x => if (s <=? Z.of_nat i) && (Z.of_nat i <? e)
                                    then 1 else x) ∘ S) l)).
  rewrite (imap_ext _ (fun i x => if (s - 1 <=? Z.of_nat i)
                                     && (Z.of_nat i <? e - 1)
                                  then 1 else x)).
  2:{ intros i x _. unfold compose.
      destruct (Z.leb_spec s (Z.of_nat (S i))), (Z.ltb_spec (Z.of_nat (S i)) e),
               (Z.leb_spec (s - 1) (Z.of_nat i)), (Z.ltb_spec (Z.of_nat i) (e - 1));
        simpl; try reflexivity; lia. }
  rewrite IH by assumption.
  change (Z.of_nat 0) with 0. simpl List.length.
  destruct (Z.leb_spec s 0), (Z.ltb_spec 0 e); simpl; lia.
Qed.

Lemma set_slice_zeros_sum (n a b : Z) :
  0 <= n ->
  data_sum (set_slice (zeros n) a b 1)
  = Z.max 0 (slice_bound n b - slice_bound n a).
Proof.
  intros Hn. unfold set_slice. rewrite zeros_length, Z2Nat.id by exact Hn.
  rewrite data_sum_indicator.
  - rewrite zeros_length, Z2Nat.id by exact Hn.
    pose proof (slice_bound_range n a Hn). pose proof (slice_bound_range n b Hn).
    lia.
  - unfold zeros. apply Forall_forall. intros x Hx.
    by apply elem_of_replicate in Hx as [-> _].
Qed.

Lemma set_slice_lookup data start stop v (j : nat) :
  set_slice data start stop v !! j
  = (fun x => if (slice_bound (Z.of_nat (List.length data)) start <=? Z.of_nat j)
                 && (Z.of_nat j <? slice_bound (Z.of_nat (List.length data)) stop)
              then v else x) <$> data !! j.
Proof. unfold set_slice. apply list_lookup_imap. Qed.

(** *** The number of samples *)

Lemma fold_left_max_ge (rest : list Z) : forall a x,
  x ∈ a :: rest -> x <= fold_left Z.max rest a.
Proof.
  induction rest as [|y rest IH]; intros a x Hx; simpl.
  - apply list_elem_of_singleton in Hx. lia.
  - apply elem_of_cons in Hx as [->|Hx].
    + etrans; [|apply (IH (Z.max a y) (Z.max a y)); left]. lia.
    + apply elem_of_cons in Hx as [->|Hx].
      * etrans; [|apply (IH (Z.max a y) (Z.max a y)); left]. lia.
      * apply IH. by right.
Qed.

Lemma max_endpoint_ge (bs : list (Z * Z)) (b : Z * Z) :
  b ∈ bs -> b.1 <= max_endpoint bs /\ b.2 <= max_endpoint bs.
Proof.
  intros Hb. unfold max_endpoint.
  assert (H1 : b.1 ∈ concat (map (fun b => [b.1; b.2]) bs)).
  { apply list_elem_of_In, in_concat. exists [b.1; b.2]. split.
    - apply in_map_iff. exists b. split; [reflexivity|].
      by apply list_elem_of_In.
    - left. reflexivity. }
  assert (H2 : b.2 ∈ concat (map (fun b => [b.1; b.2]) bs)).
  { apply list_elem_of_In, in_concat. exists [b.1; b.2]. split.
    - apply in_map_iff. exists b. split; [reflexivity|].
      by apply list_elem_of_In.
    - right. left. reflexivity. }
  destruct (concat (map (fun b => [b.1; b.2]) bs)) as [|a rest].
  - by apply elem_of_nil in H1.
  - split; by apply fold_left_max_ge.
Qed.

Lemma n_samples_of_facts (bs : list (Z * Z)) :
  n_samples_of bs mod 2 = 0 /\
  (bs = [] -> n_samples_of bs = 0) /\
  (bs <> [] -> max_endpoint bs <= n_samples_of bs <= max_endpoint bs + 1) /\
  Forall (fun b => b.1 <= n_samples_of bs /\ b.2 <= n_samples_of bs) bs.
Proof.
  assert (Hrange : bs <> [] ->
            max_endpoint bs <= n_samples_of bs <= max_endpoint bs + 1).
  { intros Hne. destruct bs as [|b bs]; [done|]. unfold n_samples_of.
    destruct (Z.eqb_spec (max_endpoint (b :: bs) mod 2) 0); simpl; lia. }
  split; [|split; [|split]].
  - destruct bs as [|b bs]; [reflexivity|]. unfold n_samples_of.
    destruct (Z.eqb_spec (max_endpoint (b :: bs) mod 2) 0) as [E|E]; simpl.
    + exact E.
    + pose proof (Z.mod_pos_bound (max_endpoint (b :: bs)) 2 ltac:(lia)).
      rewrite Z.add_mod by lia.
      replace (max_endpoint (b :: bs) mod 2) with 1 by lia. reflexivity.
  - by intros ->.
  - exact Hrange.
  - apply Forall_forall. intros b Hb.
    assert (Hne : bs <> []) by (intros ->; by apply elem_of_nil in Hb).
    destruct (max_endpoint_ge bs b Hb). specialize (Hrange Hne). lia.
Qed.

(** X7.  The number of samples of the records is even, is 0 when there is
    no bound, and otherwise is the largest end point or one more: no bound
    reaches beyond it. *)
Theorem n_samples_of_even (bs : list (Z * Z)) :
  n_samples_of bs mod 2 = 0 /\
  (bs = [] -> n_samples_of bs = 0) /\
  (bs <> [] -> max_endpoint bs <= n_samples_of bs <= max_endpoint bs + 1) /\
  Forall (fun b => b.1 <= n_samples_of bs /\ b.2 <= n_samples_of bs) bs.
Proof. apply n_samples_of_facts. Qed.

(** *** One record *)

(** The assertion on the sum of the data holds exactly for the bounds that
    are neither of negative length nor longer than the record. *)
Lemma fill_record_sum (n l r : Z) :
  0 <= n ->
  data_sum (set_slice (zeros n) ((n - (r - l)) / 2)
              ((n - (r - l)) / 2 + (r - l)) 1) = r - l
  <-> 0 <= r - l <= n.
Proof.
  intros Hn. rewrite set_slice_zeros_sum by exact Hn.
  pose proof (Z.div_mod (n - (r - l)) 2 ltac:(lia)) as Hdiv.
  pose proof (Z.mod_pos_bound (n - (r - l)) 2 ltac:(lia)) as Hmod.
  set (pad := (n - (r - l)) / 2) in *.
  unfold slice_bound.
  destruct (Z.ltb_spec pad 0), (Z.ltb_spec (pad + (r - l)) 0); lia.
Qed.

Lemma fill_record_ok n single_channel i (b : Z * Z) :
  0 <= n -> 0 <= b.2 - b.1 <= n ->
  fill_record n single_channel i b = inr (filled n single_channel i b).
Proof.
  intros Hn Hb. destruct b as [l r]. unfold fill_record, filled. simpl in *.
  apply (fill_record_sum n l r Hn) in Hb. rewrite Hb.
  by rewrite Z.eqb_refl.
Qed.

Lemma fill_record_fails n single_channel i (b : Z * Z) :
  0 <= n -> ~ (0 <= b.2 - b.1 <= n) ->
  fill_record n single_channel i b = inl AssertionError.
Proof.
  intros Hn Hb. destruct b as [l r]. unfold fill_record. simpl in *.
  destruct (Z.eqb_spec
              (data_sum (set_slice (zeros n) ((n - (r - l)) / 2)
                           ((n - (r - l)) / 2 + (r - l)) 1)) (r - l))
    as [E|E]; [|reflexivity].
  apply (fill_record_sum n l r Hn) in E. contradiction.
Qed.

(** *** The loop *)

Lemma fill_records_ok n single_channel (bs : list (Z * Z)) : forall i,
  0 <= n -> Forall (fun b => 0 <= b.2 - b.1 <= n) bs ->
  fill_records n single_channel i bs
  = inr (imap (fun k b => filled n single_channel (i + k) b) bs).
Proof.
  induction bs as [|b bs IH]; intros i Hn Hall; [reflexivity|].
  apply Forall_cons in Hall as [Hb Hall].
  cbn [fill_records]. rewrite fill_record_ok, IH by assumption.
  rewrite imap_cons. rewrite Nat.add_0_r. do 2 f_equal.
  apply imap_ext. intros k x _. unfold compose. f_equal. lia.
Qed.

Lemma fill_records_fails n single_channel (bs : list (Z * Z)) : forall i,
  0 <= n -> Exists (fun b => ~ (0 <= b.2 - b.1 <= n)) bs ->
  fill_records n single_channel i bs = inl AssertionError.
Proof.
  induction bs as [|b bs IH]; intros i Hn Hex.
  { by apply Exists_nil in Hex. }
  cbn [fill_records].
  destruct (decide (0 <= b.2 - b.1 <= n)) as [Hb|Hb].
  - rewrite fill_record_ok by assumption.
    apply Exists_cons in Hex as [Hex|Hex]; [contradiction|].
    by rewrite IH.
  - by rewrite fill_record_fails.
Qed.

Lemma remove_dups_length_NoDup (l : list Z) :
  NoDup l -> List.length (remove_dups l) = List.length l.
Proof.
  induction 1 as [|x l Hx _ IH]; [reflexivity|].
  simpl. destruct (decide_rel elem_of x l); [contradiction|].
  simpl. by rewrite IH.
Qed.

Lemma filled_channels n (bs : list (Z * Z)) :
  map r_channel (imap (fun k b => filled n false (0 + k) b) bs)
  = Z.of_nat <$> seq 0 (List.length bs).
Proof.
  change (map r_channel ?l) with (r_channel <$> l).
  rewrite fmap_imap.
  rewrite (imap_ext _ (fun k _ => Z.of_nat k)) by (intros; reflexivity).
  rewrite imap_seq_0. reflexivity.
Qed.

(** X8.  In the default mode [bounds_to_records] returns exactly when no
    bound has a negative length or is longer than the number of samples;
    otherwise its own assertion on the sum of the data fails (a negative
    number of samples is refused before).  When it returns, there is one
    record for each bound, in the same order: it begins at the left edge,
    has the sampling step 1 and the channel of its place (channel 0 with
    [single_channel]), and its data are zeros around one run of ones, as
    long as the bound and placed after the padding. *)
Theorem bounds_to_records_default (bs : list (Z * Z)) (single_channel : bool) :
  let n := n_samples_of bs in
  (0 <= n -> Forall (fun b => 0 <= b.2 - b.1 <= n) bs ->
   exists recs,
     bounds_to_records bs false single_channel = inr recs /\
     List.length recs = List.length bs /\
     forall k b, bs !! k = Some b ->
       exists rec, recs !! k = Some rec /\
         let pad := (n - (b.2 - b.1)) / 2 in
         r_time rec = b.1 /\ r_dt rec = 1 /\
         r_channel rec = (if single_channel then 0 else Z.of_nat k) /\
         r_length rec = pad + (b.2 - b.1) /\
         List.length (r_data rec) = Z.to_nat n /\
         data_sum (r_data rec) = b.2 - b.1 /\
         forall j x, r_data rec !! j = Some x ->
           x = if (pad <=? Z.of_nat j) && (Z.of_nat j <? pad + (b.2 - b.1))
               then 1 else 0) /\
  (0 <= n -> Exists (fun b => ~ (0 <= b.2 - b.1 <= n)) bs ->
   bounds_to_records bs false single_channel = inl AssertionError) /\
  (n < 0 -> bounds_to_records bs false single_channel = inl NegativeDimension).
Proof.
  intros n. split; [|split].
  - intros Hn Hall.
    exists (set_dt (imap (fun k b => filled n single_channel (0 + k) b) bs)).
    split; [|split].
    + unfold bounds_to_records. fold n.
      destruct (Z.ltb_spec n 0); [lia|]. cbn [negb].
      rewrite fill_records_ok by assumption.
      destruct single_channel; [reflexivity|]. cbn [negb andb].
      rewrite filled_channels, remove_dups_length_NoDup.
      * rewrite length_fmap, length_seq, Nat.eqb_refl. reflexivity.
      * apply NoDup_fmap; [apply _|apply NoDup_seq].
    + unfold set_dt. by rewrite length_map, length_imap.
    + intros k b Hb. eexists. split.
      { unfold set_dt. change (map ?f ?l) with (f <$> l).
        rewrite list_lookup_fmap, list_lookup_imap, Hb. reflexivity. }
      cbn [r_time r_dt r_channel r_length r_data filled].
      rewrite Forall_forall in Hall.
      assert (Hlen : 0 <= b.2 - b.1 <= n).
      { apply Hall. by eapply list_elem_of_lookup_2. }
      pose proof (Z.div_mod (n - (b.2 - b.1)) 2 ltac:(lia)) as Hdiv.
      pose proof (Z.mod_pos_bound (n - (b.2 - b.1)) 2 ltac:(lia)) as Hmod.
      split; [reflexivity|]. split; [reflexivity|].
      split; [by destruct single_channel|]. split; [reflexivity|].
      split; [by rewrite set_slice_length, zeros_length|].
      split; [by apply fill_record_sum|].
      intros j x Hj. rewrite set_slice_lookup in Hj.
      rewrite zeros_length, Z2Nat.id in Hj by exact Hn.
      rewrite !slice_bound_inside in Hj by lia.
      destruct (zeros n !! j) as [x0|] eqn:Hz; [|discriminate].
      unfold zeros in Hz. apply lookup_replicate in Hz as [-> _].
      by injection Hj as <-.
  - intros Hn Hex. unfold bounds_to_records. fold n.
    destruct (Z.ltb_spec n 0); [lia|]. cbn [negb].
    by rewrite fill_records_fails.
  - intros Hn. unfold bounds_to_records. fold n.
    destruct (Z.ltb_spec n 0); [reflexivity|lia].
Qed.

(** *** The single record of the other mode *)

Lemma fold_set_slice_length (bs : list (Z * Z)) : forall d,
  List.length (fold_left (fun d b => set_slice d b.1 b.2 1) bs d)
  = List.length d.
Proof.
  induction bs as [|b bs IH]; intros d; simpl; [reflexivity|].
  by rewrite IH, set_slice_length.
Qed.

Lemma fold_set_slice_lookup (bs : list (Z * Z)) : forall d (j : nat),
  fold_left (fun d b => set_slice d b.1 b.2 1) bs d !! j
  = (fun x => if existsb (fun b =>
                   (slice_bound (Z.of_nat (List.length d)) b.1 <=? Z.of_nat j)
                   && (Z.of_nat j <? slice_bound (Z.of_nat (List.length d)) b.2))
                 bs
              then 1 else x) <$> d !! j.
Proof.
  induction bs as [|b bs IH]; intros d j; simpl.
  { by destruct (d !! j). }
  rewrite IH, set_slice_length, set_slice_lookup.
  destruct (d !! j) as [x|]; [|reflexivity]. simpl.
  destruct ((slice_bound (Z.of_nat (List.length d)) b.1 <=? Z.of_nat j)
            && (Z.of_nat j <? slice_bound (Z.of_nat (List.length d)) b.2));
    simpl; [|reflexivity].
  by destruct (existsb _ bs).
Qed.

Lemma existsb_slice_inside (m : Z) (j : nat) (bs : list (Z * Z)) :
  Forall (fun b => 0 <= b.1 <= m /\ 0 <= b.2 <= m) bs ->
  existsb (fun b => (slice_bound m b.1 <=? Z.of_nat j)
                    && (Z.of_nat j <? slice_bound m b.2)) bs
  = existsb (fun b => (b.1 <=? Z.of_nat j) && (Z.of_nat j <? b.2)) bs.
Proof.
  induction 1 as [|b bs Hb _ IH]; [reflexivity|].
  simpl. rewrite IH. by rewrite !slice_bound_inside by lia.
Qed.

(** X9.  With [single] the function never fails on an assertion: unless the
    number of samples is negative it returns one record, at time 0, with
    the sampling step 1 and the number of samples as its length.  For
    bounds without negative end points, a sample of its data is 1 exactly
    when it lies within one of the bounds, and 0 otherwise. *)
Theorem bounds_to_records_single (bs : list (Z * Z)) (single_channel : bool) :
  let n := n_samples_of bs in
  (n < 0 -> bounds_to_records bs true single_channel = inl NegativeDimension) /\
  (0 <= n ->
   exists rec,
     bounds_to_records bs true single_channel = inr [rec] /\
     r_time rec = 0 /\ r_length rec = n /\ r_dt rec = 1 /\ r_channel rec = 0 /\
     List.length (r_data rec) = Z.to_nat n /\
     (Forall (fun b => 0 <= b.1 /\ 0 <= b.2) bs ->
      forall j x, r_data rec !! j = Some x ->
        x = if existsb (fun b => (b.1 <=? Z.of_nat j) && (Z.of_nat j <? b.2)) bs
            then 1 else 0)).
Proof.
  intros n. split.
  - intros Hn. unfold bounds_to_records. fold n.
    destruct (Z.ltb_spec n 0); [reflexivity|lia].
  - intros Hn. eexists. split.
    { unfold bounds_to_records. fold n.
      destruct (Z.ltb_spec n 0); [lia|]. reflexivity. }
    cbn [r_time r_length r_dt r_channel r_data].
    split; [reflexivity|]. split; [reflexivity|]. split; [reflexivity|].
    split; [reflexivity|].
    split; [by rewrite fold_set_slice_length, zeros_length|].
    intros Hpos j x Hj. rewrite fold_set_slice_lookup in Hj.
    rewrite zeros_length, Z2Nat.id in Hj by exact Hn.
    destruct (zeros n !! j) as [x0|] eqn:Hz; [|discriminate].
    unfold zeros in Hz. apply lookup_replicate in Hz as [-> _].
    injection Hj as <-.
    assert (Hsame :
      existsb (fun b => (slice_bound n b.1 <=? Z.of_nat j)
                        && (Z.of_nat j <? slice_bound n b.2)) bs
      = existsb (fun b => (b.1 <=? Z.of_nat j) && (Z.of_nat j <? b.2)) bs);
      [|by rewrite Hsame].
    destruct (n_samples_of_facts bs) as (_ & _ & _ & Hle). fold n in Hle.
    apply existsb_slice_inside. apply Forall_forall. intros b Hb.
    rewrite Forall_forall in Hpos, Hle.
    specialize (Hpos b Hb). specialize (Hle b Hb). lia.
Qed.

Lemma accumulate_from_nonneg (total : Z) (l : list Z) :
  0 <= total -> Forall (fun x => 0 <= x) l ->
  Forall (fun y => 0 <= y) (accumulate_from total l).
Proof.
  revert total. induction l as [|x l IH]; intros total Ht H; simpl.
  { constructor. }
  apply Forall_cons in H as [Hx H]. constructor; [lia|].
  apply IH; [lia|exact H].
Qed.

(** The bounds of a sample made of a draw without negative numbers. *)
Lemma sorted_bounds_nonneg list_of_set disjoint remove_duplicates drawn bounds :
  Forall (fun x => 0 <= x) drawn ->
  sorted_bounds list_of_set disjoint remove_duplicates drawn = Some bounds ->
  Forall (fun b => 0 <= b.1 /\ b.1 < b.2) bounds.
Proof.
  intros Hpos H. pose proof H as Hchunks.
  apply sorted_bounds_sample in Hchunks as (_ & Hlt & _).
  apply sorted_bounds_flatten in H as [Hflat _].
  assert (Hs : Forall (fun y => 0 <= y)
                  (sorted_ints (if disjoint then accumulate drawn else drawn))).
  { unfold sorted_ints. rewrite merge_sort_Permutation.
    destruct disjoint; [|exact Hpos].
    destruct drawn as [|x l]; [constructor|]. simpl.
    apply Forall_cons in Hpos as [Hx Hpos].
    constructor; [exact Hx|]. by apply accumulate_from_nonneg. }
  rewrite <- Hflat in Hs. clear Hflat.
  induction bounds as [|b bounds IH]; [constructor|].
  simpl in Hs. apply Forall_cons in Hs as [H1 Hs].
  apply Forall_cons in Hs as [H2 Hs].
  apply Forall_cons in Hlt as [Hb Hlt].
  constructor; [by split|by apply IH].
Qed.

(** X10.  On the samples that [sorted_bounds] makes of a draw without
    negative numbers (the strategies [single_fake_pulse],
    [several_fake_records] and [several_fake_records_one_channel]),
    [bounds_to_records] always returns, in either mode: it gives one record
    with [single] and one for each bound without, all with the sampling step
    1 and with as many samples as [n_samples_of] says. *)
Theorem fake_records_never_fail list_of_set disjoint remove_duplicates
    drawn bounds (single single_channel : bool) :
  Forall (fun x => 0 <= x) drawn ->
  sorted_bounds list_of_set disjoint remove_duplicates drawn = Some bounds ->
  exists recs,
    bounds_to_records bounds single single_channel = inr recs /\
    List.length recs = (if single then 1%nat else List.length bounds) /\
    Forall (fun rec => r_dt rec = 1 /\
                       List.length (r_data rec)
                       = Z.to_nat (n_samples_of bounds)) recs.
Proof.
  intros Hpos H.
  pose proof (sorted_bounds_nonneg _ _ _ _ _ Hpos H) as Hb.
  destruct (n_samples_of_facts bounds) as (_ & Hnil & _ & Hle).
  assert (Hn : 0 <= n_samples_of bounds).
  { destruct bounds as [|b bounds]; [by rewrite Hnil|].
    apply Forall_cons in Hb as [Hb _]. apply Forall_cons in Hle as [Hle _]. lia. }
  assert (Hlen : Forall (fun b => 0 <= b.2 - b.1 <= n_samples_of bounds) bounds).
  { apply Forall_forall. intros b Hin. rewrite Forall_forall in Hb, Hle.
    specialize (Hb b Hin). specialize (Hle b Hin). lia. }
  unfold bounds_to_records.
  destruct (Z.ltb_spec (n_samples_of bounds) 0); [lia|].
  destruct single; cbn [negb].
  - eexists. split; [reflexivity|]. split; [reflexivity|].
    constructor; [|constructor]. cbn [r_dt r_data]. split; [reflexivity|].
    by rewrite fold_set_slice_length, zeros_length.
  - rewrite fill_records_ok by assumption.
    assert (Hchan : (negb single_channel
       && negb (List.length
                  (remove_dups
                     (map r_channel
                        (imap (fun k b => filled (n_samples_of bounds)
                                            single_channel (0 + k) b) bounds)))
                =? List.length bounds)%nat) = false).
    { destruct single_channel; [reflexivity|]. cbn [negb andb].
      rewrite filled_channels, remove_dups_length_NoDup.
      - by rewrite length_fmap, length_seq, Nat.eqb_refl.
      - apply NoDup_fmap; [apply _|apply NoDup_seq]. }
    rewrite Hchan. eexists. split; [reflexivity|].
    split; [unfold set_dt; by rewrite length_map, length_imap|].
    apply Forall_forall. intros rec Hrec. unfold set_dt in Hrec.
    apply list_elem_of_In, in_map_iff in Hrec as (rec0 & <- & Hin).
    cbn [r_dt r_data]. split; [reflexivity|].
    apply list_elem_of_In, elem_of_lookup_imap in Hin as (k & b & -> & _).
    cbn [filled r_data]. by rewrite set_slice_length, zeros_length.
Qed.

End Records.

(** ** More on [Option] *)

Section OptionMore.

Context {W : Type} (deterministic_hash : list (Z * pyval) -> string).

Implicit Types (self : Option (W := W)) (w : W) (config : gmap string pyval).



Lemma scan_table_prefix table n acc :
  scan_table table n acc =
    match last (prefix_at_or_below n table) with
    | Some p => Given p.2
    | None => acc
    end.
Proof.
  revert acc. induction table as [|[start value] rest IH]; intros acc.
  { reflexivity. }
  simpl. destruct (Z.gtb_spec start n) as [Hgt|Hle].
  - destruct (Z.leb_spec start n); [lia|]. reflexivity.
  - destruct (Z.leb_spec start n); [|lia].
    rewrite IH, last_cons.
    by destruct (last (prefix_at_or_below n rest)).
Qed.

(** X13.  Whatever the order of the table, the legacy code reads it only up
    to the first pair whose first run id is above the run id, and returns
    the value of the last pair before that one; if the very first pair is
    above the run id, or the table is empty, it raises a [ValueError],
    whatever comes later in the table. *)
Theorem default_by_run_reads_prefix self table run_defaults run_id n w :
  default self = OMITTED ->
  default_factory self = OMITTED ->
  default_by_run self = Given (PerRunTable table) ->
  not_in_run_defaults self run_defaults ->
  denotes_run run_id n ->
  match last (prefix_at_or_below n table) with
  | Some p =>
      get_default deterministic_hash self run_id run_defaults w = (Ok p.2, w)
  | None =>
      exists msg,
        get_default deterministic_hash self run_id run_defaults w
        = (Raise (ValueError msg), w) /\
        (Z.abs n < str_digits_bound -> msg = too_small_text n)
  end.
Proof.
  intros Hv Hf Hr Hrd Hn.
  rewrite (get_default_by_run _ _ _ _ _ _ Hrd Hv Hf Hr).
  unfold legacy_per_run. rewrite (classify_run_denotes _ _ Hn).
  rewrite scan_table_prefix.
  destruct (last (prefix_at_or_below n table)); [reflexivity|].
  destruct (too_small_raises n) as (msg & -> & Hmsg). by exists msg.
Qed.

End OptionMore.

(** ** More on [validate] and on reading a configuration *)

Section ValidateMore.

Context {W : Type} (deterministic_hash : list (Z * pyval) -> string).

Implicit Types (self : Option (W := W)) (w : W) (config : gmap string pyval).

Lemma validate_ok_inv self run_id run_defaults config w config' w' :
  validate deterministic_hash self run_id run_defaults true (config, w)
  = (Ok tt, (config', w')) ->
  (exists v, config !! name self = Some v /\ config' = config /\ w' = w) \/
  (exists v, config !! name self = None /\
     get_default deterministic_hash self run_id run_defaults w = (Ok v, w') /\
     config' = <[name self := v]> config).
Proof.
  unfold validate. destruct (config !! name self) as [value|] eqn:Hc.
  - intros H. left. exists value.
    destruct (type self) as [|ty];
      [|destruct (isinstance value ty) as [[]|e0]; [| |discriminate]];
      injection H as <- <-; by repeat split.
  - destruct (get_default deterministic_hash self run_id run_defaults w)
      as [[v|e] w1]; [|discriminate].
    intros [= <- <-]. right. by exists v.
Qed.

Lemma validate_stores self run_id run_defaults config w config' w' :
  validate deterministic_hash self run_id run_defaults true (config, w)
  = (Ok tt, (config', w')) ->
  is_Some (config' !! name self).
Proof.
  intros H. apply validate_ok_inv in H as [(v & Hc & -> & _)|(v & _ & _ & ->)].
  - by exists v.
  - exists v. apply lookup_insert_eq.
Qed.

(** X14.  [validate] fails in two ways only, and leaves the mapping as it
    was in both: the option's name is not in the mapping, [set_defaults]
    holds and [get_default] has raised, the error being that of
    [get_default]; or the name is in the mapping and the declared type is
    not made of classes only, the error being the [TypeError] of
    [isinstance]. *)
Theorem validate_errors self run_id run_defaults set_defaults
    config w e config' w' :
  validate deterministic_hash self run_id run_defaults set_defaults (config, w)
  = (Raise e, (config', w')) ->
  config' = config /\
  ((config !! name self = None /\ set_defaults = true /\
    get_default deterministic_hash self run_id run_defaults w = (Raise e, w')) \/
   (exists value ty,
      config !! name self = Some value /\ type self = Given ty /\
      ~ classes_only ty /\ w' = w /\
      e = TypeError
            "isinstance() arg 2 must be a type, a tuple of types, or a union")).
Proof.
  unfold validate. destruct (config !! name self) as [value|].
  { destruct (type self) as [|ty]; [discriminate|].
    destruct (isinstance value ty) as [[]|e0] eqn:Hty; try discriminate.
    intros [= <- <- <-]. split; [reflexivity|]. right.
    destruct (isinstance_raises _ _ _ Hty) as [Hn He].
    exists value, ty. by repeat split. }
  destruct set_defaults; [|discriminate].
  destruct (get_default deterministic_hash self run_id run_defaults w)
    as [[v|e0] w1]; [discriminate|].
  intros [= <- <- <-]. split; [reflexivity|]. by left.
Qed.

(** X15.  Once [validate] has returned with [set_defaults], validating the
    same mapping again changes nothing, whatever run id, run defaults and
    [set_defaults] the second call is given: the default is resolved once,
    and a factory is not run a second time.  The second call returns when
    the declared type is made of classes only, and can otherwise only
    raise the [TypeError] of [isinstance]. *)
Theorem validate_twice self run_id run_defaults config w config' w'
    run_id2 run_defaults2 set_defaults2 :
  validate deterministic_hash self run_id run_defaults true (config, w)
  = (Ok tt, (config', w')) ->
  exists out,
    validate deterministic_hash self run_id2 run_defaults2 set_defaults2
      (config', w') = (out, (config', w')) /\
    (usable_type self -> out = Ok tt) /\
    (out = Ok tt \/
     out = Raise
             (TypeError
                "isinstance() arg 2 must be a type, a tuple of types, or a union")).
Proof.
  intros H. destruct (validate_stores _ _ _ _ _ _ _ H) as [v Hv].
  unfold validate, usable_type. rewrite Hv.
  destruct (type self) as [|ty].
  { exists (Ok tt). split; [reflexivity|]. split; [done|by left]. }
  destruct (isinstance v ty) as [b|e0] eqn:Hty.
  - exists (Ok tt). split; [by destruct b|]. split; [done|by left].
  - destruct (isinstance_raises _ _ _ Hty) as [Hn ->].
    eexists. split; [reflexivity|]. split; [done|by right].
Qed.

(** X16.  After [validate] has returned with [set_defaults], reading the
    option as an attribute of a plugin that holds the validated mapping
    returns the value stored under its name, in every state and without
    looking at the run id of the plugin; if the name was absent before, that
    value is the one [get_default] had given to [validate]. *)
Theorem validate_then_fetch self run_id run_defaults config w config' w'
    (plugin : instance) w2 :
  validate deterministic_hash self run_id run_defaults true (config, w)
  = (Ok tt, (config', w')) ->
  inst_config plugin = Some config' ->
  exists v,
    config' !! name self = Some v /\
    Config_get deterministic_hash self plugin w2 = (Ok v, w2) /\
    (config !! name self = None ->
     get_default deterministic_hash self run_id run_defaults w = (Ok v, w')).
Proof.
  intros H Hp.
  apply validate_ok_inv in H as [(v & Hc & -> & ->)|(v & Hc & Hd & ->)].
  - exists v. split; [exact Hc|]. split.
    + unfold Config_get, fetch. by rewrite Hp, Hc.
    + intros Hn. congruence.
  - exists v. split; [apply lookup_insert_eq|]. split.
    + unfold Config_get, fetch. by rewrite Hp, lookup_insert_eq.
    + by intros _.
Qed.

(** X17.  An option that has just been constructed without any default
    carries no [taken_by]: unless the run defaults name it, asking for its
    default raises [AttributeError], not [InvalidConfiguration], because
    the message of the latter cannot be built.  The error names the class
    of the object, [Option] or [Config]. *)
Theorem fresh_option_without_default (as_Config : bool) (name0 : string)
    (type0 : field classinfo) (child_option0 : bool)
    (parent_option_name0 : option string) (track0 infer_type : bool)
    (help0 : string) self run_id run_defaults w :
  Option_init as_Config name0 type0 OMITTED OMITTED OMITTED
    child_option0 parent_option_name0 track0 infer_type help0 = Ok self ->
  not_in_run_defaults self run_defaults ->
  get_default deterministic_hash self run_id run_defaults w
  = (Raise (AttributeError
              ("'" +:+ (if as_Config then "Config" else "Option")
               +:+ "' object has no attribute 'taken_by'")), w).
Proof.
  unfold Option_init.
  destruct (_ || _); [discriminate|]. cbn [is_not_OMITTED sum_bools filter].
  intros H Hrd.
  assert (Hself : default self = OMITTED /\ default_factory self = OMITTED /\
                  default_by_run self = OMITTED /\ taken_by self = None /\
                  is_Config self = as_Config).
  { revert H. destruct (_ <? _)%nat; [discriminate|].
    intros [= <-]. by repeat split. }
  destruct Hself as (Hv & Hf & Hr & Ht & Hc).
  rewrite (get_default_missing _ _ _ _ _ Hrd Hv Hf Hr).
  unfold missing_option. by rewrite Ht, Hc.
Qed.

End ValidateMore.

(** ** More on registration *)

Section RegistrationMore.

Context {W : Type}.
Implicit Types (objs : gmap oref (Option (W := W))) (c : klass)
  (refs values : list oref) (old result reg : registry) (r : oref).

(** *** The first loop, stopped by an argument that is no option *)

Lemma declare_options_app refs (rest : list arg) : forall objs c result opt0,
  allocated objs refs ->
  declare_options ((ArgOption <$> refs) ++ rest) result opt0 (mkRegState objs c)
  = declare_options rest (declare_into (name_at objs) refs result)
      (match last refs with Some r => Some r | None => opt0 end)
      (mkRegState (stamped (cls_name c) objs refs) c).
Proof.
  induction refs as [|r refs IH]; intros objs c result opt0 Hall.
  { reflexivity. }
  apply Forall_cons in Hall as [[o Ho] Hall].
  cbn [fmap list_fmap app declare_options].
  unfold bind at 1. unfold deref at 1. cbn [objects]. rewrite Ho.
  unfold bind at 1. unfold the_class at 1. cbn [plugin_class].
  unfold bind at 1. unfold update_object at 1. cbn [objects plugin_class].
  unfold bind at 1. unfold deref at 1. cbn [objects].
  rewrite lookup_alter_eq, Ho. cbn [fmap option_fmap option_map].
  rewrite IH by (by apply allocated_alter).
  rewrite (declare_into_ext _ (name_at objs)) by (intros; apply name_at_alter).
  rewrite (declare_into_cons (name_at objs) r refs result (name o))
    by (unfold name_at; by rewrite Ho).
  rewrite last_cons. cbn [name with_taken_by stamped fold_left].
  by destruct (last refs).
Qed.

(** *** The option objects after a call *)

Lemma stamped_lookup_eq p refs : forall objs r,
  stamped p objs refs !! r =
    if decide (r ∈ refs) then (fun o => with_taken_by o p) <$> objs !! r
    else objs !! r.
Proof.
  induction refs as [|r0 refs IH]; intros objs r.
  { rewrite decide_False by apply not_elem_of_nil. reflexivity. }
  change (stamped p objs (r0 :: refs))
    with (stamped p (alter (fun o => with_taken_by o p) r0 objs) refs).
  rewrite IH, lookup_alter.
  destruct (decide (r ∈ refs)) as [Hin|Hnin];
    destruct (decide (r ∈ r0 :: refs)) as [Hin'|Hnin'];
    destruct (decide (r0 = r)) as [E|E]; subst; try reflexivity;
    try (exfalso;
         match goal with H : _ ∉ _ :: _ |- _ => apply H end;
         first [by right | left]; fail).
  - by destruct (objs !! r).
  - apply elem_of_cons in Hin' as [H|H]; congruence.
Qed.

Lemma name_at_stamped p objs refs r :
  name_at (stamped p objs refs) r = name_at objs r.
Proof.
  unfold name_at. rewrite stamped_lookup_eq.
  destruct (decide (r ∈ refs)); [|reflexivity]. by destruct (objs !! r).
Qed.

Lemma keeps_objects_bind {A B} (m : M (reg_state (W := W)) A)
    (k : A -> M (reg_state (W := W)) B) :
  keeps_objects m -> (forall a, keeps_objects (k a)) ->
  keeps_objects (bind m k).
Proof.
  intros Hm Hk s out s'. unfold bind.
  destruct (m s) as [[a|e] s1] eqn:E.
  - intros H. rewrite (Hk a _ _ _ H). by eapply Hm.
  - intros [= <- <-]. by eapply Hm.
Qed.

Lemma keeps_objects_ret {A} (a : A) : keeps_objects (W := W) (ret a).
Proof. by intros s out s' [= <- <-]. Qed.

Lemma keeps_objects_raise {A} e : keeps_objects (W := W) (A := A) (raise e).
Proof. by intros s out s' [= <- <-]. Qed.

Lemma keeps_objects_deref r : keeps_objects (W := W) (deref r).
Proof.
  intros s out s'. unfold deref.
  destruct (objects s !! r); by intros [= <- <-].
Qed.

Lemma keeps_objects_the_class : keeps_objects (W := W) the_class.
Proof. by intros s out s' [= <- <-]. Qed.

Lemma keeps_objects_setattr_class a v :
  keeps_objects (W := W) (setattr_class a v).
Proof. by intros s out s' [= <- <-]. Qed.

Lemma keeps_objects_nonempty_takes_config :
  keeps_objects (W := W) nonempty_takes_config.
Proof.
  unfold nonempty_takes_config.
  apply keeps_objects_bind; [apply keeps_objects_the_class|].
  intros c. destruct (class_lookup c "takes_config") as [[reg|r]|].
  - destruct (_ =? _)%nat; apply keeps_objects_ret.
  - apply keeps_objects_bind; [apply keeps_objects_deref|].
    intros o. destruct (is_Config o);
      [apply keeps_objects_ret|apply keeps_objects_raise].
  - apply keeps_objects_ret.
Qed.

Lemma keeps_objects_check_collisions values old : forall opt0,
  keeps_objects (W := W) (check_collisions values old opt0).
Proof.
  induction values as [|r values IH]; intros opt0; cbn [check_collisions].
  { apply keeps_objects_ret. }
  apply keeps_objects_bind; [apply keeps_objects_deref|].
  intros o. destruct (dict_contains old (name o));
    [apply keeps_objects_raise|apply IH].
Qed.

(** Whatever the outcome of a call on options, the store it leaves is the
    one in which the options of the call carry the name of the class. *)
Lemma wrapped_objects objs c refs out s' :
  allocated objs refs ->
  wrapped (ArgOption <$> refs) (mkRegState objs c) = (out, s') ->
  objects s' = stamped (cls_name c) objs refs.
Proof.
  intros Hall. unfold wrapped. unfold bind at 1.
  rewrite declare_options_ok by assumption.
  cbv beta iota zeta. cbn [fst snd].
  intros H.
  match type of H with
  | ?m ?s = _ => assert (Hk : keeps_objects m)
  end.
  { apply keeps_objects_bind; [apply keeps_objects_nonempty_takes_config|].
    intros old. apply keeps_objects_bind.
    - destruct old as [old|].
      + apply keeps_objects_bind; [apply keeps_objects_check_collisions|].
        intros opt. apply keeps_objects_bind;
          [apply keeps_objects_setattr_class|].
        intros _. apply keeps_objects_ret.
      + apply keeps_objects_bind; [apply keeps_objects_setattr_class|].
        intros _. apply keeps_objects_ret.
    - intros [r|]; [|apply keeps_objects_raise].
      apply keeps_objects_bind; [apply keeps_objects_deref|].
      intros o. apply keeps_objects_bind.
      + destruct (is_Config o);
          [apply keeps_objects_setattr_class|apply keeps_objects_ret].
      + intros _. apply keeps_objects_the_class. }
  by rewrite (Hk _ _ _ H).
Qed.

(** What a call that returns has done to the class. *)
Lemma wrapped_ok_inv objs c refs c' s' :
  allocated objs refs ->
  wrapped (ArgOption <$> refs) (mkRegState objs c) = (Ok c', s') ->
  exists reg r,
    r ∈ refs /\
    c' = install objs r (class_setattr c "takes_config" (ARegistry reg)) /\
    s' = mkRegState (stamped (cls_name c) objs refs) c' /\
    (reg = declared objs refs \/
     exists old, carries_registry c old /\
       (forall n, n ∈ declared_names objs refs -> dict_contains old n = false) /\
       reg = dict_merge old (declared objs refs)).
Proof.
  intros Hall Hrun.
  destruct refs as [|r0 refs0] eqn:Erefs.
  { exfalso. revert Hrun. unfold wrapped.
    destruct (nonempty_takes_config_cases objs c)
      as [(old & _ & H)|[H|[e H]]].
    - erewrite bind_ok_eq; [|reflexivity|]; [|cbv beta zeta;
        eapply bind_ok_eq; [exact H|reflexivity]]. discriminate.
    - erewrite bind_ok_eq; [|reflexivity|]; [|cbv beta zeta;
        eapply bind_ok_eq; [exact H|reflexivity]]. discriminate.
    - erewrite bind_ok_eq; [|reflexivity|]; [|cbv beta zeta;
        eapply bind_raise_eq; exact H]. discriminate. }
  rewrite <- Erefs in *.
  assert (Hne : refs <> []) by (rewrite Erefs; discriminate).
  destruct (nonempty_takes_config_cases (stamped (cls_name c) objs refs) c)
    as [(old & Hreg & _)|[H|[e H]]].
  - destruct (decide (Exists (fun n => dict_contains old n = true)
                             (declared_names objs refs))) as [Hex|Hnex].
    + apply Exists_exists in Hex.
      destruct (wrapped_registry_collision objs c refs old Hall Hreg Hex)
        as (n & _ & _ & Hraise).
      rewrite Hraise in Hrun. discriminate.
    + assert (Hfree : forall n, n ∈ declared_names objs refs ->
                                dict_contains old n = false).
      { intros n Hn. destruct (dict_contains old n) eqn:E; [|reflexivity].
        exfalso. apply Hnex. apply Exists_exists. by exists n. }
      destruct (declared_last objs refs Hall Hne) as (r & Hlast & Hin).
      rewrite wrapped_registry_ok with (old := old) (r := r) in Hrun
        by assumption.
      injection Hrun as <- <-.
      exists (dict_merge old (declared objs refs)), r.
      split; [exact Hin|]. split; [reflexivity|]. split; [reflexivity|].
      right. by exists old.
  - destruct (proj2 (last_is_Some refs) Hne) as [r Hlast].
    rewrite wrapped_no_registry' with (r := r) in Hrun by assumption.
    injection Hrun as <- <-.
    exists (declared objs refs), r. split.
    + apply last_Some in Hlast as [l' ->]. apply elem_of_app. right. left.
    + split; [reflexivity|]. split; [reflexivity|]. by left.
  - rewrite (wrapped_lookup_raises _ _ _ _ Hall H) in Hrun. discriminate.
Qed.

Lemma elem_of_dict_merge {V} (d e : list (string * V)) x :
  x ∈ dict_merge d e -> x ∈ d \/ x ∈ e.
Proof.
  unfold dict_merge. revert d.
  induction e as [|[k v] e IH]; intros d H; simpl in H; [by left|].
  destruct (IH _ H) as [Hd|He]; [|right; by right].
  apply elem_of_dict_set in Hd as [->|Hd]; [right; left|by left].
Qed.

Lemma dict_merge_NoDup {V} (d e : list (string * V)) :
  NoDup d.*1 -> NoDup (dict_merge d e).*1.
Proof.
  unfold dict_merge. revert d.
  induction e as [|[k v] e IH]; intros d H; simpl; [exact H|].
  apply IH. by apply dict_set_NoDup.
Qed.

Lemma declared_names_agree objs refs : names_agree objs (declared objs refs).
Proof.
  split; [apply declared_NoDup|].
  intros k r H. unfold declared in H.
  apply declare_into_entries in H as [H|[_ H]]; [|exact H].
  by apply elem_of_nil in H.
Qed.

(** X18.  An argument that is no [Option] makes the decorator raise, and
    leave the class as it was, whatever follows that argument; the options
    that precede it have by then been given the name of the class. *)
Theorem takes_config_rejects_non_option objs c refs (v : pyval)
    (rest : list arg) :
  allocated objs refs ->
  takes_config ((ArgOption <$> refs) ++ ArgOther v :: rest) (mkRegState objs c)
  = (Raise (RuntimeError "Specify config options by Option objects"),
     mkRegState (stamped (cls_name c) objs refs) c).
Proof.
  intros Hall. unfold takes_config, wrapped.
  apply bind_raise_eq. by rewrite declare_options_app.
Qed.

(** X19.  Whether a call on options returns or raises, it leaves each
    option of the call with [taken_by] set to the name of the class, and
    otherwise as it was; no other option object is touched. *)
Theorem takes_config_stamps_options objs c refs (out : res klass) s' :
  allocated objs refs ->
  takes_config (ArgOption <$> refs) (mkRegState objs c) = (out, s') ->
  forall r,
    objects s' !! r =
      if decide (r ∈ refs)
      then (fun o => with_taken_by o (cls_name c)) <$> objs !! r
      else objs !! r.
Proof.
  intros Hall Hrun r. unfold takes_config in Hrun.
  rewrite (wrapped_objects _ _ _ _ _ Hall Hrun). apply stamped_lookup_eq.
Qed.

(** X20.  An option without any default that has gone through
    [takes_config] raises [InvalidConfiguration] when its default is asked
    for, with a message that names the option and the class of the call. *)
Theorem registered_option_missing_default
    (deterministic_hash : list (Z * pyval) -> string)
    objs c refs (out : res klass) s' r (o : Option (W := W))
    run_id run_defaults (w : W) :
  allocated objs refs ->
  takes_config (ArgOption <$> refs) (mkRegState objs c) = (out, s') ->
  r ∈ refs -> objs !! r = Some o ->
  default o = OMITTED -> default_factory o = OMITTED ->
  default_by_run o = OMITTED ->
  exists o',
    objects s' !! r = Some o' /\
    (not_in_run_defaults o' run_defaults ->
     get_default deterministic_hash o' run_id run_defaults w
     = (Raise (InvalidConfiguration
                 ("Missing option " +:+ name o +:+ " required by "
                  +:+ cls_name c)), w)).
Proof.
  intros Hall Hrun Hin Ho Hv Hf Hr. unfold takes_config in Hrun.
  exists (with_taken_by o (cls_name c)). split.
  - rewrite (wrapped_objects _ _ _ _ _ Hall Hrun), stamped_lookup_eq.
    rewrite decide_True by assumption. by rewrite Ho.
  - intros Hrd. by rewrite get_default_missing.
Qed.

(** X21.  When the registry that the class carries binds each of its names
    once, to an option of that name, and no declared option is itself
    called [takes_config], then after a call that returns the class has a
    registry with the same property, and every declared name is in it. *)
Theorem takes_config_registry_names objs c refs c' s' :
  allocated objs refs ->
  (forall old, class_lookup c "takes_config" = Some (ARegistry old) ->
     names_agree objs old) ->
  "takes_config" ∉ declared_names objs refs ->
  takes_config (ArgOption <$> refs) (mkRegState objs c) = (Ok c', s') ->
  exists reg,
    class_lookup c' "takes_config" = Some (ARegistry reg) /\
    names_agree (objects s') reg /\
    (forall n, n ∈ declared_names objs refs -> dict_contains reg n = true).
Proof.
  intros Hall Hold Hname Hrun. unfold takes_config in Hrun.
  destruct (wrapped_ok_inv _ _ _ _ _ Hall Hrun)
    as (reg & r & Hin & -> & -> & Hreg).
  exists reg. cbn [objects]. split; [|split].
  - assert (Hr : is_Some (objs !! r)).
    { unfold allocated in Hall. rewrite Forall_forall in Hall. by apply Hall. }
    destruct Hr as [o Ho]. unfold install. rewrite Ho.
    assert (Hset : forall c0 a v, class_lookup (class_setattr c0 a v) a = Some v).
    { intros c0 a v0. unfold class_lookup, class_setattr. cbn [cls_own].
      by rewrite lookup_insert_eq. }
    destruct (is_Config o); [|apply Hset].
    unfold class_lookup, class_setattr. cbn [cls_own cls_bases].
    rewrite lookup_insert_ne, lookup_insert_eq; [reflexivity|].
    intros E. apply Hname. unfold declared_names.
    apply list_elem_of_omap. exists r. split; [exact Hin|].
    unfold name_at. rewrite Ho. cbn. by f_equal.
  - assert (Hagree : names_agree objs reg).
    { destruct Hreg as [->|(old & [Hl _] & _ & ->)].
      - apply declared_names_agree.
      - destruct (Hold _ Hl) as [Hnd Hent]. split.
        + by apply dict_merge_NoDup.
        + intros k r' H. apply elem_of_dict_merge in H as [H|H].
          * by apply Hent.
          * by apply (declared_names_agree objs refs). }
    destruct Hagree as [Hnd Hent]. split; [exact Hnd|].
    intros k r' H. rewrite name_at_stamped. by apply Hent.
  - intros n Hn. apply declared_contains in Hn.
    destruct Hreg as [->|(old & _ & _ & ->)]; [exact Hn|].
    unfold dict_contains in *.
    rewrite dict_get_merge by apply declared_NoDup.
    by destruct (dict_get (declared objs refs) n).
Qed.

(** *** [Config.__set_name__] *)

Lemma alter_alter_lookup objs self (o : Option (W := W)) f g :
  objs !! self = Some o ->
  alter f self (alter g self objs) = <[self := f (g o)]> objs.
Proof.
  intros Ho. apply map_eq. intros i. destruct (decide (i = self)) as [->|Hne].
  - by rewrite !lookup_alter_eq, lookup_insert_eq, Ho.
  - by rewrite !lookup_alter_ne, lookup_insert_ne by done.
Qed.

Lemma class_lookup_setattr c a v :
  class_lookup (class_setattr c a v) a = Some v.
Proof.
  unfold class_lookup, class_setattr. cbn [cls_own]. by rewrite lookup_insert_eq.
Qed.

(** X22.  On a class whose [takes_config], if bound, is a registry without
    the name, [Config.__set_name__] returns; the option has then the name
    and the name of the class, and the registry of the class is the one it
    carried with one entry more, at the end, that binds the name to the
    option.  Nothing else in the class or in the store changes. *)
Theorem Config_set_name_registers objs c (self : oref) (o : Option (W := W))
    (name0 : string) :
  objs !! self = Some o ->
  (forall r, class_lookup c "takes_config" <> Some (AOption r)) ->
  let old := match class_lookup c "takes_config" with
             | Some (ARegistry old) => old
             | _ => []
             end in
  dict_contains old name0 = false ->
  Config_set_name self name0 (mkRegState objs c)
  = (Ok tt,
     mkRegState (<[self := with_taken_by (with_name o name0) (cls_name c)]> objs)
       (class_setattr c "takes_config"
          (ARegistry (old ++ [(name0, self)])%list))).
Proof.
  intros Ho Hreg old Hfree. unfold Config_set_name.
  eapply bind_ok_eq.
  { unfold deref. cbn [objects]. by rewrite Ho. }
  eapply bind_ok_eq; [reflexivity|].
  eapply bind_ok_eq; [reflexivity|].
  eapply bind_ok_eq; [reflexivity|]. cbv beta zeta.
  cbn [objects plugin_class].
  rewrite (alter_alter_lookup _ _ o) by exact Ho.
  assert (Hnew : dict_merge old [(name0, self)] = (old ++ [(name0, self)])%list).
  { unfold dict_merge. simpl. apply dict_set_new.
    intros H. apply dict_contains_true in H. congruence. }
  subst old.
  destruct (class_lookup c "takes_config") as [[old|r]|] eqn:Hl.
  - destruct old as [|e old].
    + eapply bind_ok_eq; [by apply nonempty_takes_config_none; right|].
      reflexivity.
    + eapply bind_ok_eq;
        [by apply (nonempty_takes_config_some _ _ (e :: old))|].
      cbv beta iota. rewrite Hfree, Hnew. reflexivity.
  - by destruct (Hreg r).
  - eapply bind_ok_eq; [by apply nonempty_takes_config_none; left|].
    reflexivity.
Qed.

Lemma Config_set_name_ok_inv objs c (self : oref) (name0 : string) s' :
  Config_set_name self name0 (mkRegState objs c) = (Ok tt, s') ->
  exists reg, carries_registry (plugin_class s') reg /\
              dict_contains reg name0 = true.
Proof.
  unfold Config_set_name.
  unfold bind at 1. unfold deref at 1. cbn [objects].
  destruct (objs !! self) as [o|]; [|discriminate].
  unfold bind at 1. unfold update_object at 1. cbn [objects plugin_class].
  unfold bind at 1. unfold the_class at 1. cbn [plugin_class].
  unfold bind at 1. unfold update_object at 1. cbn [objects plugin_class].
  cbv zeta.
  match goal with
  | |- bind nonempty_takes_config _ (mkRegState ?objs1 _) = _ -> _ =>
      destruct (nonempty_takes_config_cases objs1 c)
        as [(old & Hreg & H)|[H|[e H]]]
  end; unfold bind at 1; rewrite H.
  - destruct (dict_contains old name0) eqn:Hc; [discriminate|].
    intros [= <-]. cbn [plugin_class].
    exists (dict_merge old [(name0, self)]). split.
    + split; [apply class_lookup_setattr|].
      unfold dict_merge. simpl. intros E.
      assert (Hget := dict_get_set_eq old name0 self).
      rewrite E in Hget. discriminate.
    + unfold dict_contains, dict_merge. simpl. by rewrite dict_get_set_eq.
  - intros [= <-]. cbn [plugin_class]. exists [(name0, self)]. split.
    + split; [apply class_lookup_setattr|discriminate].
    + unfold dict_contains. simpl. by rewrite String.eqb_refl.
  - discriminate.
Qed.

(** X23.  A name that [Config.__set_name__] has registered on a class
    cannot be declared again there: a later call of [takes_config] on
    options among which one has that name raises the error of a name
    specified twice, and leaves the class as it was. *)
Theorem Config_name_is_taken objs c (self : oref) (name0 : string) s' refs :
  Config_set_name self name0 (mkRegState objs c) = (Ok tt, s') ->
  allocated (objects s') refs ->
  name0 ∈ declared_names (objects s') refs ->
  exists n s'',
    takes_config (ArgOption <$> refs) s'
    = (Raise (RuntimeError ("Attempt to specify option " +:+ n +:+ " twice")),
       s'') /\
    plugin_class s'' = plugin_class s'.
Proof.
  intros Hset Hall Hin.
  apply Config_set_name_ok_inv in Hset as (reg & Hreg & Hc).
  destruct s' as [objs' c1]. cbn [objects plugin_class] in *.
  destruct (wrapped_registry_collision objs' c1 refs reg Hall Hreg)
    as (n & _ & _ & Hraise).
  { by exists name0. }
  exists n. eexists. split; [exact Hraise|]. reflexivity.
Qed.

End RegistrationMore.

(** ** More on [combine_configs] *)

Section CombineMore.

Implicit Types (h : dict_store) (old new : loc) (d : gmap string pyval).

Lemma lookup_store_old h (m : gmap string pyval) l d :
  h !! l = Some d -> (h ++ [m])%list !! l = Some d.
Proof. intros Hl. rewrite lookup_app_l; [exact Hl|]. by eapply lookup_lt_Some. Qed.

Lemma lookup_store_new h (m : gmap string pyval) :
  (h ++ [m])%list !! List.length h = Some m.
Proof. rewrite lookup_app_r by lia. by rewrite Nat.sub_diag. Qed.

(** X24.  Without a second mapping, the modes ["update"] and
    ["setdefault"] return a new mapping with the content of the first, in
    a place other than that of the first, which is left as it is; the
    mode ["replace"] returns a new, empty mapping. *)
Theorem combine_configs_without_new h old d_old mode :
  h !! old = Some d_old ->
  (mode = "update" \/ mode = "setdefault" ->
   exists l h',
     combine_configs old None mode h = (Ok l, h') /\
     l <> old /\ h !! l = None /\
     h' !! l = Some d_old /\ h' !! old = Some d_old) /\
  (mode = "replace" ->
   exists l h',
     combine_configs old None mode h = (Ok l, h') /\
     h !! l = None /\ h' !! l = Some ∅ /\ h' !! old = Some d_old).
Proof.
  intros Hold.
  assert (Hlt : (old < List.length h)%nat) by (by eapply lookup_lt_Some).
  pose proof (lookup_store_old h ∅ old d_old Hold) as Hold'.
  pose proof (lookup_store_new h ∅) as Hnew.
  split.
  - intros Hmode. exists (S (List.length h)).
    assert (Hfresh : h !! S (List.length h) = None)
      by (apply lookup_ge_None; lia).
    destruct Hmode as [-> | ->]; eexists;
      (split; [|split; [lia|split; [exact Hfresh|]]]).
    + unfold combine_configs. eapply bind_ok_eq; [reflexivity|].
      cbn [String.eqb Ascii.eqb Bool.eqb].
      rewrite (combine_update_ok _ _ _ _ _ Hold' Hnew).
      rewrite length_app. simpl. rewrite Nat.add_1_r. reflexivity.
    + split.
      * replace (S (List.length h)) with (List.length (h ++ [∅])%list)
          by (rewrite length_app; simpl; lia).
        rewrite lookup_store_new. by rewrite (left_id_L ∅ (∪)).
      * by apply lookup_store_old.
    + unfold combine_configs. eapply bind_ok_eq; [reflexivity|].
      cbn [String.eqb Ascii.eqb Bool.eqb].
      rewrite (combine_update_ok _ _ _ _ _ Hnew Hold').
      rewrite length_app. simpl. rewrite Nat.add_1_r. reflexivity.
    + split.
      * replace (S (List.length h)) with (List.length (h ++ [∅])%list)
          by (rewrite length_app; simpl; lia).
        rewrite lookup_store_new. by rewrite (right_id_L ∅ (∪)).
      * by apply lookup_store_old.
  - intros ->. exists (List.length h), (h ++ [∅])%list.
    split; [reflexivity|]. split; [apply lookup_ge_None; lia|].
    by split.
Qed.

(** X25.  Updating is associative in what it yields: laying [c] over the
    result of laying [b] over [a] gives a mapping with the same content as
    laying over [a] the result of laying [c] over [b]; the value of a key
    is the one of [c], else the one of [b], else the one of [a]. *)
Theorem combine_configs_assoc h (a b c : loc) (da db dc : gmap string pyval) :
  h !! a = Some da -> h !! b = Some db -> h !! c = Some dc ->
  exists l1 h1 l2 h2 m,
    (let* ab := combine_configs a (Some b) "update" in
     combine_configs ab (Some c) "update")%py h = (Ok l1, h1) /\
    (let* bc := combine_configs b (Some c) "update" in
     combine_configs a (Some bc) "update")%py h = (Ok l2, h2) /\
    h1 !! l1 = Some m /\ h2 !! l2 = Some m /\
    forall k, m !! k =
      match dc !! k with
      | Some v => Some v
      | None => match db !! k with Some v => Some v | None => da !! k end
      end.
Proof.
  intros Ha Hb Hc.
  assert (Hupd : forall h0 x y, combine_configs x (Some y) "update" h0
                                = combine_update x y h0) by reflexivity.
  exists (List.length (h ++ [db ∪ da])%list),
         ((h ++ [db ∪ da]) ++ [dc ∪ (db ∪ da)])%list,
         (List.length (h ++ [dc ∪ db])%list),
         ((h ++ [dc ∪ db]) ++ [(dc ∪ db) ∪ da])%list,
         (dc ∪ (db ∪ da)).
  split; [|split; [|split; [|split]]].
  - eapply bind_ok_eq.
    + rewrite Hupd. by apply combine_update_ok.
    + rewrite Hupd. apply combine_update_ok.
      * apply lookup_store_new.
      * by apply lookup_store_old.
  - eapply bind_ok_eq.
    + rewrite Hupd. by apply combine_update_ok.
    + rewrite Hupd. apply combine_update_ok.
      * by apply lookup_store_old.
      * apply lookup_store_new.
  - apply lookup_store_new.
  - rewrite lookup_store_new. by rewrite (assoc_L (∪)).
  - intros k. by rewrite !overlay_lookup.
Qed.

End CombineMore.

(** ** Run ids given as text *)

Section RunIdText.

Context {W : Type} (deterministic_hash : list (Z * pyval) -> string).



End RunIdText.

(** ** The further properties on concrete objects *)

(** The draw [[3, 1, 4, 2]] without accumulation. *)
Lemma sorted_bounds_never_overlap_witness :
  sorted_bounds (fun x => x) false false [3; 1; 4; 2] = Some [(1, 2); (3, 4)] /\
  Sorted pair_le [(1, 2); (3, 4)] /\
  Forall (fun p : Z * Z => p.1 < p.2) [(1, 2); (3, 4)] /\
  (forall i j a b, (i < j)%nat ->
     [(1, 2); (3, 4)] !! i = Some a -> [(1, 2); (3, 4)] !! j = Some b ->
     a.2 <= b.1).
Proof.
  split; [vm_compute; reflexivity|].
  apply (sorted_bounds_never_overlap (fun x => x) false false [3; 1; 4; 2]).
  vm_compute. reflexivity.
Defined.

Lemma sorted_bounds_endpoints_witness :
  concat (map (fun b : Z * Z => [b.1; b.2]) [(1, 3); (6, 10)])
  = sorted_ints (accumulate [1; 2; 3; 4]) /\
  (List.length [(1, 3); (6, 10)] * 2 = List.length [1; 2; 3; 4])%nat.
Proof.
  apply (sorted_bounds_endpoints (fun x => x) true false [1; 2; 3; 4]).
  vm_compute. reflexivity.
Defined.

(** Four draws between 0 and 5, accumulated: the last end point is 10. *)
Lemma sorted_bounds_range_witness :
  Forall (fun b : Z * Z => 0 <= b.1 /\ b.2 <= 5 * Z.of_nat 4)
         [(1, 3); (6, 10)].
Proof.
  apply (sorted_bounds_range (fun x => x) true false [1; 2; 3; 4]
           [(1, 3); (6, 10)] 5).
  - repeat constructor; lia.
  - vm_compute. reflexivity.
Defined.

Lemma sorted_bounds_remove_duplicates_witness :
  sorted_bounds (fun x => x) false false [3; 1; 4; 2] = Some [(1, 2); (3, 4)] /\
  NoDup [(1, 2); (3, 4)].
Proof.
  destruct (sorted_bounds_remove_duplicates (fun x => x) false [3; 1; 4; 2]
              [(1, 2); (3, 4)]) as [Hfalse Hnodup].
  split.
  - apply Hfalse. vm_compute. reflexivity.
  - apply (Hnodup true). vm_compute. reflexivity.
Defined.

Lemma sorted_intervals_ordered_witness :
  Forall (fun x => 0 < i_length x) (bounds_to_intervals [(1, 2); (3, 4)]) /\
  (forall i j x y, (i < j)%nat ->
     bounds_to_intervals [(1, 2); (3, 4)] !! i = Some x ->
     bounds_to_intervals [(1, 2); (3, 4)] !! j = Some y ->
     endtime x <= i_time y).
Proof.
  apply (sorted_intervals_ordered (fun x => x) false false [3; 1; 4; 2]).
  vm_compute. reflexivity.
Defined.

(** The bounds [[(1, 3), (6, 10)]] in ten samples. *)
Lemma bounds_to_records_default_witness :
  exists recs,
    bounds_to_records [(1, 3); (6, 10)] false false = inr recs /\
    List.length recs = 2%nat.
Proof.
  destruct (bounds_to_records_default [(1, 3); (6, 10)] false) as (Hok & _).
  destruct Hok as (recs & Hrun & Hlen & _).
  - vm_compute. discriminate.
  - repeat constructor; vm_compute; discriminate.
  - exists recs. by split.
Defined.

Lemma bounds_to_records_single_witness :
  exists rec,
    bounds_to_records [(1, 3); (6, 10)] true false = inr [rec] /\
    r_length rec = 10 /\ r_data rec !! 2%nat = Some 1 /\
    r_data rec !! 4%nat = Some 0.
Proof.
  destruct (bounds_to_records_single [(1, 3); (6, 10)] false) as (_ & Hok).
  destruct Hok as (rec & Hrun & _ & Hlen & _ & _ & Hdata & Hcells).
  { vm_compute. discriminate. }
  exists rec. split; [exact Hrun|]. split; [exact Hlen|].
  injection Hrun as <-. split; reflexivity.
Defined.

Lemma fake_records_never_fail_witness :
  exists recs,
    bounds_to_records [(1, 3); (6, 10)] false true = inr recs /\
    List.length recs = 2%nat /\
    Forall (fun rec => r_dt rec = 1 /\
                       List.length (r_data rec)
                       = Z.to_nat (n_samples_of [(1, 3); (6, 10)])) recs.
Proof.
  apply (fake_records_never_fail (fun x => x) true false [1; 2; 3; 4]
           [(1, 3); (6, 10)] false true).
  - repeat constructor; lia.
  - vm_compute. reflexivity.
Defined.



(** On the table [[(5, "b"), (0, "a"), (10, "c")]] the run 7 gets ["a"]. *)
Lemma default_by_run_reads_prefix_witness :
  get_default Examples.table_hash
    (Examples.with_table "x" Examples.mixed_table) (RunInt 7) None 0%nat
  = (Ok (VStr "a"), 0%nat).
Proof.
  apply (default_by_run_reads_prefix Examples.table_hash
           (Examples.with_table "x" Examples.mixed_table)
           Examples.mixed_table None (RunInt 7) 7 0%nat);
    [reflexivity..| |by left].
  intros d Hd. discriminate Hd.
Defined.

(** [Option("x", type=[int])] on a mapping that has [x]. *)
Lemma validate_errors_witness :
  exists value ty,
    ({["x" := VInt 1]} : gmap string pyval) !! "x" = Some value /\
    type (Examples.typed "x" (NotAClass "[<class 'int'>]")) = Given ty /\
    ~ classes_only ty.
Proof.
  assert (Hrun :
    validate Examples.table_hash
      (Examples.typed "x" (NotAClass "[<class 'int'>]")) RunNone None true
      ({["x" := VInt 1]}, 0%nat)
    = (Raise (TypeError
                "isinstance() arg 2 must be a type, a tuple of types, or a union"),
       ({["x" := VInt 1]}, 0%nat))) by reflexivity.
  destruct (validate_errors _ _ _ _ _ _ _ _ _ _ Hrun)
    as [_ [(Hnone & _)|(value & ty & Hv & Hty & Hn & _)]].
  - vm_compute in Hnone. discriminate Hnone.
  - by exists value, ty.
Defined.

(** A factory that counts its calls is called once. *)
Lemma validate_twice_witness :
  validate Examples.table_hash (Examples.with_factory "x" Examples.counter)
    (RunInt 1) None true (<["x" := VInt 3]> ∅, 4%nat)
  = (Ok tt, (<["x" := VInt 3]> ∅, 4%nat)).
Proof.
  assert (Hfirst :
    validate Examples.table_hash (Examples.with_factory "x" Examples.counter)
      (RunInt 0) None true (∅, 3%nat)
    = (Ok tt, (<["x" := VInt 3]> ∅, 4%nat))) by reflexivity.
  destruct (validate_twice Examples.table_hash _ _ _ _ _ _ _ (RunInt 1) None
              true Hfirst) as (out & Hrun & Hok & _).
  rewrite Hrun, Hok; [reflexivity|exact I].
Defined.

Lemma validate_then_fetch_witness :
  exists v,
    (<["x" := VInt 3]> ∅ : gmap string pyval) !! "x" = Some v /\
    Config_get Examples.table_hash (Examples.with_factory "x" Examples.counter)
      (mkInstance (Some (<["x" := VInt 3]> ∅)) None) 7%nat = (Ok v, 7%nat) /\
    ((∅ : gmap string pyval) !! "x" = None ->
     get_default Examples.table_hash
       (Examples.with_factory "x" Examples.counter) (RunInt 0) None 3%nat
     = (Ok v, 4%nat)).
Proof.
  apply (validate_then_fetch Examples.table_hash
           (Examples.with_factory "x" Examples.counter) (RunInt 0) None
           ∅ 3%nat); reflexivity.
Defined.

Lemma fresh_option_without_default_witness :
  get_default Examples.table_hash (Examples.bare_Config "x") (RunInt 0) None
    0%nat
  = (Raise (AttributeError "'Config' object has no attribute 'taken_by'"),
     0%nat).
Proof.
  apply (fresh_option_without_default Examples.table_hash true "x" OMITTED
           false None true false "").
  - reflexivity.
  - intros d Hd. discriminate Hd.
Defined.

(** [takes_config(Option("a"), 1, Config(name="b"))] *)
Lemma takes_config_rejects_non_option_witness :
  takes_config [ArgOption 0%nat; ArgOther (VInt 1); ArgOption 1%nat]
    (mkRegState Examples.store Examples.Plugin)
  = (Raise (RuntimeError "Specify config options by Option objects"),
     mkRegState (stamped "Plugin" Examples.store [0%nat]) Examples.Plugin).
Proof.
  apply (takes_config_rejects_non_option Examples.store Examples.Plugin
           [0%nat] (VInt 1) [ArgOption 1%nat]).
  repeat constructor. by eexists.
Defined.

(** A call that raises has stamped its option all the same. *)
Lemma takes_config_stamps_options_witness :
  exists s',
    takes_config [ArgOption 3%nat] (mkRegState Examples.store Examples.Child)
    = (Raise (RuntimeError "Attempt to specify option z twice"), s') /\
    objects s' !! 3%nat = Some (with_taken_by (Examples.bare "z") "Child") /\
    objects s' !! 0%nat = Some (Examples.bare "a").
Proof.
  eexists. split; [vm_compute; reflexivity|].
  assert (Hall : allocated Examples.store [3%nat])
    by (repeat constructor; by eexists).
  split.
  - exact (takes_config_stamps_options Examples.store Examples.Child [3%nat]
             _ _ Hall eq_refl 3%nat).
  - exact (takes_config_stamps_options Examples.store Examples.Child [3%nat]
             _ _ Hall eq_refl 0%nat).
Defined.

Lemma registered_option_missing_default_witness :
  exists o',
    objects (takes_config [ArgOption 0%nat]
               (mkRegState Examples.store Examples.Plugin)).2 !! 0%nat
    = Some o' /\
    get_default Examples.table_hash o' (RunInt 0) None 0%nat
    = (Raise (InvalidConfiguration "Missing option a required by Plugin"),
       0%nat).
Proof.
  assert (Hall : allocated Examples.store [0%nat])
    by (repeat constructor; by eexists).
  destruct (registered_option_missing_default Examples.table_hash
              Examples.store Examples.Plugin [0%nat] _ _ 0%nat
              (Examples.bare "a") (RunInt 0) None 0%nat Hall
              (surjective_pairing _))
    as (o' & Ho' & Hd); [left|reflexivity..|].
  exists o'. split; [exact Ho'|]. apply Hd.
  intros d Hd'. discriminate Hd'.
Defined.

(** [takes_config(Option("a"), Config(name="b"))] on a class that has
    inherited the option [z]. *)
Lemma takes_config_registry_names_witness :
  exists reg c' s',
    takes_config [ArgOption 0%nat; ArgOption 1%nat]
      (mkRegState Examples.store Examples.Child) = (Ok c', s') /\
    class_lookup c' "takes_config" = Some (ARegistry reg) /\
    names_agree (objects s') reg /\
    dict_contains reg "a" = true /\ dict_contains reg "b" = true.
Proof.
  set (c0 := install Examples.store 1%nat
               (class_setattr Examples.Child "takes_config"
                  (ARegistry (dict_merge [("z", 3%nat)]
                                (declared Examples.store [0%nat; 1%nat]))))).
  set (s0 := mkRegState (stamped "Child" Examples.store [0%nat; 1%nat]) c0).
  assert (Hrun : takes_config [ArgOption 0%nat; ArgOption 1%nat]
                   (mkRegState Examples.store Examples.Child) = (Ok c0, s0))
    by (vm_compute; reflexivity).
  destruct (takes_config_registry_names Examples.store Examples.Child
              [0%nat; 1%nat] c0 s0) as (reg & Hl & Hagree & Hin).
  - repeat constructor; by eexists.
  - intros old Hold. vm_compute in Hold. injection Hold as <-. split.
    + apply NoDup_singleton.
    + intros k r H. apply list_elem_of_singleton in H. by injection H as -> ->.
  - change (declared_names Examples.store [0%nat; 1%nat]) with ["a"; "b"].
    intros H. apply elem_of_cons in H as [H|H]; [discriminate H|].
    apply elem_of_cons in H as [H|H]; [discriminate H|].
    by apply elem_of_nil in H.
  - exact Hrun.
  - exists reg, c0, s0. split; [exact Hrun|]. split; [exact Hl|].
    split; [exact Hagree|].
    change (declared_names Examples.store [0%nat; 1%nat]) with ["a"; "b"] in Hin.
    split; apply Hin; [left|right; left].
Defined.

(** [b2 = Config()] in the body of a class that carries the option [z]. *)
Lemma Config_set_name_registers_witness :
  Config_set_name 1%nat "b2" (mkRegState Examples.store Examples.Parent)
  = (Ok tt,
     mkRegState
       (<[1%nat := with_taken_by (with_name (Examples.bare_Config "b") "b2")
                     "Parent"]> Examples.store)
       (class_setattr Examples.Parent "takes_config"
          (ARegistry [("z", 3%nat); ("b2", 1%nat)]))).
Proof.
  apply (Config_set_name_registers Examples.store Examples.Parent 1%nat
           (Examples.bare_Config "b") "b2").
  - reflexivity.
  - intros r H. vm_compute in H. discriminate H.
  - reflexivity.
Defined.

(** [a = Config()] in the class body, then [takes_config(Option("a"))]. *)
Lemma Config_name_is_taken_witness :
  exists n s'',
    takes_config [ArgOption 0%nat]
      (mkRegState
         (<[1%nat := with_taken_by (with_name (Examples.bare_Config "b") "a")
                       "Plugin"]> Examples.store)
         (class_setattr Examples.Plugin "takes_config"
            (ARegistry [("a", 1%nat)])))
    = (Raise (RuntimeError ("Attempt to specify option " +:+ n +:+ " twice")),
       s'') /\
    plugin_class s''
    = class_setattr Examples.Plugin "takes_config" (ARegistry [("a", 1%nat)]).
Proof.
  apply (Config_name_is_taken Examples.store Examples.Plugin 1%nat "a"
           (mkRegState
              (<[1%nat := with_taken_by
                            (with_name (Examples.bare_Config "b") "a")
                            "Plugin"]> Examples.store)
              (class_setattr Examples.Plugin "takes_config"
                 (ARegistry [("a", 1%nat)])))
           [0%nat]).
  - vm_compute. reflexivity.
  - repeat constructor. by eexists.
  - vm_compute. left.
Defined.

(** [combine_configs({"a": 1})] *)
Lemma combine_configs_without_new_witness :
  exists l h',
    combine_configs 0%nat None "update" [{["a" := VInt 1]}] = (Ok l, h') /\
    l <> 0%nat /\ [{["a" := VInt 1]}] !! l = (None : option (gmap string pyval)) /\
    h' !! l = Some {["a" := VInt 1]} /\ h' !! 0%nat = Some {["a" := VInt 1]}.
Proof.
  destruct (combine_configs_without_new [{["a" := VInt 1]}] 0%nat
              {["a" := VInt 1]} "update" eq_refl) as [Hupdate _].
  apply Hupdate. by left.
Defined.

Lemma combine_configs_assoc_witness :
  let da := {["a" := VInt 1; "b" := VInt 2]} : gmap string pyval in
  let db := {["b" := VInt 3]} : gmap string pyval in
  let dc := {["c" := VInt 4]} : gmap string pyval in
  exists l1 h1 l2 h2 m,
    (let* ab := combine_configs 0%nat (Some 1%nat) "update" in
     combine_configs ab (Some 2%nat) "update")%py [da; db; dc] = (Ok l1, h1) /\
    (let* bc := combine_configs 1%nat (Some 2%nat) "update" in
     combine_configs 0%nat (Some bc) "update")%py [da; db; dc] = (Ok l2, h2) /\
    h1 !! l1 = Some m /\ h2 !! l2 = Some m /\
    forall k, m !! k =
      match dc !! k with
      | Some v => Some v
      | None => match db !! k with Some v => Some v | None => da !! k end
      end.
Proof.
  intros da db dc.
  apply (combine_configs_assoc [da; db; dc] 0%nat 1%nat 2%nat da db dc);
    reflexivity.
Defined.

